(** * Gunrock application drivers: breadth-first search and PageRank

    A shallow embedding of [gunrock/app/bfs/bfs_app.cu] and
    [gunrock/app/pr/pr_app.cu].  The two files are the host-side entry
    points of the library: they select a template instantiation from the
    run-time data-type descriptor, pick the source vertex, drive the
    Problem/Enactor life cycle and print statistics.

    Host memory, standard output, the error stream and the calls made on
    the engine are kept in an explicit [World]; the drivers are written in
    a state monad over it.  The Problem and Enactor classes, the [Csr]
    wrapper, [util::GRError], [graphio::RandomNode] and [gunrock.h] are
    not part of the two source files: the drivers are parameterised over
    them, and a reference engine is given separately. *)

From Stdlib Require Import ZArith List Bool Lia Floats Uint63.
From stdpp Require Import gmap strings list list_numbers.

Local Open Scope Z_scope.

(** ** Machine arithmetic *)

(** [VertexId], [SizeT] and [Value] are all instantiated with [int]: 32-bit
    two's complement.  Overflow of a signed addition is written out as
    wrap-around. *)
Definition INT_MIN : Z := - 2 ^ 31.
Definition INT_MAX : Z := 2 ^ 31 - 1.

Definition wrap32 (z : Z) : Z := (z + 2 ^ 31) mod 2 ^ 32 - 2 ^ 31.

Definition is_int (z : Z) : Prop := INT_MIN <= z <= INT_MAX.

(** [(double) z] for an integer that fits 64 bits: the nearest binary64. *)
Definition Z2double (z : Z) : float :=
  if z <? 0 then PrimFloat.opp (PrimFloat.of_uint63 (Uint63.of_Z (- z)))
  else PrimFloat.of_uint63 (Uint63.of_Z z).

(** [a[i]] on a host array of [int].  Reading outside the array is
    undefined in C; the model returns 0 there. *)
Definition idx (a : list Z) (i : Z) : Z :=
  if i <? 0 then 0 else nth (Z.to_nat i) a 0.

(** ** Status codes *)

(** Modelled from the spec: the status type is not declared in the two
    files.  The Problem and Enactor methods return a [cudaError_t] that
    the drivers hand to [util::GRError]; beside success, the codes are
    the errors the specification names for the engine (sections 4.1, 4.2
    and 7). *)
Inductive cudaError_t :=
| cudaSuccess
| TooManyDevices
| OutOfDeviceMemory
| InvalidSource
| IncompatibleFeatures
| NotReady
| Overflowed
| DeviceFault.

#[global] Instance cudaError_t_eq_dec : EqDecision cudaError_t.
Proof. solve_decision. Defined.

Definition failed (e : cudaError_t) : bool :=
  match e with cudaSuccess => false | _ => true end.

(** ** The host world *)

(** A block of host memory holds [int]s or [float]s. *)
Inductive Buffer :=
| IntBuf (xs : list Z)
| FloatBuf (xs : list float).

Inductive PrintfArg :=
| ArgStr (s : string)
| ArgInt (z : Z)
| ArgDouble (f : float).

(** What a run does that an observer can see, in program order: text
    printed, errors reported, and the calls made on the engine together
    with the status each returned. *)
Inductive Event :=
| EvPrintf (fmt : string) (args : list PrintfArg)
| EvGRError (message : string) (error : cudaError_t)
| EvProblem (mark_predecessors enable_idempotence use_double_buffer : bool)
| EvInit (num_gpus : Z) (ret : cudaError_t)
| EvReset (src : Z) (ret : cudaError_t)
| EvEnact (arg : Z) (ret : cudaError_t)
| EvGetStatistics
| EvExtract (out aux : Z) (ret : cudaError_t)
| EvDeleteProblem
| EvFree (p : Z).

Record World := mkWorld {
  heap : gmap Z Buffer;     (* live blocks of host memory, by base address *)
  allocator : gmap Z Buffer -> Z -> bool;
                            (* whether [malloc] can serve a request for so many
                               cells, given the live blocks *)
  junk : Z -> Z;            (* what the cells of a fresh block happen to hold *)
  random_source : nat -> Z; (* the values the random source delivers, in order *)
  random_drawn : nat;       (* how many of them have been consumed *)
  elapsed_millis : float;   (* what the GPU timer will read *)
  trace : list Event
}.

Definition M (A : Type) : Type := World -> A * World.

Definition ret {A} (a : A) : M A := fun w => (a, w).

Definition bind {A B} (c : M A) (k : A -> M B) : M B :=
  fun w => let (a, w') := c w in k a w'.

Declare Scope gr_scope.
Delimit Scope gr_scope with gr.
Notation "'let*' x ':=' c 'in' k" := (bind c (fun x => k))
  (at level 10, x name, c at level 100, k at level 200) : gr_scope.
Notation "c ';;;' k" := (bind c (fun _ => k))
  (at level 100, k at level 200, right associativity) : gr_scope.
Local Open Scope gr_scope.

Definition emit (e : Event) : M unit :=
  fun w =>
    (tt, mkWorld (heap w) (allocator w) (junk w) (random_source w) (random_drawn w)
                 (elapsed_millis w) (trace w ++ [e])).

Definition get_heap : M (gmap Z Buffer) := fun w => (heap w, w).

Definition with_heap (h : gmap Z Buffer) (w : World) : World :=
  mkWorld h (allocator w) (junk w) (random_source w) (random_drawn w) (elapsed_millis w)
          (trace w).

Definition set_heap (h : gmap Z Buffer) : M unit := fun w => (tt, with_heap h w).

Definition printf (fmt : string) (args : list PrintfArg) : M unit :=
  emit (EvPrintf fmt args).

Definition when (b : bool) (c : M unit) : M unit := if b then c else ret tt.

Definition NULL : Z := 0.

(** [malloc(sizeof(int) * n)] for an [int n].  The count is converted to
    [size_t]: a negative count becomes a request beyond any address space,
    which no allocator serves.  Any other request is served or not as the
    allocator decides (exhaustion; a request for no cell at all may be
    answered either way).  A request that is not served yields the null
    pointer and leaves memory as it was; one that is served yields a block
    at an address that is neither null nor in use, with unspecified
    contents. *)
Definition malloc_ints (n : Z) : M Z :=
  fun w =>
    if (0 <=? n) && allocator w (heap w) n then
      let p := fresh ({[NULL]} ∪ dom (heap w)) in
      (p, with_heap (<[p := IntBuf (junk w <$> seqZ 0 n)]> (heap w)) w)
    else (NULL, w).

(** The array an [int*] points to; a null, dangling or mistyped pointer
    (undefined in C) reads as the empty array. *)
Definition ints_at (h : gmap Z Buffer) (p : Z) : list Z :=
  if p =? NULL then []
  else match h !! p with Some (IntBuf xs) => xs | _ => [] end.

Definition floats_at (h : gmap Z Buffer) (p : Z) : list float :=
  if p =? NULL then []
  else match h !! p with Some (FloatBuf xs) => xs | _ => [] end.

(** Copying [src] to the start of a block: the block keeps its size. *)
Definition overwrite {A} (src old : list A) : list A :=
  take (length old) (src ++ drop (length src) old).

(** What a callee copies into the array a pointer designates.  Nothing
    is stored through a null, dangling or mistyped pointer (undefined in
    C). *)
Definition put_ints (p : Z) (xs : list Z) (h : gmap Z Buffer) : gmap Z Buffer :=
  if p =? NULL then h
  else match h !! p with
       | Some (IntBuf old) => <[p := IntBuf (overwrite xs old)]> h
       | _ => h
       end.

Definition put_floats (p : Z) (xs : list float) (h : gmap Z Buffer) : gmap Z Buffer :=
  if p =? NULL then h
  else match h !! p with
       | Some (FloatBuf old) => <[p := FloatBuf (overwrite xs old)]> h
       | _ => h
       end.

Definition store_ints (p : Z) (xs : list Z) : M unit :=
  fun w => set_heap (put_ints p xs (heap w)) w.

Definition store_floats (p : Z) (xs : list float) : M unit :=
  fun w => set_heap (put_floats p xs (heap w)) w.

(** [free(p)], as C has it: nothing for the null pointer. *)
Definition free (p : Z) : M unit :=
  if p =? NULL then ret tt
  else emit (EvFree p) ;;; fun w => set_heap (delete p (heap w)) w.

(** ** The declarations of [gunrock.h] *)

(** The header is not among the sources.  Its enumerators are taken as
    given: integer constants, distinct within one enumeration, as a C
    compiler requires of [case] labels.  A field of enumeration type is an
    [int] and can hold any value. *)
Class GunrockEnums := {
  VTXID_INT : Z;
  SIZET_INT : Z;
  VALUE_INT : Z;
  VALUE_UINT : Z;
  VALUE_FLOAT : Z;
  manually : Z;
  randomize : Z;
  largest_degree : Z;
  ValueType_distinct : NoDup [VALUE_INT; VALUE_UINT; VALUE_FLOAT];
  SrcMode_distinct : NoDup [randomize; largest_degree; manually]
}.

Record GunrockDataType := mkDataType {
  VTXID_TYPE : Z;
  SIZET_TYPE : Z;
  VALUE_TYPE : Z
}.

(** The fields of [GunrockGraph] and [GunrockConfig] the two drivers
    touch.  Pointers are base addresses of host blocks. *)
Record GunrockGraph := mkGraph {
  num_nodes : Z;
  num_edges : Z;
  row_offsets : Z;
  col_indices : Z;
  node_values : Z
}.

Record GunrockConfig := mkConfig {
  device : Z;
  src_mode : Z;
  src_node : Z;
  mark_pred : bool;
  idempotence : bool;
  queue_size : float;
  delta : float;
  error : float;
  max_iter : Z
}.

Definition set_node_values (g : GunrockGraph) (p : Z) : GunrockGraph :=
  mkGraph (num_nodes g) (num_edges g) (row_offsets g) (col_indices g) p.

(** [mgpu::CreateCudaDevice(device)]: the context stands for its device. *)
Definition CudaContext := Z.
Definition CreateCudaDevice (device : Z) : CudaContext := device.

(** Modelled from the spec: the result type of [GetFrontierType] is not
    declared in the two files.  A frontier holds vertices or edges
    (section 3). *)
Inductive FrontierKind := VertexFrontier | EdgeFrontier.

(** ** The [Csr] graph wrapper *)
Module Csr.

Record t := mk {
  nodes : Z;
  edges : Z;
  row_offsets : Z;       (* SizeT*    *)
  column_indices : Z     (* VertexId* *)
}.

(** What a reader holding a [const Csr&] sees through the two pointers. *)
Record contents := mkContents {
  c_nodes : Z;
  c_edges : Z;
  c_row_offsets : list Z;
  c_column_indices : list Z
}.

Definition load (g : t) (h : gmap Z Buffer) : contents :=
  mkContents (nodes g) (edges g) (ints_at h (row_offsets g)) (ints_at h (column_indices g)).

Definition out_degree (c : contents) (v : Z) : Z :=
  idx (c_row_offsets c) (v + 1) - idx (c_row_offsets c) v.

(** Modelled from the spec: the [Csr] class of [gunrock/csr.cuh] is missing
    from the sources.  Its destructor releases the arrays its pointers
    refer to, which is why the dispatch functions clear the two pointers
    first ([// reset for free memory]): the caller's buffers are never
    freed by the engine (section 6, graph ingestion contract). *)
Definition destroy (g : t) : M unit :=
  free (row_offsets g) ;;; free (column_indices g).

(** One step of the scan below: the vertex and degree kept so far, and
    the next vertex. *)
Definition highest_step (c : contents) (best : Z * Z) (v : Z) : Z * Z :=
  if out_degree c v >? snd best then (v, out_degree c v) else best.

(** Modelled from the spec: [GetNodeWithHighestDegree] is missing from
    the sources.  Source selection mode [maxDegree] starts from a vertex
    of highest out-degree (section 6); the scan keeps the first vertex
    whose degree exceeds every degree seen before it, and reports that
    degree through its reference argument. *)
Definition GetNodeWithHighestDegree (c : contents) : Z * Z :=
  fold_left (highest_step c) (seqZ 0 (c_nodes c)) (0, 0).

End Csr.

(** ** Helpers of the library that the drivers call *)

(** Modelled from the spec: [util::GRError] is missing from the sources.
    Errors are reported, never swallowed, and are explicit result values
    (section 7): the helper writes the message for a failed status and
    hands the status back to its caller. *)
Definition GRError (e : cudaError_t) (message : string) : M cudaError_t :=
  when (failed e) (emit (EvGRError message e)) ;;; ret e.

(** Modelled from the spec: [graphio::RandomNode] is missing from the
    sources.  Source selection mode [randomUniform] starts from a vertex
    drawn uniformly among the vertices of the graph (section 6): the next
    value of the random source, reduced to a vertex id. *)
Definition RandomNode (num_nodes : Z) : M Z :=
  fun w =>
    (random_source w (random_drawn w) mod num_nodes,
     mkWorld (heap w) (allocator w) (junk w) (random_source w) (S (random_drawn w))
             (elapsed_millis w) (trace w)).

(** [gpu_timer.ElapsedMillis()] *)
Definition ElapsedMillis : M float := fun w => (elapsed_millis w, w).

(** ** The engine, as the drivers use it

    [BFSProblem], [BFSEnactor], [PRProblem] and [PREnactor] are template
    classes defined outside the two source files.  The drivers below work
    with any implementation of the methods they call.  A method that
    fills host arrays returns what it copies; the driver's memory model
    puts it into the block the pointer designates. *)
Class BFSEngine (Problem Enactor : Type) := {
  (* new BFSProblem<int, int, int, MARK_PREDECESSORS, ENABLE_IDEMPOTENCE, ...> *)
  bfs_new_problem : bool -> bool -> bool -> Problem;
  (* BFSEnactor<INSTRUMENT>(DEBUG) *)
  bfs_new_enactor : bool -> bool -> Enactor;
  bfs_Init : bool -> Csr.contents -> Z -> Problem -> cudaError_t * Problem;
  bfs_GetFrontierType : Enactor -> FrontierKind;
  bfs_Reset : Z -> FrontierKind -> float -> Problem -> cudaError_t * Problem;
  bfs_Enact : CudaContext -> Z -> Z -> Enactor -> Problem -> cudaError_t * (Enactor * Problem);
  (* total_queued, search_depth, avg_duty *)
  bfs_GetStatistics : Enactor -> Z * Z * float;
  (* Extract(h_labels, h_preds): the labels and the predecessors copied out *)
  bfs_Extract : Z -> Z -> Problem -> cudaError_t * (list Z * list Z)
}.

Class PREngine (Problem Enactor : Type) := {
  pr_new_problem : Problem;
  pr_new_enactor : bool -> bool -> Enactor;
  pr_Init : bool -> Csr.contents -> Z -> Problem -> cudaError_t * Problem;
  pr_GetFrontierType : Enactor -> FrontierKind;
  pr_Reset : Z -> float -> float -> FrontierKind -> Problem -> cudaError_t * Problem;
  pr_Enact : CudaContext -> Z -> Z -> Enactor -> Problem -> cudaError_t * (Enactor * Problem);
  (* total_queued, avg_duty, num_iter *)
  pr_GetStatistics : Enactor -> Z * float * Z;
  (* Extract(page_rank, node_ids): the ranks and the vertex ids copied out *)
  pr_Extract : Z -> Z -> Problem -> cudaError_t * (list float * list Z)
}.

(** ** [bfs_app.cu] *)
Module bfs_app.

(** [struct Stats]; its [Statistic] members are never read. *)
Record Stats := mkStats { name : string }.

(** The loop of [DisplayStats]: nodes and edges visited. *)
Definition visit (h_labels row_offsets : list Z) (acc : Z * Z) (i : Z) : Z * Z :=
  if idx h_labels i >? -1 then
    (wrap32 (fst acc + 1),
     wrap32 (snd acc + wrap32 (idx row_offsets (i + 1) - idx row_offsets i)))
  else acc.

Definition count_visited (nodes : Z) (h_labels row_offsets : list Z) : Z * Z :=
  fold_left (visit h_labels row_offsets) (seqZ 0 nodes) (0, 0).

(** [redundant_work], after [redundant_work *= 100]. *)
Definition redundant_work (total_queued edges_visited : Z) : float :=
  let r :=
    if total_queued >? 0 then
      ((Z2double total_queued - Z2double edges_visited) / Z2double edges_visited)%float
    else 0%float in
  (r * 100)%float.

Definition DisplayStats (MARK_PREDECESSORS : bool) (stats : Stats) (src : Z)
    (h_labels : Z) (graph : Csr.t) (elapsed : float) (search_depth : Z)
    (total_queued : Z) (avg_duty : float) : M unit :=
  let* h := get_heap in
  let counts := count_visited (Csr.nodes graph) (ints_at h h_labels)
                  (ints_at h (Csr.row_offsets graph)) in
  let nodes_visited := fst counts in
  let edges_visited := snd counts in
  let redundant_work := redundant_work total_queued edges_visited in
  printf "[%s] finished." [ArgStr (name stats)] ;;;
  if nodes_visited <? 5 then printf "Fewer than 5 vertices visited.\n" []
  else
    let m_teps := (Z2double edges_visited / (elapsed * 1000))%float in
    printf "\nelapsed: %.3f ms, rate: %.3f MiEdges/s" [ArgDouble elapsed; ArgDouble m_teps] ;;;
    when (negb (search_depth =? 0))
      (printf ", search_depth: %lld" [ArgInt search_depth]) ;;;
    when (negb (PrimFloat.eqb avg_duty 0))
      (printf "\n avg CTA duty: %.2f%%" [ArgDouble (avg_duty * 100)%float]) ;;;
    printf "\nsource_node: %lld, nodes_visited: %lld, edges visited: %lld"
      [ArgInt src; ArgInt nodes_visited; ArgInt edges_visited] ;;;
    when (total_queued >? 0)
      (printf ", total queued: %lld" [ArgInt total_queued]) ;;;
    when (PrimFloat.ltb 0 redundant_work)
      (printf ", redundant work: %.2f%%" [ArgDouble redundant_work]) ;;;
    printf "\n" [].


Section WithEngine.
Context {Problem Enactor : Type} {engine : BFSEngine Problem Enactor}.

(** [run_bfs<int, int, int, MARK_PREDECESSORS, ENABLE_IDEMPOTENCE>].
    The status [util::GRError] hands back is dropped at each of the
    four calls, as in the source.  The result of [malloc] is not tested:
    a null [h_labels] is handed on like any other.  The allocation of
    [h_preds] is commented out in the source: the pointer stays null.  Starting and
    stopping the timer and [cudaDeviceSynchronize] leave no mark in the
    world. *)
Definition run_bfs (MARK_PREDECESSORS ENABLE_IDEMPOTENCE : bool)
    (ggraph_out : GunrockGraph) (ggraph_in : Csr.t) (src : Z)
    (max_grid_size num_gpus : Z) (max_queue_sizing : float)
    (context : CudaContext) : M GunrockGraph :=
  (* Allocate host-side label array for gpu-computed results *)
  let* h_labels := malloc_ints (Csr.nodes ggraph_in) in
  let h_preds := NULL in
  (* Allocate BFS enactor map *)
  let bfs_enactor := bfs_new_enactor false false in
  (* Allocate problem on GPU *)
  let csr_problem :=
    bfs_new_problem MARK_PREDECESSORS ENABLE_IDEMPOTENCE
      (MARK_PREDECESSORS && ENABLE_IDEMPOTENCE) in
  emit (EvProblem MARK_PREDECESSORS ENABLE_IDEMPOTENCE
          (MARK_PREDECESSORS && ENABLE_IDEMPOTENCE)) ;;;
  let* h := get_heap in
  let r_init := bfs_Init false (Csr.load ggraph_in h) num_gpus csr_problem in
  emit (EvInit num_gpus (fst r_init)) ;;;
  GRError (fst r_init) "Problem BFS Initialization Failed" ;;;
  let csr_problem := snd r_init in
  let stats := mkStats "GPU Breadth-first search" in
  (* Perform BFS *)
  let r_reset :=
    bfs_Reset src (bfs_GetFrontierType bfs_enactor) max_queue_sizing csr_problem in
  emit (EvReset src (fst r_reset)) ;;;
  GRError (fst r_reset) "BFS Problem Data Reset Failed" ;;;
  let csr_problem := snd r_reset in
  let r_enact := bfs_Enact context src max_grid_size bfs_enactor csr_problem in
  emit (EvEnact src (fst r_enact)) ;;;
  GRError (fst r_enact) "BFS Problem Enact Failed" ;;;
  let bfs_enactor := fst (snd r_enact) in
  let csr_problem := snd (snd r_enact) in
  emit EvGetStatistics ;;;
  let st := bfs_GetStatistics bfs_enactor in
  let total_queued := fst (fst st) in
  let search_depth := snd (fst st) in
  let avg_duty := snd st in
  let* elapsed := ElapsedMillis in
  (* Copy out results back to Host *)
  let r_extract := bfs_Extract h_labels h_preds csr_problem in
  store_ints h_labels (fst (snd r_extract)) ;;;
  store_ints h_preds (snd (snd r_extract)) ;;;
  emit (EvExtract h_labels h_preds (fst r_extract)) ;;;
  GRError (fst r_extract) "BFS Problem Data Extraction Failed" ;;;
  (* label per node to GunrockGraph struct *)
  let ggraph_out := set_node_values ggraph_out h_labels in
  (* Display Stats *)
  DisplayStats MARK_PREDECESSORS stats src h_labels ggraph_in elapsed
    search_depth total_queued avg_duty ;;;
  (* Clean up *)
  emit EvDeleteProblem ;;;
  ret ggraph_out.

(** The [switch (bfs_config.src_mode)] of [dispatch_bfs]: the source
    vertex to start from. *)
Definition bfs_source {enums : GunrockEnums} (csr_graph : Csr.t) (bfs_config : GunrockConfig)
    : M Z :=
  if src_mode bfs_config =? randomize then
    RandomNode (Csr.nodes csr_graph)
  else if src_mode bfs_config =? largest_degree then
    let* h := get_heap in
    ret (fst (Csr.GetNodeWithHighestDegree (Csr.load csr_graph h)))
  else if src_mode bfs_config =? manually then
    ret (src_node bfs_config)
  else
    ret 0.

Definition not_yet_supported : M unit :=
  printf "Not Yet Support This DataType Combination.\n" [].

Definition dispatch_bfs {enums : GunrockEnums} (ggraph_out : GunrockGraph)
    (ggraph_in : GunrockGraph) (bfs_config : GunrockConfig)
    (data_type : GunrockDataType) (context : CudaContext) : M GunrockGraph :=
  if VTXID_TYPE data_type =? VTXID_INT then
    if SIZET_TYPE data_type =? SIZET_INT then
      if VALUE_TYPE data_type =? VALUE_INT then
        (* template type = <int, int, int>: build input csr format graph *)
        let csr_graph :=
          Csr.mk (num_nodes ggraph_in) (num_edges ggraph_in)
                 (row_offsets ggraph_in) (col_indices ggraph_in) in
        (* default configurations *)
        let num_gpus := 1 in
        let max_grid_size := 0 in
        (* determine source vertex to start bfs *)
        let* src_node := bfs_source csr_graph bfs_config in
        let mark_pred := mark_pred bfs_config in
        let idempotence := idempotence bfs_config in
        let max_queue_sizing := queue_size bfs_config in
        let* ggraph_out :=
          if mark_pred then
            if idempotence then
              run_bfs true true ggraph_out csr_graph src_node
                max_grid_size num_gpus max_queue_sizing context
            else
              run_bfs true false ggraph_out csr_graph src_node
                max_grid_size num_gpus max_queue_sizing context
          else
            if idempotence then
              run_bfs false true ggraph_out csr_graph src_node
                max_grid_size num_gpus max_queue_sizing context
            else
              run_bfs false false ggraph_out csr_graph src_node
                max_grid_size num_gpus max_queue_sizing context in
        (* reset for free memory *)
        let csr_graph := Csr.mk (Csr.nodes csr_graph) (Csr.edges csr_graph) NULL NULL in
        Csr.destroy csr_graph ;;;
        ret ggraph_out
      else if VALUE_TYPE data_type =? VALUE_UINT then
        not_yet_supported ;;; ret ggraph_out
      else if VALUE_TYPE data_type =? VALUE_FLOAT then
        not_yet_supported ;;; ret ggraph_out
      else ret ggraph_out
    else ret ggraph_out
  else ret ggraph_out.

Definition gunrock_bfs_func {enums : GunrockEnums} (ggraph_out ggraph_in : GunrockGraph)
    (bfs_config : GunrockConfig) (data_type : GunrockDataType) : M GunrockGraph :=
  let context := CreateCudaDevice (device bfs_config) in
  dispatch_bfs ggraph_out ggraph_in bfs_config data_type context.

End WithEngine.
End bfs_app.

(** ** [pr_app.cu] *)
Module pr_app.

(** [struct RankPair<VertexId, Value>]: a vertex and its rank.  [Value]
    is a floating-point type; a [float] is kept as the [double] of the
    same value, which compares the same way. *)
Record RankPair := mkRankPair {
  vertex_id : Z;
  page_rank : float
}.

(** [PRCompare]: [elem1.page_rank > elem2.page_rank]. *)
Definition PRCompare (elem1 elem2 : RankPair) : bool :=
  PrimFloat.ltb (page_rank elem2) (page_rank elem1).

Record Stats := mkStats { name : string }.

Definition DisplayStats (stats : Stats) (h_rank : Z) (graph : Csr.t)
    (elapsed : float) (total_queued : Z) (avg_duty : float) : M unit :=
  (* Display test name *)
  printf "[%s] finished. " [ArgStr (name stats)] ;;;
  (* Display the specific sample statistics *)
  printf " elapsed: %.3f ms" [ArgDouble elapsed] ;;;
  printf "\n" [].

Section WithEngine.
Context {Problem Enactor : Type} {engine : PREngine Problem Enactor}.

(** [run_page_rank<int, float, int>] *)
Definition run_page_rank (ggraph_out : GunrockGraph) (node_ids page_rank : Z)
    (graph : Csr.t) (source : Z) (delta error : float) (max_iter : Z)
    (max_grid_size num_gpus : Z) (context : CudaContext) : M unit :=
  (* Allocate Page Rank enactor map *)
  let pr_enactor := pr_new_enactor false false in
  (* Allocate problem on GPU *)
  let csr_problem := pr_new_problem in
  let* h := get_heap in
  let r_init := pr_Init false (Csr.load graph h) num_gpus csr_problem in
  emit (EvInit num_gpus (fst r_init)) ;;;
  GRError (fst r_init) "Page Rank Problem Initialization Failed" ;;;
  let csr_problem := snd r_init in
  let stats := mkStats "GPU PageRank" in
  (* Perform Page Rank *)
  let r_reset :=
    pr_Reset source delta error (pr_GetFrontierType pr_enactor) csr_problem in
  emit (EvReset source (fst r_reset)) ;;;
  GRError (fst r_reset) "Page Rank Problem Data Reset Failed" ;;;
  let csr_problem := snd r_reset in
  let r_enact := pr_Enact context max_iter max_grid_size pr_enactor csr_problem in
  emit (EvEnact max_iter (fst r_enact)) ;;;
  GRError (fst r_enact) "Page Rank Problem Enact Failed" ;;;
  let pr_enactor := fst (snd r_enact) in
  let csr_problem := snd (snd r_enact) in
  let* elapsed := ElapsedMillis in
  emit EvGetStatistics ;;;
  let st := pr_GetStatistics pr_enactor in
  let total_queued := fst (fst st) in
  let avg_duty := snd (fst st) in
  (* Copy out results *)
  let r_extract := pr_Extract page_rank node_ids csr_problem in
  store_floats page_rank (fst (snd r_extract)) ;;;
  store_ints node_ids (snd (snd r_extract)) ;;;
  emit (EvExtract page_rank node_ids (fst r_extract)) ;;;
  GRError (fst r_extract) "Page Rank Problem Data Extraction Failed" ;;;
  DisplayStats stats page_rank graph elapsed total_queued avg_duty ;;;
  (* Cleanup *)
  emit EvDeleteProblem.

(** The [switch (pr_config.src_mode)] of [dispatch_page_rank]. *)
Definition pr_source {enums : GunrockEnums} (csr_graph : Csr.t) (pr_config : GunrockConfig)
    : M Z :=
  if src_mode pr_config =? randomize then
    RandomNode (Csr.nodes csr_graph)
  else if src_mode pr_config =? largest_degree then
    let* h := get_heap in
    ret (fst (Csr.GetNodeWithHighestDegree (Csr.load csr_graph h)))
  else if src_mode pr_config =? manually then
    ret (src_node pr_config)
  else
    ret (-1).

Definition not_yet_supported : M unit :=
  printf "Not Yet Support This DataType Combination.\n" [].

Definition dispatch_page_rank {enums : GunrockEnums} (ggraph_out : GunrockGraph)
    (node_ids page_rank : Z) (ggraph_in : GunrockGraph)
    (pr_config : GunrockConfig) (data_type : GunrockDataType)
    (context : CudaContext) : M unit :=
  if VTXID_TYPE data_type =? VTXID_INT then
    if SIZET_TYPE data_type =? SIZET_INT then
      if VALUE_TYPE data_type =? VALUE_INT then
        not_yet_supported
      else if VALUE_TYPE data_type =? VALUE_UINT then
        not_yet_supported
      else if VALUE_TYPE data_type =? VALUE_FLOAT then
        (* template type = <int, float, int>: build input csr format graph *)
        let csr_graph :=
          Csr.mk (num_nodes ggraph_in) (num_edges ggraph_in)
                 (row_offsets ggraph_in) (col_indices ggraph_in) in
        (* page rank configurations *)
        let max_grid_size := 0 in
        let num_gpus := 1 in
        (* determine source vertex to start *)
        let* src_node := pr_source csr_graph pr_config in
        let delta := delta pr_config in
        let error := error pr_config in
        let max_iter := max_iter pr_config in
        run_page_rank ggraph_out node_ids page_rank csr_graph src_node
          delta error max_iter max_grid_size num_gpus context ;;;
        (* reset for free memory *)
        let csr_graph := Csr.mk (Csr.nodes csr_graph) (Csr.edges csr_graph) NULL NULL in
        Csr.destroy csr_graph
      else ret tt
    else ret tt
  else ret tt.

Definition gunrock_pr_func {enums : GunrockEnums} (ggraph_out : GunrockGraph)
    (node_ids page_rank : Z) (ggraph_in : GunrockGraph)
    (pr_config : GunrockConfig) (data_type : GunrockDataType) : M unit :=
  let context := CreateCudaDevice (device pr_config) in
  dispatch_page_rank ggraph_out node_ids page_rank ggraph_in pr_config
    data_type context.

End WithEngine.
End pr_app.

(** ** A reference engine

    The engine proper is described by the specification only.  The
    definitions of this module follow its text; they give the drivers an
    engine to run on and fix what the statements about labels, sources
    and readiness mean. *)
Module reference.

(** [ceil] of a binary64, for the frontier capacity
    [ceil(queueSizingFactor * edgeCount)]. *)
Definition ceil_double (f : float) : Z :=
  match Prim2SF f with
  | S754_finite s m e =>
      let floor_abs := if e <? 0 then Z.pos m / 2 ^ (- e) else Z.pos m * 2 ^ e in
      let ceil_abs := if e <? 0 then - ((- Z.pos m) / 2 ^ (- e)) else Z.pos m * 2 ^ e in
      if s then - floor_abs else ceil_abs
  | _ => 0
  end.

(** Where a Problem is in its life cycle. *)
Inductive Phase := Created | Initialised | Seeded | Completed | Unfinished.

#[global] Instance Phase_eq_dec : EqDecision Phase.
Proof. solve_decision. Defined.

(** How a run of the Enactor ended. *)
Inductive Outcome := Idle | Converged | MaxIterationsReached | RunOverflowed | RunFailed.

(** The vertices the edges leaving [u] lead to. *)
Definition neighbors (g : Csr.contents) (u : Z) : list Z :=
  idx (Csr.c_column_indices g) <$>
    seqZ (idx (Csr.c_row_offsets g) u) (Csr.out_degree g u).

Definition in_range (g : Csr.contents) (v : Z) : bool :=
  (0 <=? v) && (v <? Csr.c_nodes g).

Definition sentinel : Z := -1.

Definition empty_graph : Csr.contents := Csr.mkContents 0 0 [] [].

(** *** Traversal-labeling *)
Module bfs.

(** Modelled from the spec: [BFSProblem] is missing from the sources.
    The per-vertex state of section 3 (labels with the "unvisited"
    sentinel, predecessors and visited bits allocated on demand), the
    two queues of the frontier with their capacity, and the place in
    the life cycle Init, Reset, Enact, Extract. *)
Record Problem := mkProblem {
  MARK_PREDECESSORS : bool;
  ENABLE_IDEMPOTENCE : bool;
  graph : Csr.contents;
  label : list Z;
  predecessor : list Z;       (* empty unless predecessors are tracked *)
  visitedBit : list bool;     (* empty unless duplicates are suppressed *)
  frontier : list Z;          (* the input queue *)
  output : list Z;            (* the output queue *)
  capacity : Z;
  phase : Phase
}.

(** Modelled from the spec: [BFSEnactor] is missing from the sources.
    It keeps the statistics of section 4.2 and the state its run ended
    in. *)
Record Enactor := mkEnactor {
  total_queued : Z;
  iteration_count : Z;
  outcome : Outcome
}.

Section Machine.
(** The accelerators at hand and the memory of each, in array cells. *)
Variables (available_devices device_memory : Z).

Definition new_problem (mark_pred idempotence _ : bool) : Problem :=
  mkProblem mark_pred idempotence empty_graph [] [] [] [] [] 0 Created.

Definition new_enactor (_ _ : bool) : Enactor := mkEnactor 0 0 Idle.

Definition with_phase (p : Problem) (ph : Phase) : Problem :=
  mkProblem (MARK_PREDECESSORS p) (ENABLE_IDEMPOTENCE p) (graph p) (label p)
    (predecessor p) (visitedBit p) (frontier p) (output p) (capacity p) ph.

Definition with_arrays (p : Problem) (l pr : list Z) (vb : list bool) (out : list Z)
    : Problem :=
  mkProblem (MARK_PREDECESSORS p) (ENABLE_IDEMPOTENCE p) (graph p) l pr vb
    (frontier p) out (capacity p) (phase p).

Definition with_queues (p : Problem) (inq outq : list Z) : Problem :=
  mkProblem (MARK_PREDECESSORS p) (ENABLE_IDEMPOTENCE p) (graph p) (label p)
    (predecessor p) (visitedBit p) inq outq (capacity p) (phase p).

Definition cells (topology : Csr.contents) (mark_pred idempotence : bool) : Z :=
  let n := Z.max 0 (Csr.c_nodes topology) in
  n + (if mark_pred then n else 0) + (if idempotence then n else 0).

(** Modelled from the spec: [BFSProblem::Init] is missing from the
    sources.  [Init(topology, deviceCount)] allocates the state arrays,
    sized to the vertex count; it fails if [deviceCount] exceeds the
    available devices or the arrays do not fit the device memory
    (section 4.1). *)
Definition Init (_ : bool) (topology : Csr.contents) (deviceCount : Z)
    (p : Problem) : cudaError_t * Problem :=
  if deviceCount >? available_devices then (TooManyDevices, p)
  else if cells topology (MARK_PREDECESSORS p) (ENABLE_IDEMPOTENCE p) >? device_memory
  then (OutOfDeviceMemory, p)
  else
    let n := Z.to_nat (Csr.c_nodes topology) in
    (cudaSuccess,
     mkProblem (MARK_PREDECESSORS p) (ENABLE_IDEMPOTENCE p) topology
       (replicate n sentinel)
       (if MARK_PREDECESSORS p then replicate n sentinel else [])
       (if ENABLE_IDEMPOTENCE p then replicate n false else [])
       [] [] 0 Initialised).

Definition GetFrontierType (_ : Enactor) : FrontierKind := VertexFrontier.

(** Modelled from the spec: [BFSProblem::Reset] is missing from the
    sources.  [Reset(runConfig, frontierKind)] puts every label back to
    "unvisited" except the source, at depth 0, seeds the frontier with
    the source and sizes the queues to
    [ceil(queueSizingFactor * edgeCount)]; it fails with
    [InvalidSource] if the source is out of range (section 4.1).
    Duplicate suppression together with predecessor tracking is a
    configuration error, and a configuration error leaves the state
    as it was (sections 4.3 and 7). *)
Definition Reset (sourceVertex : Z) (_ : FrontierKind) (queueSizingFactor : float)
    (p : Problem) : cudaError_t * Problem :=
  match phase p with
  | Created => (NotReady, p)
  | _ =>
    if MARK_PREDECESSORS p && ENABLE_IDEMPOTENCE p then (IncompatibleFeatures, p)
    else if negb (in_range (graph p) sourceVertex) then (InvalidSource, p)
    else
      let n := Z.to_nat (Csr.c_nodes (graph p)) in
      let s := Z.to_nat sourceVertex in
      (cudaSuccess,
       mkProblem (MARK_PREDECESSORS p) (ENABLE_IDEMPOTENCE p) (graph p)
         (<[s := 0]> (replicate n sentinel))
         (if MARK_PREDECESSORS p then replicate n sentinel else [])
         (if ENABLE_IDEMPOTENCE p then <[s := true]> (replicate n false) else [])
         [sourceVertex] []
         (ceil_double (queueSizingFactor * Z2double (Csr.c_edges (graph p))))
         Seeded)
  end.

(** Modelled from the spec: the traversal functor is missing from the
    sources.  [CondEdge(u, v)] holds iff [v] is unvisited: without
    duplicate suppression that is read off the label; with it, off the
    visited bit, which the test sets (section 4.3). *)
Definition CondEdge (p : Problem) (u v : Z) : bool * Problem :=
  if ENABLE_IDEMPOTENCE p then
    if in_range (graph p) v && negb (nth (Z.to_nat v) (visitedBit p) true) then
      (true, with_arrays p (label p) (predecessor p)
               (<[Z.to_nat v := true]> (visitedBit p)) (output p))
    else (false, p)
  else (in_range (graph p) v && (idx (label p) v =? sentinel), p).

(** Modelled from the spec: [ApplyEdge(u, v)] is
    [label[v] = label[u] + 1], and [predecessor[v] = u] when
    predecessors are tracked (section 4.3). *)
Definition ApplyEdge (p : Problem) (u v : Z) : Problem :=
  with_arrays p
    (<[Z.to_nat v := idx (label p) u + 1]> (label p))
    (if MARK_PREDECESSORS p then <[Z.to_nat v := u]> (predecessor p)
     else predecessor p)
    (visitedBit p) (output p).

Definition push (p : Problem) (v : Z) : Problem :=
  with_arrays p (label p) (predecessor p) (visitedBit p) (output p ++ [v]).

Definition expand_edge (u : Z) (p : Problem) (v : Z) : Problem :=
  let (eligible, p1) := CondEdge p u v in
  if eligible then push (ApplyEdge p1 u v) v else p1.

Definition expand_vertex (p : Problem) (u : Z) : Problem :=
  fold_left (expand_edge u) (neighbors (graph p) u) p.

(** Modelled from the spec: the Advance phase expands every vertex of
    the frontier along its outgoing edges; an eligible destination is
    updated and appended to the output queue (section 4.2). *)
Definition Advance (p : Problem) : Problem :=
  fold_left expand_vertex (frontier p) (with_queues p (frontier p) []).

(** Modelled from the spec: [CondFilter(v)] holds iff [v] was newly
    labelled in this iteration (section 4.3). *)
Definition CondFilter (p : Problem) (depth : Z) (v : Z) : bool :=
  idx (label p) v =? depth + 1.

(** Modelled from the spec: the Filter phase drops the candidates that
    fail the predicate and compacts the rest, without duplicates when
    these are suppressed, into the next frontier (section 4.2). *)
Definition Filter (p : Problem) (depth : Z) : Problem :=
  let kept := filter (fun v => Is_true (CondFilter p depth v)) (output p) in
  with_queues p (if ENABLE_IDEMPOTENCE p then remove_dups kept else kept) [].

(** Modelled from the spec: the iteration loop of the Enactor is
    missing from the sources.  One iteration is Advance then Filter;
    the loop ends when the frontier is empty ([Converged]), when the
    iteration bound is used up ([MaxIterationsReached]) or when a
    queue would hold more than its capacity ([RunOverflowed]); the
    work items of every Advance are added up (section 4.2). *)
Fixpoint iterate (fuel : nat) (depth : Z) (queued : Z) (p : Problem)
    : Outcome * (Z * Z) * Problem :=
  match fuel with
  | O => (MaxIterationsReached, (queued, depth), p)
  | S fuel' =>
      match frontier p with
      | [] => (Converged, (queued, depth), p)
      | _ =>
          let queued' := queued + Z.of_nat (length (frontier p)) in
          let p1 := Advance p in
          if Z.of_nat (length (output p1)) >? capacity p1 then
            (RunOverflowed, (queued', depth), p1)
          else
            let p2 := Filter p1 depth in
            if Z.of_nat (length (frontier p2)) >? capacity p2 then
              (RunOverflowed, (queued', depth), p2)
            else iterate fuel' (depth + 1) queued' p2
      end
  end.

(** Modelled from the spec: [BFSEnactor::Enact] is missing from the
    sources.  It runs the loop on a problem that [Reset] has seeded.
    The drivers give a traversal no iteration bound; one more than
    the vertex count is taken.  Overflow aborts the run and leaves the
    state unfinished; reaching the bound is a normal end (sections 4.2
    and 5). *)
Definition Enact (_ : CudaContext) (src max_grid_size : Z) (e : Enactor)
    (p : Problem) : cudaError_t * (Enactor * Problem) :=
  match phase p with
  | Seeded =>
      let fuel := S (Z.to_nat (Csr.c_nodes (graph p))) in
      let '(o, (queued, depth), p') := iterate fuel 0 0 p in
      match o with
      | RunOverflowed => (Overflowed, (mkEnactor queued depth o, with_phase p' Unfinished))
      | _ => (cudaSuccess, (mkEnactor queued depth o, with_phase p' Completed))
      end
  | _ => (NotReady, (mkEnactor (total_queued e) (iteration_count e) RunFailed, p))
  end.

(** Modelled from the spec: [GetStatistics] reads the totals; no duty
    cycle is measured here. *)
Definition GetStatistics (e : Enactor) : Z * Z * float :=
  (total_queued e, iteration_count e, 0%float).

(** Modelled from the spec: [BFSProblem::Extract] is missing from the
    sources.  [Extract(outLabels, outPredecessors?)] copies the final
    state out; called before a completed [Enact] it produces
    [NotReady] (section 4.1). *)
Definition Extract (outLabels outPredecessors : Z) (p : Problem)
    : cudaError_t * (list Z * list Z) :=
  match phase p with
  | Completed =>
      (cudaSuccess,
       (label p, if outPredecessors =? NULL then [] else predecessor p))
  | _ => (NotReady, ([], []))
  end.

Definition engine : BFSEngine Problem Enactor := {|
  bfs_new_problem := new_problem;
  bfs_new_enactor := new_enactor;
  bfs_Init := Init;
  bfs_GetFrontierType := GetFrontierType;
  bfs_Reset := Reset;
  bfs_Enact := Enact;
  bfs_GetStatistics := GetStatistics;
  bfs_Extract := Extract
|}.

End Machine.
End bfs.

(** *** Rank-propagation *)
Module pr.

(** Modelled from the spec: [PRProblem] is missing from the sources.
    One rank per vertex, the vertices whose rank still moves, and the
    two parameters of a run (sections 3 and 4.3). *)
Record Problem := mkProblem {
  graph : Csr.contents;
  rank : list float;
  frontier : list Z;
  dampingFactor : float;
  convergenceThreshold : float;
  phase : Phase
}.

(** Modelled from the spec: [PREnactor] is missing from the sources. *)
Record Enactor := mkEnactor {
  total_queued : Z;
  iteration_count : Z;
  outcome : Outcome
}.

Section Machine.
Variables (available_devices device_memory : Z).

Definition new_problem : Problem :=
  mkProblem empty_graph [] [] 0%float 0%float Created.

Definition new_enactor (_ _ : bool) : Enactor := mkEnactor 0 0 Idle.

(** Modelled from the spec: [PRProblem::Init] is missing from the
    sources; as for the traversal, with one array of ranks. *)
Definition Init (_ : bool) (topology : Csr.contents) (deviceCount : Z)
    (p : Problem) : cudaError_t * Problem :=
  if deviceCount >? available_devices then (TooManyDevices, p)
  else if Z.max 0 (Csr.c_nodes topology) >? device_memory then (OutOfDeviceMemory, p)
  else
    (cudaSuccess,
     mkProblem topology
       (replicate (Z.to_nat (Csr.c_nodes topology)) 0%float) []
       0%float 0%float Initialised).

Definition GetFrontierType (_ : Enactor) : FrontierKind := VertexFrontier.

(** Modelled from the spec: [PRProblem::Reset] is missing from the
    sources.  Every rank is set to [1/nodeCount] and every vertex is
    active.  The source is a vertex, or -1 for a run without one
    (the driver's own default, "general PageRank"); anything else is
    an [InvalidSource] (section 4.1). *)
Definition Reset (source : Z) (delta error : float) (_ : FrontierKind)
    (p : Problem) : cudaError_t * Problem :=
  match phase p with
  | Created => (NotReady, p)
  | _ =>
    if negb (in_range (graph p) source || (source =? -1)) then (InvalidSource, p)
    else
      let n := Csr.c_nodes (graph p) in
      (cudaSuccess,
       mkProblem (graph p)
         (replicate (Z.to_nat n) (1 / Z2double n)%float)
         (seqZ 0 n) delta error Seeded)
  end.

(** Modelled from the spec: [ApplyEdge(u, v)] is
    [rank[v] += rank[u] / outDegree(u)] (section 4.3). *)
Definition ApplyEdge (p : Problem) (u : Z) (acc : list float) (v : Z) : list float :=
  if in_range (graph p) v then
    <[Z.to_nat v :=
        (nth (Z.to_nat v) acc 0 +
         nth (Z.to_nat u) (rank p) 0 / Z2double (Csr.out_degree (graph p) u))%float]> acc
  else acc.

(** Modelled from the spec: every vertex hands its rank, divided by
    its out-degree, to its neighbours; what a vertex collects is
    damped (section 4.3). *)
Definition Advance (p : Problem) : list float :=
  let n := Csr.c_nodes (graph p) in
  let acc :=
    fold_left (fun a u => fold_left (ApplyEdge p u) (neighbors (graph p) u) a)
              (seqZ 0 n) (replicate (Z.to_nat n) 0%float) in
  (fun x => ((1 - dampingFactor p) / Z2double n + dampingFactor p * x)%float) <$> acc.

(** Modelled from the spec: [CondFilter(v)] holds iff the rank of [v]
    moved by more than the convergence threshold (section 4.3). *)
Definition CondFilter (p : Problem) (next : list float) (v : Z) : bool :=
  PrimFloat.ltb (convergenceThreshold p)
    (PrimFloat.abs (nth (Z.to_nat v) next 0 - nth (Z.to_nat v) (rank p) 0)%float).

(** Modelled from the spec: the loop ends when no vertex moves any
    more or the iteration bound is used up, which is a normal end
    (section 4.3). *)
Fixpoint iterate (fuel : nat) (iter : Z) (queued : Z) (p : Problem)
    : Outcome * (Z * Z) * Problem :=
  match fuel with
  | O => (MaxIterationsReached, (queued, iter), p)
  | S fuel' =>
      match frontier p with
      | [] => (Converged, (queued, iter), p)
      | _ =>
          let next := Advance p in
          let active :=
            filter (fun v => Is_true (CondFilter p next v))
                   (seqZ 0 (Csr.c_nodes (graph p))) in
          iterate fuel' (iter + 1) (queued + Z.of_nat (length (frontier p)))
            (mkProblem (graph p) next active (dampingFactor p)
               (convergenceThreshold p) (phase p))
      end
  end.

(** Modelled from the spec: [PREnactor::Enact] is missing from the
    sources. *)
Definition Enact (_ : CudaContext) (max_iter max_grid_size : Z) (e : Enactor)
    (p : Problem) : cudaError_t * (Enactor * Problem) :=
  match phase p with
  | Seeded =>
      let '(o, (queued, iter), p') := iterate (Z.to_nat max_iter) 0 0 p in
      (cudaSuccess,
       (mkEnactor queued iter o,
        mkProblem (graph p') (rank p') (frontier p') (dampingFactor p')
          (convergenceThreshold p') Completed))
  | _ => (NotReady, (mkEnactor (total_queued e) (iteration_count e) RunFailed, p))
  end.

Definition GetStatistics (e : Enactor) : Z * float * Z :=
  (total_queued e, 0%float, iteration_count e).

(** Modelled from the spec: [PRProblem::Extract] is missing from the
    sources.  The ranks in vertex-id order, with the vertex ids;
    [NotReady] before a completed [Enact] (section 4.1). *)
Definition Extract (page_rank node_ids : Z) (p : Problem)
    : cudaError_t * (list float * list Z) :=
  match phase p with
  | Completed => (cudaSuccess, (rank p, seqZ 0 (Csr.c_nodes (graph p))))
  | _ => (NotReady, ([], []))
  end.

Definition engine : PREngine Problem Enactor := {|
  pr_new_problem := new_problem;
  pr_new_enactor := new_enactor;
  pr_Init := Init;
  pr_GetFrontierType := GetFrontierType;
  pr_Reset := Reset;
  pr_Enact := Enact;
  pr_GetStatistics := GetStatistics;
  pr_Extract := Extract
|}.

End Machine.
End pr.
End reference.

(** * Vocabulary of the statements *)

(** ** Worlds and traces *)

Definition add_events (evs : list Event) (w : World) : World :=
  mkWorld (heap w) (allocator w) (junk w) (random_source w) (random_drawn w)
          (elapsed_millis w) (trace w ++ evs).

(** The events a computation adds to the trace of the world it starts in. *)
Definition new_events {A} (c : M A) (w : World) : list Event :=
  drop (length (trace w)) (trace (snd (c w))).

(** What [util::GRError] writes for a status. *)
Definition gr_report (e : cudaError_t) (message : string) : list Event :=
  if failed e then [EvGRError message e] else [].

(** The four life-cycle operations, as they show in a trace. *)
Inductive Operation := OpInit | OpReset | OpEnact | OpExtract.

Definition operation_of (e : Event) : option Operation :=
  match e with
  | EvInit _ _ => Some OpInit
  | EvReset _ _ => Some OpReset
  | EvEnact _ _ => Some OpEnact
  | EvExtract _ _ _ => Some OpExtract
  | _ => None
  end.

Definition lifecycle (tr : list Event) : list Operation := omap operation_of tr.

Definition is_printf (e : Event) : bool :=
  match e with EvPrintf _ _ => true | _ => false end.

Definition is_engine_call (e : Event) : bool :=
  match e with
  | EvPrintf _ _ | EvGRError _ _ => false
  | _ => true
  end.

Definition is_free (e : Event) : bool :=
  match e with EvFree _ => true | _ => false end.

Definition engine_calls (tr : list Event) : list Event :=
  List.filter is_engine_call tr.

(** The address of the block [malloc] hands out when it serves a
    request, and what the block holds. *)
Definition fresh_block (w : World) : Z := fresh ({[NULL]} ∪ dom (heap w)).

Definition junk_block (w : World) (n : Z) : list Z := junk w <$> seqZ 0 n.

(** Whether [malloc] serves a request for [n] cells. *)
Definition served (w : World) (n : Z) : bool := (0 <=? n) && allocator w (heap w) n.

(** What [run_bfs] gets from [malloc] for its [n] labels: the pointer,
    null when the request is not served, and the memory afterwards. *)
Definition label_block (w : World) (n : Z) : Z :=
  if served w n then fresh_block w else NULL.

Definition label_memory (w : World) (n : Z) : gmap Z Buffer :=
  if served w n then <[fresh_block w := IntBuf (junk_block w n)]> (heap w) else heap w.

(** The world in which the next value of the random source is [r]. *)
Definition next_random (r : Z) (w : World) : World :=
  mkWorld (heap w) (allocator w) (junk w)
          (fun k => if (k =? random_drawn w)%nat then r else random_source w k)
          (random_drawn w) (elapsed_millis w) (trace w).

(** Selecting the source touches nothing but the random source. *)
Definition drawn (n : nat) (w : World) : World :=
  mkWorld (heap w) (allocator w) (junk w) (random_source w) n (elapsed_millis w) (trace w).

(** The lines [bfs_app.DisplayStats] prints, from the arrays it reads. *)
Definition bfs_DisplayStats_prints (stats : bfs_app.Stats) (src : Z)
    (h_labels row_offsets : list Z) (nodes : Z) (elapsed : float)
    (search_depth total_queued : Z) (avg_duty : float) : list Event :=
  let counts := bfs_app.count_visited nodes h_labels row_offsets in
  let redundant_work := bfs_app.redundant_work total_queued (snd counts) in
  EvPrintf "[%s] finished." [ArgStr (bfs_app.name stats)] ::
  if fst counts <? 5 then [EvPrintf "Fewer than 5 vertices visited.\n" []]
  else
    [EvPrintf "\nelapsed: %.3f ms, rate: %.3f MiEdges/s"
       [ArgDouble elapsed; ArgDouble (Z2double (snd counts) / (elapsed * 1000))%float]]
    ++ (if negb (search_depth =? 0)
        then [EvPrintf ", search_depth: %lld" [ArgInt search_depth]] else [])
    ++ (if negb (PrimFloat.eqb avg_duty 0)
        then [EvPrintf "\n avg CTA duty: %.2f%%" [ArgDouble (avg_duty * 100)%float]] else [])
    ++ [EvPrintf "\nsource_node: %lld, nodes_visited: %lld, edges visited: %lld"
          [ArgInt src; ArgInt (fst counts); ArgInt (snd counts)]]
    ++ (if total_queued >? 0
        then [EvPrintf ", total queued: %lld" [ArgInt total_queued]] else [])
    ++ (if PrimFloat.ltb 0 redundant_work
        then [EvPrintf ", redundant work: %.2f%%" [ArgDouble redundant_work]] else [])
    ++ [EvPrintf "\n" []].

Definition pr_DisplayStats_prints (stats : pr_app.Stats) (elapsed : float) : list Event :=
  [EvPrintf "[%s] finished. " [ArgStr (pr_app.name stats)];
   EvPrintf " elapsed: %.3f ms" [ArgDouble elapsed];
   EvPrintf "\n" []].

(** ** The calls [run_bfs] makes on the engine *)
Section BfsRunTerms.
Context {Problem Enactor : Type} {engine : BFSEngine Problem Enactor}.

Record BfsCalls := mkBfsCalls {
  after_init : cudaError_t * Problem;
  after_reset : cudaError_t * Problem;
  after_enact : cudaError_t * (Enactor * Problem);
  statistics : Z * Z * float;
  extracted : cudaError_t * (list Z * list Z)
}.

(** The results of the engine's methods, in the order [run_bfs] calls
    them, each on the state its predecessor left. *)
Definition bfs_calls (mp idem : bool) (g : Csr.contents) (src max_grid_size num_gpus : Z)
    (max_queue_sizing : float) (context : CudaContext) (h_labels h_preds : Z)
    : BfsCalls :=
  let enactor := bfs_new_enactor false false in
  let r1 := bfs_Init false g num_gpus (bfs_new_problem mp idem (mp && idem)) in
  let r2 := bfs_Reset src (bfs_GetFrontierType enactor) max_queue_sizing (snd r1) in
  let r3 := bfs_Enact context src max_grid_size enactor (snd r2) in
  mkBfsCalls r1 r2 r3 (bfs_GetStatistics (fst (snd r3)))
    (bfs_Extract h_labels h_preds (snd (snd r3))).

(** The heap [run_bfs] leaves: the label block, if there is one, filled
    by [Extract]. *)
Definition bfs_final_heap (w : World) (nodes : Z) (c : BfsCalls) : gmap Z Buffer :=
  put_ints (label_block w nodes) (fst (snd (extracted c))) (label_memory w nodes).

(** The events of one [run_bfs]. *)
Definition bfs_run_events (mp idem : bool) (g : Csr.t) (src num_gpus : Z)
    (w : World) (c : BfsCalls) : list Event :=
  [EvProblem mp idem (mp && idem); EvInit num_gpus (fst (after_init c))]
  ++ gr_report (fst (after_init c)) "Problem BFS Initialization Failed"
  ++ [EvReset src (fst (after_reset c))]
  ++ gr_report (fst (after_reset c)) "BFS Problem Data Reset Failed"
  ++ [EvEnact src (fst (after_enact c))]
  ++ gr_report (fst (after_enact c)) "BFS Problem Enact Failed"
  ++ [EvGetStatistics; EvExtract (label_block w (Csr.nodes g)) NULL (fst (extracted c))]
  ++ gr_report (fst (extracted c)) "BFS Problem Data Extraction Failed"
  ++ bfs_DisplayStats_prints (bfs_app.mkStats "GPU Breadth-first search") src
       (ints_at (bfs_final_heap w (Csr.nodes g) c) (label_block w (Csr.nodes g)))
       (ints_at (bfs_final_heap w (Csr.nodes g) c) (Csr.row_offsets g))
       (Csr.nodes g) (elapsed_millis w)
       (snd (fst (statistics c))) (fst (fst (statistics c))) (snd (statistics c))
  ++ [EvDeleteProblem].

End BfsRunTerms.

Arguments BfsCalls : clear implicits.

(** ** The calls [run_page_rank] makes on the engine *)
Section PrRunTerms.
Context {Problem Enactor : Type} {engine : PREngine Problem Enactor}.

Record PrCalls := mkPrCalls {
  pr_after_init : cudaError_t * Problem;
  pr_after_reset : cudaError_t * Problem;
  pr_after_enact : cudaError_t * (Enactor * Problem);
  pr_statistics : Z * float * Z;
  pr_extracted : cudaError_t * (list float * list Z)
}.

Definition pr_calls (g : Csr.contents) (source : Z) (delta error : float)
    (max_iter max_grid_size num_gpus : Z) (context : CudaContext)
    (page_rank node_ids : Z) : PrCalls :=
  let enactor := pr_new_enactor false false in
  let r1 := pr_Init false g num_gpus pr_new_problem in
  let r2 := pr_Reset source delta error (pr_GetFrontierType enactor) (snd r1) in
  let r3 := pr_Enact context max_iter max_grid_size enactor (snd r2) in
  mkPrCalls r1 r2 r3 (pr_GetStatistics (fst (snd r3)))
    (pr_Extract page_rank node_ids (snd (snd r3))).

(** The heap [run_page_rank] leaves: the two buffers of the caller,
    filled by [Extract]. *)
Definition pr_final_heap (w : World) (page_rank node_ids : Z) (c : PrCalls)
    : gmap Z Buffer :=
  put_ints node_ids (snd (snd (pr_extracted c)))
    (put_floats page_rank (fst (snd (pr_extracted c))) (heap w)).

Definition pr_run_events (source max_iter num_gpus page_rank node_ids : Z)
    (w : World) (c : PrCalls) : list Event :=
  [EvInit num_gpus (fst (pr_after_init c))]
  ++ gr_report (fst (pr_after_init c)) "Page Rank Problem Initialization Failed"
  ++ [EvReset source (fst (pr_after_reset c))]
  ++ gr_report (fst (pr_after_reset c)) "Page Rank Problem Data Reset Failed"
  ++ [EvEnact max_iter (fst (pr_after_enact c))]
  ++ gr_report (fst (pr_after_enact c)) "Page Rank Problem Enact Failed"
  ++ [EvGetStatistics; EvExtract page_rank node_ids (fst (pr_extracted c))]
  ++ gr_report (fst (pr_extracted c)) "Page Rank Problem Data Extraction Failed"
  ++ pr_DisplayStats_prints (pr_app.mkStats "GPU PageRank") (elapsed_millis w)
  ++ [EvDeleteProblem].

End PrRunTerms.

Arguments PrCalls : clear implicits.

(** ** Dispatch on the data types *)
Section DispatchTerms.
Context `{enums : GunrockEnums}.

(** The one combination each entry point instantiates. *)
Definition bfs_supported (dt : GunrockDataType) : Prop :=
  VTXID_TYPE dt = VTXID_INT /\ SIZET_TYPE dt = SIZET_INT /\ VALUE_TYPE dt = VALUE_INT.

Definition pr_supported (dt : GunrockDataType) : Prop :=
  VTXID_TYPE dt = VTXID_INT /\ SIZET_TYPE dt = SIZET_INT /\ VALUE_TYPE dt = VALUE_FLOAT.

(** The combinations for which an entry point prints its message. *)
Definition bfs_signalled (dt : GunrockDataType) : bool :=
  (VTXID_TYPE dt =? VTXID_INT) && (SIZET_TYPE dt =? SIZET_INT)
  && ((VALUE_TYPE dt =? VALUE_UINT) || (VALUE_TYPE dt =? VALUE_FLOAT)).

Definition pr_signalled (dt : GunrockDataType) : bool :=
  (VTXID_TYPE dt =? VTXID_INT) && (SIZET_TYPE dt =? SIZET_INT)
  && ((VALUE_TYPE dt =? VALUE_INT) || (VALUE_TYPE dt =? VALUE_UINT)).

Definition unsupported_signal : Event :=
  EvPrintf "Not Yet Support This DataType Combination.\n" [].

Definition csr_of (g : GunrockGraph) : Csr.t :=
  Csr.mk (num_nodes g) (num_edges g) (row_offsets g) (col_indices g).

Definition recognized (mode : Z) : Prop :=
  mode = randomize \/ mode = largest_degree \/ mode = manually.

(** A descriptor made of the enumerators the two files name. *)
Definition named_types (dt : GunrockDataType) : Prop :=
  VTXID_TYPE dt = VTXID_INT /\ SIZET_TYPE dt = SIZET_INT /\
  (VALUE_TYPE dt = VALUE_INT \/ VALUE_TYPE dt = VALUE_UINT \/ VALUE_TYPE dt = VALUE_FLOAT).

Section BfsDispatchTerms.
Context {Problem Enactor : Type} {engine : BFSEngine Problem Enactor}.

(** The calls of the run an entry point starts: the source is selected
    first, the label block requested next. *)
Definition bfs_dispatch_calls (gin : GunrockGraph) (cfg : GunrockConfig)
    (ctx : CudaContext) (w : World) : BfsCalls Problem Enactor :=
  bfs_calls (mark_pred cfg) (idempotence cfg)
    (Csr.load (csr_of gin) (label_memory w (num_nodes gin)))
    (fst (bfs_app.bfs_source (csr_of gin) cfg w)) 0 1 (queue_size cfg) ctx
    (label_block w (num_nodes gin)) NULL.

End BfsDispatchTerms.

Section PrDispatchTerms.
Context {Problem Enactor : Type} {engine : PREngine Problem Enactor}.

Definition pr_dispatch_calls (gin : GunrockGraph) (cfg : GunrockConfig)
    (ctx : CudaContext) (page_rank node_ids : Z) (w : World) : PrCalls Problem Enactor :=
  pr_calls (Csr.load (csr_of gin) (heap w))
    (fst (pr_app.pr_source (csr_of gin) cfg w)) (delta cfg) (error cfg) (max_iter cfg)
    0 1 ctx page_rank node_ids.

End PrDispatchTerms.

End DispatchTerms.

(** ** Graphs and statistics *)

(** A well-formed row-offset array for [nodes] vertices: monotonic from
    0, within [int]. *)
Definition monotonic_offsets (nodes : Z) (row_offsets : list Z) : Prop :=
  idx row_offsets 0 = 0 /\
  idx row_offsets nodes <= INT_MAX /\
  forall i, 0 <= i < nodes -> idx row_offsets i <= idx row_offsets (i + 1).

(** The vertices a label array marks as visited, and the edges leaving them. *)
Definition visited_vertices (nodes : Z) (h_labels : list Z) : list Z :=
  List.filter (fun i => idx h_labels i >? -1) (seqZ 0 nodes).

Definition degree_sum (row_offsets : list Z) (vs : list Z) : Z :=
  foldr (fun v acc => idx row_offsets (v + 1) - idx row_offsets v + acc) 0 vs.

(** The redundant-work figure as the specification words it: the ratio
    of the work items queued to the vertices finalized. *)
Definition claimed_redundant_work (total_queued nodes_visited : Z) : float :=
  (Z2double total_queued / Z2double nodes_visited)%float.

(** The figure [bfs_app.DisplayStats] computes, on the number of edges
    visited. *)
Definition redundant_work_percentage (total_queued edges_visited : Z) : float :=
  ((if total_queued >? 0
    then (Z2double total_queued - Z2double edges_visited) / Z2double edges_visited
    else 0) * 100)%float.

(** The line that reports it. *)
Definition redundant_work_line (x : float) : Event :=
  EvPrintf ", redundant work: %.2f%%" [ArgDouble x].

(** ** The lines of the BFS report *)

Definition finished_line (name : string) : Event :=
  EvPrintf "[%s] finished." [ArgStr name].

Definition fewer_line : Event := EvPrintf "Fewer than 5 vertices visited.\n" [].

Definition search_depth_line (depth : Z) : Event :=
  EvPrintf ", search_depth: %lld" [ArgInt depth].

Definition duty_line (x : float) : Event :=
  EvPrintf "\n avg CTA duty: %.2f%%" [ArgDouble x].

Definition source_line (src nodes_visited edges_visited : Z) : Event :=
  EvPrintf "\nsource_node: %lld, nodes_visited: %lld, edges visited: %lld"
    [ArgInt src; ArgInt nodes_visited; ArgInt edges_visited].

Definition total_queued_line (total_queued : Z) : Event :=
  EvPrintf ", total queued: %lld" [ArgInt total_queued].

(** The reports of [util::GRError] in a trace. *)
Definition is_report (e : Event) : bool :=
  match e with EvGRError _ _ => true | _ => false end.

(** ** Reachability, and what a traversal maintains *)
Module traversal.
Import reference reference.bfs.

(** [v] can be reached from [s] along the edges of the graph. *)
Inductive reach (g : Csr.contents) (s : Z) : Z -> Prop :=
| reach_source : reach g s s
| reach_edge u v : reach g s u -> In v (neighbors g u) -> reach g s v.

(** What holds of the state throughout a run from source [s] on [g]. *)
Record invariant (g : Csr.contents) (s : Z) (p : Problem) : Prop := {
  inv_graph : graph p = g;
  inv_length : length (label p) = Z.to_nat (Csr.c_nodes g);
  inv_label : forall i l, label p !! i = Some l -> l <> sentinel -> reach g s (Z.of_nat i);
  inv_frontier : forall u, In u (frontier p) -> reach g s u;
  inv_output : forall u, In u (output p) -> reach g s u
}.

End traversal.

(** * A worked example

    Concrete data on which the statements below are evaluated. *)
Module example.

(** The enumerators, numbered from 0 in each enumeration. *)
Definition enumerators : GunrockEnums.
Proof.
  refine {| VTXID_INT := 0; SIZET_INT := 0;
            VALUE_INT := 0; VALUE_UINT := 1; VALUE_FLOAT := 2;
            manually := 0; randomize := 1; largest_degree := 2 |};
    compute_done.
Defined.

Definition int_types : GunrockDataType := mkDataType 0 0 0.
Definition float_types : GunrockDataType := mkDataType 0 0 2.

(** Six vertices; the edges 0->1, 0->2, 1->2, 2->3, 3->4 and 4->0.
    Vertex 5 has no edge at all. *)
Definition offsets : list Z := [0; 2; 3; 4; 5; 6; 6].
Definition columns : list Z := [1; 2; 2; 3; 4; 0].

(** The caller's memory: the two arrays of the graph at 100 and 200, a
    buffer of six floats at 300 and one of six ints at 400.  In [world]
    the allocator serves every request; in [full_world] it serves none. *)
Definition memory : gmap Z Buffer :=
  <[100 := IntBuf offsets]>
    (<[200 := IntBuf columns]>
       (<[300 := FloatBuf [0; 0; 0; 0; 0; 0]%float]>
          (<[400 := IntBuf [9; 9; 9; 9; 9; 9]]> ∅))).

Definition world : World :=
  mkWorld memory (fun _ _ => true) (fun _ => 7) (fun n => 3 + Z.of_nat n) 0
          0x1.8p+0%float [].

Definition full_world : World :=
  mkWorld memory (fun _ _ => false) (fun _ => 7) (fun n => 3 + Z.of_nat n) 0
          0x1.8p+0%float [].

Definition graph : GunrockGraph := mkGraph 6 6 100 200 NULL.

(** A configuration: the source mode, the source vertex and the two
    flags vary; sizing factor 1, damping 0.85, threshold 0.01 (the nearest
    binary64 values), at most 20 iterations. *)
Definition config (mode source : Z) (mark_pred idempotence : bool) : GunrockConfig :=
  mkConfig 0 mode source mark_pred idempotence 1%float 0x1.b333333333333p-1%float 0x1.47ae147ae147bp-7%float 20.

(** One device with room for a thousand cells. *)
Definition bfs : BFSEngine reference.bfs.Problem reference.bfs.Enactor :=
  reference.bfs.engine 1 1000.
Definition pr : PREngine reference.pr.Problem reference.pr.Enactor :=
  reference.pr.engine 1 1000.

(** A single vertex without edges. *)
Definition lone_memory : gmap Z Buffer :=
  <[100 := IntBuf [0; 0]]> (<[200 := IntBuf []]> ∅).

Definition lone_world : World :=
  mkWorld lone_memory (fun _ _ => true) (fun _ => 7) (fun n => Z.of_nat n) 0
          0x1.8p+0%float [].

Definition lone_graph : GunrockGraph := mkGraph 1 0 100 200 NULL.

End example.

(** * What the drivers do *)

(** ** Worlds and traces *)

Lemma add_events_nil w : add_events [] w = w.
Proof. destruct w; unfold add_events; simpl. by rewrite app_nil_r. Qed.

Lemma add_events_app a b w : add_events b (add_events a w) = add_events (a ++ b) w.
Proof. unfold add_events; simpl. by rewrite app_assoc. Qed.

Lemma add_events_with_heap evs h w :
  add_events evs (with_heap h w) = with_heap h (add_events evs w).
Proof. reflexivity. Qed.

Lemma new_events_add {A} (c : M A) (w : World) (a : A) (h : gmap Z Buffer) evs r d :
  c w = (a, mkWorld h (allocator w) (junk w) r d (elapsed_millis w) (trace w ++ evs)) ->
  new_events c w = evs.
Proof.
  intros E. unfold new_events. rewrite E. simpl.
  by rewrite drop_app_length.
Qed.

Lemma emit_run e w : emit e w = (tt, add_events [e] w).
Proof. reflexivity. Qed.

Lemma GRError_run e message w :
  GRError e message w = (e, add_events (gr_report e message) w).
Proof.
  unfold GRError, gr_report, when, bind, ret.
  destruct (failed e); simpl; [reflexivity | by rewrite add_events_nil].
Qed.

Lemma lifecycle_app a b : lifecycle (a ++ b) = lifecycle a ++ lifecycle b.
Proof. apply omap_app. Qed.

Lemma lifecycle_gr_report e message : lifecycle (gr_report e message) = [].
Proof. unfold gr_report. by destruct (failed e). Qed.

Lemma lifecycle_printfs evs : forallb is_printf evs = true -> lifecycle evs = [].
Proof.
  induction evs as [|e evs IH]; [done|].
  simpl. intros [He Hevs]%andb_prop. destruct e; try discriminate. by apply IH.
Qed.

Lemma bfs_DisplayStats_prints_printf stats src ls ro n el sd tq duty :
  forallb is_printf (bfs_DisplayStats_prints stats src ls ro n el sd tq duty) = true.
Proof.
  unfold bfs_DisplayStats_prints. simpl.
  repeat match goal with |- context [if ?b then _ else _] => destruct b end; reflexivity.
Qed.

Lemma when_emit_run b e w :
  when b (emit e) w = (tt, add_events (if b then [e] else []) w).
Proof. destruct b; [reflexivity|]. unfold when, ret. by rewrite add_events_nil. Qed.

Lemma bfs_DisplayStats_run mp stats src h_labels graph elapsed sd tq duty w :
  bfs_app.DisplayStats mp stats src h_labels graph elapsed sd tq duty w =
  (tt, add_events
         (bfs_DisplayStats_prints stats src (ints_at (heap w) h_labels)
            (ints_at (heap w) (Csr.row_offsets graph)) (Csr.nodes graph)
            elapsed sd tq duty) w).
Proof.
  unfold bfs_app.DisplayStats, bfs_DisplayStats_prints, bind, get_heap, printf.
  cbv zeta.
  generalize (bfs_app.count_visited (Csr.nodes graph) (ints_at (heap w) h_labels)
                (ints_at (heap w) (Csr.row_offsets graph))).
  intros counts.
  rewrite emit_run. cbv beta iota.
  destruct (fst counts <? 5).
  - rewrite emit_run, add_events_app. reflexivity.
  - repeat (first [rewrite emit_run | rewrite when_emit_run]; cbv beta iota).
    rewrite !add_events_app. do 2 f_equal.
Qed.

Lemma heap_add_events evs w : heap (add_events evs w) = heap w.
Proof. reflexivity. Qed.

Lemma heap_with_heap h w : heap (with_heap h w) = h.
Proof. reflexivity. Qed.

Lemma elapsed_add_events evs w : elapsed_millis (add_events evs w) = elapsed_millis w.
Proof. reflexivity. Qed.

Lemma elapsed_with_heap h w : elapsed_millis (with_heap h w) = elapsed_millis w.
Proof. reflexivity. Qed.

Lemma trace_add_events evs w : trace (add_events evs w) = trace w ++ evs.
Proof. reflexivity. Qed.

Lemma trace_with_heap h w : trace (with_heap h w) = trace w.
Proof. reflexivity. Qed.

Lemma with_heap_with_heap h1 h2 w : with_heap h2 (with_heap h1 w) = with_heap h2 w.
Proof. reflexivity. Qed.

Create Rewrite HintDb world.
#[local] Hint Rewrite heap_add_events heap_with_heap elapsed_add_events elapsed_with_heap
  add_events_with_heap with_heap_with_heap add_events_app : world.

(** ** The calls [run_bfs] makes on the engine *)
Section BfsRun.
Context {Problem Enactor : Type} {engine : BFSEngine Problem Enactor}.

Lemma fresh_block_spec w : fresh_block w <> NULL /\ heap w !! fresh_block w = None.
Proof.
  unfold fresh_block.
  pose proof (is_fresh ({[NULL]} ∪ dom (heap w))) as Hf.
  split; [set_solver|].
  apply not_elem_of_dom. set_solver.
Qed.

Lemma with_heap_same w : with_heap (heap w) w = w.
Proof. by destruct w. Qed.

Lemma malloc_ints_run n w :
  malloc_ints n w = (label_block w n, with_heap (label_memory w n) w).
Proof.
  unfold malloc_ints, label_block, label_memory, served.
  destruct ((0 <=? n) && allocator w (heap w) n); [reflexivity|].
  by rewrite with_heap_same.
Qed.

Lemma label_block_served w n :
  served w n = true ->
  label_block w n = fresh_block w /\
  label_memory w n = <[fresh_block w := IntBuf (junk_block w n)]> (heap w).
Proof. unfold label_block, label_memory. by intros ->. Qed.

Lemma label_block_refused w n :
  served w n = false -> label_block w n = NULL /\ label_memory w n = heap w.
Proof. unfold label_block, label_memory. by intros ->. Qed.

Lemma served_negative w n : n < 0 -> served w n = false.
Proof. intros Hn. unfold served. by rewrite (proj2 (Z.leb_gt _ _) Hn). Qed.

Lemma label_block_fresh w n : label_block w n = NULL \/ heap w !! label_block w n = None.
Proof.
  destruct (served w n) eqn:Hsv.
  - right. destruct (label_block_served w n Hsv) as [-> _]. apply fresh_block_spec.
  - left. by destruct (label_block_refused w n Hsv).
Qed.

Lemma store_ints_run p xs w :
  store_ints p xs w = (tt, with_heap (put_ints p xs (heap w)) w).
Proof. reflexivity. Qed.

Lemma store_floats_run p xs w :
  store_floats p xs w = (tt, with_heap (put_floats p xs (heap w)) w).
Proof. reflexivity. Qed.

Lemma put_ints_null xs h : put_ints NULL xs h = h.
Proof. reflexivity. Qed.

Lemma put_ints_at p xs old h :
  p <> NULL -> h !! p = Some (IntBuf old) ->
  put_ints p xs h = <[p := IntBuf (overwrite xs old)]> h.
Proof.
  intros Hp Hold. unfold put_ints.
  apply Z.eqb_neq in Hp. by rewrite Hp, Hold.
Qed.

Lemma run_bfs_run mp idem out g src mgs n q ctx w :
  let c := bfs_calls mp idem (Csr.load g (label_memory w (Csr.nodes g)))
             src mgs n q ctx (label_block w (Csr.nodes g)) NULL in
  bfs_app.run_bfs mp idem out g src mgs n q ctx w =
  (set_node_values out (label_block w (Csr.nodes g)),
   with_heap (bfs_final_heap w (Csr.nodes g) c)
     (add_events (bfs_run_events mp idem g src n w c) w)).
Proof.
  intros c.
  unfold bfs_app.run_bfs, bind, get_heap, ElapsedMillis, ret.
  rewrite malloc_ints_run. cbv beta iota zeta.
  repeat (first [rewrite emit_run | rewrite GRError_run | rewrite store_ints_run
                | rewrite bfs_DisplayStats_run];
          cbv beta iota).
  autorewrite with world.
  rewrite put_ints_null.
  unfold bfs_run_events, bfs_final_heap.
  rewrite <- !app_assoc. reflexivity.
Qed.

Lemma bfs_final_heap_served w nodes (c : BfsCalls Problem Enactor) :
  served w nodes = true ->
  bfs_final_heap w nodes c =
  <[fresh_block w :=
      IntBuf (overwrite (fst (snd (extracted c))) (junk_block w nodes))]> (heap w).
Proof.
  intros Hs. unfold bfs_final_heap.
  destruct (label_block_served w nodes Hs) as [-> ->].
  destruct (fresh_block_spec w) as [Hnull _].
  erewrite put_ints_at; [|done|by rewrite lookup_insert_eq].
  by rewrite insert_insert_eq.
Qed.

Lemma bfs_final_heap_refused w nodes (c : BfsCalls Problem Enactor) :
  served w nodes = false -> bfs_final_heap w nodes c = heap w.
Proof.
  intros Hs. unfold bfs_final_heap.
  by destruct (label_block_refused w nodes Hs) as [-> ->].
Qed.
End BfsRun.

(** ** The calls [run_page_rank] makes on the engine *)
Section PrRun.
Context {Problem Enactor : Type} {engine : PREngine Problem Enactor}.

Lemma run_page_rank_run out node_ids page_rank g source delta error max_iter mgs n ctx w :
  let c := pr_calls (Csr.load g (heap w)) source delta error max_iter mgs n ctx
             page_rank node_ids in
  pr_app.run_page_rank out node_ids page_rank g source delta error max_iter mgs n ctx w =
  (tt, with_heap (pr_final_heap w page_rank node_ids c)
         (add_events (pr_run_events source max_iter n page_rank node_ids w c) w)).
Proof.
  intros c.
  unfold pr_app.run_page_rank, pr_app.DisplayStats, printf, bind, get_heap,
    ElapsedMillis, ret.
  cbv zeta.
  repeat (first [rewrite emit_run | rewrite GRError_run | rewrite store_ints_run
                | rewrite store_floats_run];
          cbv beta iota).
  autorewrite with world.
  unfold pr_run_events, pr_final_heap, pr_DisplayStats_prints.
  rewrite <- !app_assoc. reflexivity.
Qed.
End PrRun.

(** ** Dispatch on the data types *)
Section Dispatch.
Context `{enums : GunrockEnums}.

Lemma ValueType_ne :
  VALUE_INT <> VALUE_UINT /\ VALUE_INT <> VALUE_FLOAT /\ VALUE_UINT <> VALUE_FLOAT.
Proof.
  pose proof ValueType_distinct as Hd.
  apply NoDup_cons in Hd as [H1 Hd]. apply NoDup_cons in Hd as [H2 _].
  set_solver.
Qed.

Lemma SrcMode_ne :
  randomize <> largest_degree /\ randomize <> manually /\ largest_degree <> manually.
Proof.
  pose proof SrcMode_distinct as Hd.
  apply NoDup_cons in Hd as [H1 Hd]. apply NoDup_cons in Hd as [H2 _].
  set_solver.
Qed.

Lemma drawn_same w : drawn (random_drawn w) w = w.
Proof. by destruct w. Qed.

Lemma bfs_source_cases csr cfg w :
  bfs_app.bfs_source csr cfg w =
    if src_mode cfg =? randomize then
      (random_source w (random_drawn w) mod Csr.nodes csr, drawn (S (random_drawn w)) w)
    else if src_mode cfg =? largest_degree then
      (fst (Csr.GetNodeWithHighestDegree (Csr.load csr (heap w))), w)
    else if src_mode cfg =? manually then (src_node cfg, w)
    else (0, w).
Proof.
  unfold bfs_app.bfs_source.
  repeat match goal with |- context [if ?b then _ else _] => destruct b end; reflexivity.
Qed.

Lemma pr_source_cases csr cfg w :
  pr_app.pr_source csr cfg w =
    if src_mode cfg =? randomize then
      (random_source w (random_drawn w) mod Csr.nodes csr, drawn (S (random_drawn w)) w)
    else if src_mode cfg =? largest_degree then
      (fst (Csr.GetNodeWithHighestDegree (Csr.load csr (heap w))), w)
    else if src_mode cfg =? manually then (src_node cfg, w)
    else (-1, w).
Proof.
  unfold pr_app.pr_source.
  repeat match goal with |- context [if ?b then _ else _] => destruct b end; reflexivity.
Qed.

Lemma bfs_source_drawn csr cfg w :
  exists n, snd (bfs_app.bfs_source csr cfg w) = drawn n w.
Proof.
  rewrite bfs_source_cases.
  repeat match goal with |- context [if ?b then _ else _] => destruct b end;
    simpl; eauto using eq_sym, drawn_same.
Qed.

Lemma pr_source_drawn csr cfg w :
  exists n, snd (pr_app.pr_source csr cfg w) = drawn n w.
Proof.
  rewrite pr_source_cases.
  repeat match goal with |- context [if ?b then _ else _] => destruct b end;
    simpl; eauto using eq_sym, drawn_same.
Qed.

Section Bfs.
Context {Problem Enactor : Type} {engine : BFSEngine Problem Enactor}.

Lemma dispatch_bfs_supported out gin cfg dt ctx w :
  bfs_supported dt ->
  bfs_app.dispatch_bfs out gin cfg dt ctx w =
  bfs_app.run_bfs (mark_pred cfg) (idempotence cfg) out (csr_of gin)
    (fst (bfs_app.bfs_source (csr_of gin) cfg w)) 0 1 (queue_size cfg) ctx
    (snd (bfs_app.bfs_source (csr_of gin) cfg w)).
Proof.
  intros (Hv & Hs & Hval).
  unfold bfs_app.dispatch_bfs. rewrite Hv, Hs, Hval, !Z.eqb_refl.
  fold (csr_of gin). unfold bind.
  destruct (bfs_app.bfs_source (csr_of gin) cfg w) as [s w1]. simpl.
  destruct (mark_pred cfg), (idempotence cfg);
    match goal with |- context [bfs_app.run_bfs ?a ?b ?c ?d ?e ?f ?g ?h ?i ?w] =>
      destruct (bfs_app.run_bfs a b c d e f g h i w) end; reflexivity.
Qed.

Lemma dispatch_bfs_unsupported out gin cfg dt ctx w :
  ~ bfs_supported dt ->
  bfs_app.dispatch_bfs out gin cfg dt ctx w =
  (out, add_events (if bfs_signalled dt then [unsupported_signal] else []) w).
Proof.
  intros Hn. unfold bfs_app.dispatch_bfs, bfs_signalled.
  destruct ValueType_ne as (H1 & H2 & H3).
  destruct (Z.eqb_spec (VTXID_TYPE dt) VTXID_INT) as [Hv|Hv];
    [|by rewrite add_events_nil].
  destruct (Z.eqb_spec (SIZET_TYPE dt) SIZET_INT) as [Hs|Hs];
    [|by rewrite add_events_nil].
  destruct (Z.eqb_spec (VALUE_TYPE dt) VALUE_INT) as [Hi|Hi];
    [exfalso; apply Hn; by repeat split|].
  simpl.
  destruct (Z.eqb_spec (VALUE_TYPE dt) VALUE_UINT) as [Hu|Hu]; [reflexivity|].
  destruct (Z.eqb_spec (VALUE_TYPE dt) VALUE_FLOAT) as [Hf|Hf]; [reflexivity|].
  simpl. by rewrite add_events_nil.
Qed.
End Bfs.

Section Pr.
Context {Problem Enactor : Type} {engine : PREngine Problem Enactor}.

Lemma dispatch_page_rank_supported out node_ids page_rank gin cfg dt ctx w :
  pr_supported dt ->
  pr_app.dispatch_page_rank out node_ids page_rank gin cfg dt ctx w =
  pr_app.run_page_rank out node_ids page_rank (csr_of gin)
    (fst (pr_app.pr_source (csr_of gin) cfg w)) (delta cfg) (error cfg) (max_iter cfg)
    0 1 ctx (snd (pr_app.pr_source (csr_of gin) cfg w)).
Proof.
  intros (Hv & Hs & Hval).
  destruct ValueType_ne as (H1 & H2 & H3).
  unfold pr_app.dispatch_page_rank. rewrite Hv, Hs, Hval, !Z.eqb_refl.
  destruct (Z.eqb_spec VALUE_FLOAT VALUE_INT) as [E|_]; [congruence|].
  destruct (Z.eqb_spec VALUE_FLOAT VALUE_UINT) as [E|_]; [congruence|].
  fold (csr_of gin). unfold bind.
  destruct (pr_app.pr_source (csr_of gin) cfg w) as [s w1]. simpl.
  match goal with |- context [pr_app.run_page_rank ?a ?b ?c ?d ?e ?f ?g ?h ?i ?j ?k ?w] =>
    destruct (pr_app.run_page_rank a b c d e f g h i j k w) as [[] ?] end.
  reflexivity.
Qed.

Lemma dispatch_page_rank_unsupported out node_ids page_rank gin cfg dt ctx w :
  ~ pr_supported dt ->
  pr_app.dispatch_page_rank out node_ids page_rank gin cfg dt ctx w =
  (tt, add_events (if pr_signalled dt then [unsupported_signal] else []) w).
Proof.
  intros Hn. unfold pr_app.dispatch_page_rank, pr_signalled.
  destruct (Z.eqb_spec (VTXID_TYPE dt) VTXID_INT) as [Hv|Hv];
    [|by rewrite add_events_nil].
  destruct (Z.eqb_spec (SIZET_TYPE dt) SIZET_INT) as [Hs|Hs];
    [|by rewrite add_events_nil].
  destruct (Z.eqb_spec (VALUE_TYPE dt) VALUE_INT) as [Hi|Hi]; [reflexivity|].
  destruct (Z.eqb_spec (VALUE_TYPE dt) VALUE_UINT) as [Hu|Hu]; [reflexivity|].
  destruct (Z.eqb_spec (VALUE_TYPE dt) VALUE_FLOAT) as [Hf|Hf];
    [exfalso; apply Hn; by repeat split|].
  simpl. by rewrite add_events_nil.
Qed.
End Pr.
End Dispatch.

(** ** Shape of the traces *)

Lemma engine_calls_app a b : engine_calls (a ++ b) = engine_calls a ++ engine_calls b.
Proof. apply List.filter_app. Qed.

Lemma engine_calls_gr_report e message : engine_calls (gr_report e message) = [].
Proof. unfold gr_report. by destruct (failed e). Qed.

Lemma engine_calls_printfs evs : forallb is_printf evs = true -> engine_calls evs = [].
Proof.
  induction evs as [|e evs IH]; [done|].
  simpl. intros [He Hevs]%andb_prop. destruct e; try discriminate.
  simpl. by apply IH.
Qed.

Lemma no_free_gr_report e message : forallb (fun e => negb (is_free e)) (gr_report e message) = true.
Proof. unfold gr_report. by destruct (failed e). Qed.

Lemma no_free_printfs evs :
  forallb is_printf evs = true -> forallb (fun e => negb (is_free e)) evs = true.
Proof.
  induction evs as [|e evs IH]; [done|].
  simpl. intros [He Hevs]%andb_prop. destruct e; try discriminate. by apply IH.
Qed.

Section BfsTrace.
Context {Problem Enactor : Type} {engine : BFSEngine Problem Enactor}.

Lemma lifecycle_bfs_run_events mp idem g src n w (c : BfsCalls Problem Enactor) :
  lifecycle (bfs_run_events mp idem g src n w c) = [OpInit; OpReset; OpEnact; OpExtract].
Proof.
  unfold bfs_run_events.
  rewrite !lifecycle_app, !lifecycle_gr_report.
  rewrite (lifecycle_printfs (bfs_DisplayStats_prints _ _ _ _ _ _ _ _ _))
    by apply bfs_DisplayStats_prints_printf.
  reflexivity.
Qed.

Lemma engine_calls_bfs_run_events mp idem g src n w (c : BfsCalls Problem Enactor) :
  engine_calls (bfs_run_events mp idem g src n w c) =
  [EvProblem mp idem (mp && idem); EvInit n (fst (after_init c));
   EvReset src (fst (after_reset c)); EvEnact src (fst (after_enact c));
   EvGetStatistics; EvExtract (label_block w (Csr.nodes g)) NULL (fst (extracted c));
   EvDeleteProblem].
Proof.
  unfold bfs_run_events.
  rewrite !engine_calls_app, !engine_calls_gr_report.
  rewrite (engine_calls_printfs (bfs_DisplayStats_prints _ _ _ _ _ _ _ _ _))
    by apply bfs_DisplayStats_prints_printf.
  reflexivity.
Qed.

Lemma no_free_bfs_run_events mp idem g src n w (c : BfsCalls Problem Enactor) :
  forallb (fun e => negb (is_free e)) (bfs_run_events mp idem g src n w c) = true.
Proof.
  unfold bfs_run_events.
  rewrite !forallb_app, !no_free_gr_report.
  rewrite (no_free_printfs (bfs_DisplayStats_prints _ _ _ _ _ _ _ _ _))
    by apply bfs_DisplayStats_prints_printf.
  reflexivity.
Qed.

Lemma run_bfs_new_events mp idem out g src mgs n q ctx w :
  new_events (bfs_app.run_bfs mp idem out g src mgs n q ctx) w =
  bfs_run_events mp idem g src n w
    (bfs_calls mp idem (Csr.load g (label_memory w (Csr.nodes g)))
       src mgs n q ctx (label_block w (Csr.nodes g)) NULL).
Proof.
  unfold new_events. rewrite run_bfs_run. simpl. by rewrite drop_app_length.
Qed.
End BfsTrace.

Section PrTrace.
Context {Problem Enactor : Type} {engine : PREngine Problem Enactor}.

Lemma lifecycle_pr_run_events source max_iter n page_rank node_ids w (c : PrCalls Problem Enactor) :
  lifecycle (pr_run_events source max_iter n page_rank node_ids w c) =
  [OpInit; OpReset; OpEnact; OpExtract].
Proof.
  unfold pr_run_events.
  rewrite !lifecycle_app, !lifecycle_gr_report. reflexivity.
Qed.

Lemma engine_calls_pr_run_events source max_iter n page_rank node_ids w (c : PrCalls Problem Enactor) :
  engine_calls (pr_run_events source max_iter n page_rank node_ids w c) =
  [EvInit n (fst (pr_after_init c)); EvReset source (fst (pr_after_reset c));
   EvEnact max_iter (fst (pr_after_enact c)); EvGetStatistics;
   EvExtract page_rank node_ids (fst (pr_extracted c)); EvDeleteProblem].
Proof.
  unfold pr_run_events.
  rewrite !engine_calls_app, !engine_calls_gr_report. reflexivity.
Qed.

Lemma no_free_pr_run_events source max_iter n page_rank node_ids w (c : PrCalls Problem Enactor) :
  forallb (fun e => negb (is_free e))
          (pr_run_events source max_iter n page_rank node_ids w c) = true.
Proof.
  unfold pr_run_events.
  rewrite !forallb_app, !no_free_gr_report. reflexivity.
Qed.

Lemma run_page_rank_new_events out node_ids page_rank g source delta error max_iter mgs n ctx w :
  new_events (pr_app.run_page_rank out node_ids page_rank g source delta error max_iter mgs n ctx) w =
  pr_run_events source max_iter n page_rank node_ids w
    (pr_calls (Csr.load g (heap w)) source delta error max_iter mgs n ctx page_rank node_ids).
Proof.
  unfold new_events. rewrite run_page_rank_run. simpl. by rewrite drop_app_length.
Qed.
End PrTrace.

Lemma In_engine_calls e evs :
  is_engine_call e = true -> In e evs <-> In e (engine_calls evs).
Proof.
  intros He. unfold engine_calls. rewrite List.filter_In. tauto.
Qed.

Lemma In_bfs_run_events_Reset {Problem Enactor : Type} mp idem g src n w
    (c : BfsCalls Problem Enactor) s st :
  In (EvReset s st) (bfs_run_events mp idem g src n w c) <->
  s = src /\ st = fst (after_reset c).
Proof.
  rewrite In_engine_calls, engine_calls_bfs_run_events by reflexivity.
  split.
  - intros H. repeat (destruct H as [H|H]; try discriminate H); [|destruct H].
    by injection H as <- <-.
  - intros [-> ->]. right. right. by left.
Qed.

Lemma In_bfs_run_events_Enact {Problem Enactor : Type} mp idem g src n w
    (c : BfsCalls Problem Enactor) s st :
  In (EvEnact s st) (bfs_run_events mp idem g src n w c) <->
  s = src /\ st = fst (after_enact c).
Proof.
  rewrite In_engine_calls, engine_calls_bfs_run_events by reflexivity.
  split.
  - intros H. repeat (destruct H as [H|H]; try discriminate H); [|destruct H].
    by injection H as <- <-.
  - intros [-> ->]. do 3 right. by left.
Qed.

Lemma In_pr_run_events_Reset {Problem Enactor : Type} source max_iter n page_rank node_ids w
    (c : PrCalls Problem Enactor) s st :
  In (EvReset s st) (pr_run_events source max_iter n page_rank node_ids w c) <->
  s = source /\ st = fst (pr_after_reset c).
Proof.
  rewrite In_engine_calls, engine_calls_pr_run_events by reflexivity.
  split.
  - intros H. repeat (destruct H as [H|H]; try discriminate H); [|destruct H].
    by injection H as <- <-.
  - intros [-> ->]. right. by left.
Qed.

(** ** The statistics of [bfs_app.DisplayStats] *)

Lemma wrap32_small z : is_int z -> wrap32 z = z.
Proof.
  unfold is_int, INT_MIN, INT_MAX, wrap32. intros Hz.
  rewrite Z.mod_small; lia.
Qed.

Lemma degree_sum_app ro a b : degree_sum ro (a ++ b) = degree_sum ro a + degree_sum ro b.
Proof. induction a as [|x a IH]; simpl; [done|]. rewrite IH. lia. Qed.

Lemma monotonic_offsets_le nodes ro i j :
  monotonic_offsets nodes ro -> 0 <= i <= j -> j <= nodes -> idx ro i <= idx ro j.
Proof.
  intros (_ & _ & Hm) [Hi Hij] Hj.
  assert (Hk : forall k : nat,
             i + Z.of_nat k <= nodes -> idx ro i <= idx ro (i + Z.of_nat k)).
  { induction k as [|k IH]; intros Hle.
    - replace (i + Z.of_nat 0) with i by lia. lia.
    - etrans; [apply IH; lia|].
      replace (i + Z.of_nat (S k)) with (i + Z.of_nat k + 1) by lia.
      apply Hm. lia. }
  replace j with (i + Z.of_nat (Z.to_nat (j - i))) by lia. apply Hk. lia.
Qed.

Lemma degree_sum_visited_bound nodes ro ls k :
  monotonic_offsets nodes ro -> Z.of_nat k <= nodes ->
  0 <= degree_sum ro (visited_vertices (Z.of_nat k) ls) <= idx ro (Z.of_nat k).
Proof.
  intros Hmono Hk. pose proof Hmono as (H0 & _ & Hm).
  unfold visited_vertices.
  induction k as [|k IH].
  - change (Z.of_nat 0) with 0. rewrite H0, seqZ_nil by lia. cbn. lia.
  - rewrite seqZ_S, List.filter_app, degree_sum_app.
    specialize (IH ltac:(lia)).
    assert (idx ro (Z.of_nat k) <= idx ro (Z.of_nat k + 1)) by (apply Hm; lia).
    replace (Z.of_nat (S k)) with (Z.of_nat k + 1) by lia.
    rewrite Z.add_0_l. cbn [List.filter].
    destruct (idx ls (Z.of_nat k) >? -1); cbn [degree_sum foldr]; lia.
Qed.

Lemma count_visited_exact nodes h_labels row_offsets :
  monotonic_offsets nodes row_offsets -> nodes <= INT_MAX ->
  bfs_app.count_visited nodes h_labels row_offsets =
  (Z.of_nat (length (visited_vertices nodes h_labels)),
   degree_sum row_offsets (visited_vertices nodes h_labels)).
Proof.
  intros Hmono Hn.
  destruct (Z.le_gt_cases nodes 0) as [Hle|Hpos].
  { unfold bfs_app.count_visited, visited_vertices. by rewrite seqZ_nil. }
  replace nodes with (Z.of_nat (Z.to_nat nodes)) in * by lia.
  generalize dependent (Z.to_nat nodes). clear nodes. intros k Hmono Hn _.
  assert (Hk : Z.of_nat k <= Z.of_nat k) by lia. revert Hk.
  generalize k at 1 3 4 5 as j.
  induction j as [|j IH]; intros Hj.
  - reflexivity.
  - unfold bfs_app.count_visited, visited_vertices in *.
    rewrite seqZ_S, fold_left_app, IH by lia. simpl.
    rewrite List.filter_app, length_app, degree_sum_app. simpl.
    replace (0 + Z.of_nat j) with (Z.of_nat j) by lia.
    unfold bfs_app.visit. simpl.
    pose proof (degree_sum_visited_bound _ _ h_labels j Hmono ltac:(lia)) as Hb.
    unfold visited_vertices in Hb.
    pose proof (monotonic_offsets_le _ _ (Z.of_nat j + 1) (Z.of_nat k) Hmono
                  ltac:(lia) ltac:(lia)) as Hup.
    pose proof (monotonic_offsets_le _ _ 0 (Z.of_nat j) Hmono ltac:(lia) ltac:(lia)) as Hlo.
    pose proof Hmono as (Hz & Hmax & Hm).
    specialize (Hm (Z.of_nat j) ltac:(lia)).
    pose proof (List.filter_length_le (fun i => idx h_labels i >? -1)
                  (seqZ 0 (Z.of_nat j))) as Hlen.
    rewrite length_seqZ in Hlen.
    destruct (idx h_labels (Z.of_nat j) >? -1); simpl.
    + unfold INT_MAX in *.
      rewrite (wrap32_small (idx _ _ - idx _ _)) by (unfold is_int, INT_MIN, INT_MAX; lia).
      rewrite !wrap32_small by (unfold is_int, INT_MIN, INT_MAX; lia).
      f_equal; lia.
    + f_equal; lia.
Qed.

(** ** Source selection *)

(** The vertex [GetNodeWithHighestDegree] returns has the highest
    out-degree, on a graph with at least one vertex and monotonic row
    offsets. *)
Lemma highest_degree_invariant (c : Csr.contents) (k : nat) :
  let best := fold_left (Csr.highest_step c) (seqZ 0 (Z.of_nat k)) (0, 0) in
  (forall u, 0 <= u < Z.of_nat k -> Csr.out_degree c u <= snd best) /\
  ((fst best = 0 /\ snd best = 0) \/
   (0 <= fst best < Z.of_nat k /\ snd best = Csr.out_degree c (fst best))).
Proof.
  induction k as [|k IH]; cbv zeta.
  - split; [intros u Hu; lia|by left].
  - rewrite seqZ_S, fold_left_app. cbv zeta in IH.
    destruct (fold_left _ (seqZ 0 (Z.of_nat k)) (0, 0)) as [v d].
    destruct IH as [Hmax Hbest]. cbn [fold_left fst snd] in *.
    rewrite Z.add_0_l. unfold Csr.highest_step. cbn [snd].
    destruct (Z.gtb_spec (Csr.out_degree c (Z.of_nat k)) d) as [Hgt|Hle]; cbn [fst snd].
    + split; [|right; split; [lia|done]].
      intros u Hu. destruct (decide (u = Z.of_nat k)) as [->|Hne]; [lia|].
      specialize (Hmax u ltac:(lia)). lia.
    + split.
      * intros u Hu. destruct (decide (u = Z.of_nat k)) as [->|Hne]; [lia|].
        apply Hmax. lia.
      * destruct Hbest as [?|[? ?]]; [by left|right; split; [lia|done]].
Qed.

Lemma GetNodeWithHighestDegree_highest (c : Csr.contents) :
  0 < Csr.c_nodes c ->
  monotonic_offsets (Csr.c_nodes c) (Csr.c_row_offsets c) ->
  let s := fst (Csr.GetNodeWithHighestDegree c) in
  0 <= s < Csr.c_nodes c /\
  forall u, 0 <= u < Csr.c_nodes c -> Csr.out_degree c u <= Csr.out_degree c s.
Proof.
  intros Hn (_ & _ & Hm). cbv zeta. unfold Csr.GetNodeWithHighestDegree.
  pose proof (highest_degree_invariant c (Z.to_nat (Csr.c_nodes c))) as Hinv.
  cbv zeta in Hinv. rewrite Z2Nat.id in Hinv by lia.
  destruct (fold_left _ _ (0, 0)) as [v d]. cbn [fst snd] in *.
  destruct Hinv as [Hmax [[-> ->]|[Hv ->]]]; [|by split].
  split; [lia|]. intros u Hu.
  assert (0 <= Csr.out_degree c 0).
  { unfold Csr.out_degree. specialize (Hm 0 ltac:(lia)). simpl in Hm. lia. }
  pose proof (Hmax 0 ltac:(lia)). specialize (Hmax u Hu). lia.
Qed.

(** [RandomNode] maps every window of [n] consecutive values of the
    random source onto the [n] vertices one to one: values uniform over
    such a window give vertices uniform over the graph. *)
Lemma RandomNode_equidistributed (n v k : Z) :
  0 < n -> 0 <= v < n ->
  exists! r, k * n <= r < (k + 1) * n /\ r mod n = v.
Proof.
  intros Hn Hv. exists (k * n + v). split.
  - split; [nia|]. rewrite Z.add_comm, Z_mod_plus_full. by apply Z.mod_small.
  - intros r [Hr Hmod].
    assert (Hsmall : (r - k * n) mod n = r - k * n) by (apply Z.mod_small; nia).
    replace (r - k * n) with (r + (- k) * n) in Hsmall at 1 by lia.
    rewrite Z_mod_plus_full in Hsmall. lia.
Qed.

Lemma RandomNode_in_range (n : Z) (w : World) :
  0 < n -> 0 <= fst (RandomNode n w) < n.
Proof. intros Hn. unfold RandomNode. cbn [fst]. by apply Z.mod_pos_bound. Qed.

(** ** The reference traversal labels only what it reaches *)
Module bfs_facts.
Import reference reference.bfs traversal.

Lemma in_range_spec g v : in_range g v = true <-> 0 <= v < Csr.c_nodes g.
Proof. unfold in_range. rewrite andb_true_iff, Z.leb_le, Z.ltb_lt. tauto. Qed.

Lemma Reset_invariant s kind q p p' :
  Reset s kind q p = (cudaSuccess, p') -> invariant (graph p) s p'.
Proof.
  unfold Reset. intros E.
  destruct (phase p); try discriminate;
    destruct (MARK_PREDECESSORS p && ENABLE_IDEMPOTENCE p); try discriminate;
    destruct (in_range (graph p) s) eqn:Hs; try discriminate;
    injection E as <-; apply in_range_spec in Hs;
    (split; cbn [graph label frontier output];
     [ reflexivity
     | by rewrite length_insert, length_replicate
     | intros i l Hl Hne;
       apply list_lookup_insert_Some in Hl as [(<- & <- & _)|[_ Hl]];
       [ rewrite Z2Nat.id by lia; constructor
       | apply lookup_replicate in Hl as [-> _]; done ]
     | intros u [<-|[]]; constructor
     | intros u [] ]).
Qed.

Lemma expand_edge_invariant g s u p v :
  invariant g s p -> reach g s u -> In v (neighbors g u) ->
  invariant g s (expand_edge u p v).
Proof.
  intros [Hg Hlen Hlab Hfr Hout] Hu Hv.
  assert (Hrv : reach g s v) by (econstructor; eassumption).
  unfold expand_edge, CondEdge.
  destruct (ENABLE_IDEMPOTENCE p).
  - destruct (in_range (graph p) v && negb (nth (Z.to_nat v) (visitedBit p) true)) eqn:Hc.
    + apply andb_prop in Hc as [Hin _]. rewrite Hg in Hin. apply in_range_spec in Hin.
      split; cbn [graph label frontier output push ApplyEdge with_arrays]; try done.
      * by rewrite length_insert.
      * intros i l Hl Hne.
        apply list_lookup_insert_Some in Hl as [(<- & _ & _)|[_ Hl]]; [|eauto].
        by rewrite Z2Nat.id by lia.
      * intros w. rewrite in_app_iff. intros [?|[<-|[]]]; auto.
    + by split.
  - destruct (in_range (graph p) v && (idx (label p) v =? sentinel)) eqn:Hc.
    + apply andb_prop in Hc as [Hin _]. rewrite Hg in Hin. apply in_range_spec in Hin.
      split; cbn [graph label frontier output push ApplyEdge with_arrays]; try done.
      * by rewrite length_insert.
      * intros i l Hl Hne.
        apply list_lookup_insert_Some in Hl as [(<- & _ & _)|[_ Hl]]; [|eauto].
        by rewrite Z2Nat.id by lia.
      * intros w. rewrite in_app_iff. intros [?|[<-|[]]]; auto.
    + by split.
Qed.

Lemma expand_edges_invariant g s u vs p :
  invariant g s p -> reach g s u -> (forall v, In v vs -> In v (neighbors g u)) ->
  invariant g s (fold_left (expand_edge u) vs p).
Proof.
  revert p. induction vs as [|v vs IH]; intros p Hinv Hu Hvs; [done|].
  cbn [fold_left]. apply IH; [|done|intros; apply Hvs; by right].
  apply expand_edge_invariant; [done..|]. apply Hvs. by left.
Qed.

Lemma expand_vertex_invariant g s p u :
  invariant g s p -> reach g s u -> invariant g s (expand_vertex p u).
Proof.
  intros Hinv Hu. unfold expand_vertex.
  apply expand_edges_invariant; [done..|].
  by rewrite (inv_graph _ _ _ Hinv).
Qed.

Lemma expand_vertices_invariant g s us p :
  invariant g s p -> (forall u, In u us -> reach g s u) ->
  invariant g s (fold_left expand_vertex us p).
Proof.
  revert p. induction us as [|u us IH]; intros p Hinv Hus; [done|].
  cbn [fold_left]. apply IH; [|intros; apply Hus; by right].
  apply expand_vertex_invariant; [done|]. apply Hus. by left.
Qed.

Lemma Advance_invariant g s p : invariant g s p -> invariant g s (Advance p).
Proof.
  intros Hinv. unfold Advance.
  apply expand_vertices_invariant; [|apply Hinv].
  destruct Hinv. by split.
Qed.

Lemma Filter_invariant g s p depth : invariant g s p -> invariant g s (Filter p depth).
Proof.
  intros [Hg Hlen Hlab Hfr Hout]. unfold Filter.
  split; cbn [graph label frontier output with_queues]; try done.
  intros u Hu. apply Hout.
  destruct (ENABLE_IDEMPOTENCE p).
  - apply list_elem_of_In, elem_of_remove_dups, list_elem_of_filter in Hu as [_ Hu].
    by apply list_elem_of_In.
  - apply list_elem_of_In, list_elem_of_filter in Hu as [_ Hu]. by apply list_elem_of_In.
Qed.

Lemma iterate_invariant g s fuel depth queued p :
  invariant g s p -> invariant g s (snd (iterate fuel depth queued p)).
Proof.
  revert depth queued p. induction fuel as [|fuel IH]; intros depth queued p Hinv; [done|].
  cbn [iterate]. destruct (frontier p) eqn:Hf; [done|]. rewrite <- Hf.
  pose proof (Advance_invariant _ _ _ Hinv) as Ha.
  destruct (_ >? capacity (Advance p)); [done|].
  pose proof (Filter_invariant _ _ _ depth Ha) as Hfi.
  destruct (_ >? capacity (Filter (Advance p) depth)); [done|].
  by apply IH.
Qed.

Lemma Enact_invariant g s ctx src mgs e p :
  invariant g s p -> invariant g s (snd (snd (Enact ctx src mgs e p))).
Proof.
  intros Hinv. unfold Enact. destruct (phase p); try done.
  pose proof (iterate_invariant g s (S (Z.to_nat (Csr.c_nodes (graph p)))) 0 0 p Hinv) as Hit.
  destruct (iterate _ 0 0 p) as [[o [queued depth]] p']. cbn [snd] in Hit.
  destruct Hit. by destruct o; split.
Qed.

(** After [Reset] for source [s] and [Enact], a vertex that cannot be
    reached from [s] still carries the sentinel. *)
Lemma unreached_sentinel s kind q ctx src mgs e p p1 :
  Reset s kind q p = (cudaSuccess, p1) ->
  let p2 := snd (snd (Enact ctx src mgs e p1)) in
  length (label p2) = Z.to_nat (Csr.c_nodes (graph p)) /\
  forall v, 0 <= v < Csr.c_nodes (graph p) -> ~ reach (graph p) s v ->
            idx (label p2) v = sentinel.
Proof.
  intros HR p2. apply Reset_invariant in HR.
  pose proof (Enact_invariant _ _ ctx src mgs e _ HR) as [Hg Hlen Hlab _ _].
  fold p2 in Hlen, Hlab. split; [done|].
  intros v Hv Hnr. unfold idx.
  destruct (Z.ltb_spec v 0) as [|_]; [lia|].
  destruct (label p2 !! Z.to_nat v) as [l|] eqn:Hl.
  - rewrite (nth_lookup_Some _ _ _ _ Hl).
    destruct (decide (l = sentinel)) as [|Hne]; [done|].
    exfalso. apply Hnr. specialize (Hlab _ _ Hl Hne). by rewrite Z2Nat.id in Hlab by lia.
  - apply lookup_ge_None in Hl. lia.
Qed.
End bfs_facts.

(** ** What the entry points add to the trace and leave on the heap *)

Lemma new_events_drawn {A} (c : M A) w n evs a h :
  c (drawn n w) = (a, with_heap h (add_events evs (drawn n w))) ->
  trace (snd (c (drawn n w))) = trace w ++ evs.
Proof. intros ->. reflexivity. Qed.

Lemma overwrite_same_length {A} (xs old : list A) :
  length xs = length old -> overwrite xs old = xs.
Proof.
  intros Hl. unfold overwrite. rewrite Hl, drop_all, app_nil_r.
  apply take_ge. lia.
Qed.

Lemma length_overwrite {A} (xs old : list A) : length (overwrite xs old) = length old.
Proof.
  unfold overwrite. rewrite length_take, length_app, length_drop. lia.
Qed.

Lemma put_ints_lookup_ne p q xs h : p <> q -> put_ints q xs h !! p = h !! p.
Proof.
  intros Hne. unfold put_ints.
  destruct (q =? NULL); [done|].
  destruct (h !! q) as [[old|old]|]; [|done..].
  by rewrite lookup_insert_ne.
Qed.

Lemma put_floats_lookup_ne p q xs h : p <> q -> put_floats q xs h !! p = h !! p.
Proof.
  intros Hne. unfold put_floats.
  destruct (q =? NULL); [done|].
  destruct (h !! q) as [[old|old]|]; [done| |done].
  by rewrite lookup_insert_ne.
Qed.

Section EntryPoints.
Context `{enums : GunrockEnums}.

Section Bfs.
Context {Problem Enactor : Type} {engine : BFSEngine Problem Enactor}.

Lemma dispatch_bfs_run out gin cfg dt ctx w :
  bfs_supported dt ->
  exists n,
    bfs_app.dispatch_bfs out gin cfg dt ctx w =
    (set_node_values out (label_block w (num_nodes gin)),
     with_heap (bfs_final_heap w (num_nodes gin) (bfs_dispatch_calls gin cfg ctx w))
       (add_events
          (bfs_run_events (mark_pred cfg) (idempotence cfg) (csr_of gin)
             (fst (bfs_app.bfs_source (csr_of gin) cfg w)) 1 w
             (bfs_dispatch_calls gin cfg ctx w))
          (drawn n w))).
Proof.
  intros Hs. rewrite dispatch_bfs_supported by done.
  destruct (bfs_source_drawn (csr_of gin) cfg w) as [n Hn].
  exists n. rewrite Hn, run_bfs_run. reflexivity.
Qed.

Lemma dispatch_bfs_new_events out gin cfg dt ctx w :
  bfs_supported dt ->
  new_events (bfs_app.dispatch_bfs out gin cfg dt ctx) w =
  bfs_run_events (mark_pred cfg) (idempotence cfg) (csr_of gin)
    (fst (bfs_app.bfs_source (csr_of gin) cfg w)) 1 w (bfs_dispatch_calls gin cfg ctx w).
Proof.
  intros Hs. destruct (dispatch_bfs_run out gin cfg dt ctx w Hs) as [n Hn].
  unfold new_events. rewrite Hn. cbn [snd]. rewrite trace_with_heap, trace_add_events.
  change (trace (drawn n w)) with (trace w). by rewrite drop_app_length.
Qed.

Lemma dispatch_bfs_heap out gin cfg dt ctx w :
  bfs_supported dt ->
  heap (snd (bfs_app.dispatch_bfs out gin cfg dt ctx w)) =
  bfs_final_heap w (num_nodes gin) (bfs_dispatch_calls gin cfg ctx w).
Proof.
  intros Hs. destruct (dispatch_bfs_run out gin cfg dt ctx w Hs) as [n Hn].
  by rewrite Hn.
Qed.

End Bfs.

Section Pr.
Context {Problem Enactor : Type} {engine : PREngine Problem Enactor}.

Lemma dispatch_page_rank_run out node_ids page_rank gin cfg dt ctx w :
  pr_supported dt ->
  exists n,
    pr_app.dispatch_page_rank out node_ids page_rank gin cfg dt ctx w =
    (tt,
     with_heap (pr_final_heap w page_rank node_ids
                  (pr_dispatch_calls gin cfg ctx page_rank node_ids w))
       (add_events
          (pr_run_events (fst (pr_app.pr_source (csr_of gin) cfg w)) (max_iter cfg) 1
             page_rank node_ids w (pr_dispatch_calls gin cfg ctx page_rank node_ids w))
          (drawn n w))).
Proof.
  intros Hs. rewrite dispatch_page_rank_supported by done.
  destruct (pr_source_drawn (csr_of gin) cfg w) as [n Hn].
  exists n. rewrite Hn, run_page_rank_run. reflexivity.
Qed.

Lemma dispatch_page_rank_new_events out node_ids page_rank gin cfg dt ctx w :
  pr_supported dt ->
  new_events (pr_app.dispatch_page_rank out node_ids page_rank gin cfg dt ctx) w =
  pr_run_events (fst (pr_app.pr_source (csr_of gin) cfg w)) (max_iter cfg) 1
    page_rank node_ids w (pr_dispatch_calls gin cfg ctx page_rank node_ids w).
Proof.
  intros Hs.
  destruct (dispatch_page_rank_run out node_ids page_rank gin cfg dt ctx w Hs) as [n Hn].
  unfold new_events. rewrite Hn. cbn [snd]. rewrite trace_with_heap, trace_add_events.
  change (trace (drawn n w)) with (trace w). by rewrite drop_app_length.
Qed.

Lemma dispatch_page_rank_heap out node_ids page_rank gin cfg dt ctx w :
  pr_supported dt ->
  heap (snd (pr_app.dispatch_page_rank out node_ids page_rank gin cfg dt ctx w)) =
  pr_final_heap w page_rank node_ids (pr_dispatch_calls gin cfg ctx page_rank node_ids w).
Proof.
  intros Hs.
  destruct (dispatch_page_rank_run out node_ids page_rank gin cfg dt ctx w Hs) as [n Hn].
  by rewrite Hn.
Qed.

End Pr.
End EntryPoints.

(** ** The contract of the reference engine *)
Module bfs_contract.
Import reference reference.bfs traversal.

Section Machine.
Variables (devs mem : Z).

Lemma bfs_Extract_not_ready outLabels outPredecessors p :
  phase p <> Completed -> Extract outLabels outPredecessors p = (NotReady, ([], [])).
Proof. unfold Extract. by destruct (phase p). Qed.

Lemma bfs_Extract_completed outLabels p :
  phase p = Completed -> Extract outLabels NULL p = (cudaSuccess, (label p, [])).
Proof. unfold Extract. by intros ->. Qed.

Lemma bfs_Init_phase b g n p :
  phase (snd (Init devs mem b g n p)) = Completed -> phase p = Completed.
Proof.
  unfold Init. destruct (n >? devs); [done|].
  destruct (_ >? mem); [done|]. discriminate.
Qed.

Lemma bfs_Reset_phase s kind q p :
  phase (snd (Reset s kind q p)) = Completed -> phase p = Completed.
Proof.
  unfold Reset.
  destruct (phase p) eqn:Hp; try done;
    destruct (MARK_PREDECESSORS p && ENABLE_IDEMPOTENCE p); cbn [snd]; try congruence;
    destruct (negb (in_range (graph p) s)); cbn [snd phase]; congruence.
Qed.

Lemma bfs_Init_success b g n p p' :
  Init devs mem b g n p = (cudaSuccess, p') ->
  graph p' = g /\ phase p' = Initialised /\
  MARK_PREDECESSORS p' = MARK_PREDECESSORS p /\
  ENABLE_IDEMPOTENCE p' = ENABLE_IDEMPOTENCE p.
Proof.
  unfold Init. destruct (n >? devs); [discriminate|].
  destruct (_ >? mem); [discriminate|]. by intros [= <-].
Qed.

Lemma bfs_Init_failure b g n p e :
  fst (Init devs mem b g n p) = e -> e <> cudaSuccess -> snd (Init devs mem b g n p) = p.
Proof.
  unfold Init. destruct (n >? devs); [done|].
  destruct (_ >? mem); [done|]. cbn [fst]. congruence.
Qed.

Lemma bfs_Reset_invalid_source s kind q p :
  phase p <> Created -> MARK_PREDECESSORS p && ENABLE_IDEMPOTENCE p = false ->
  ~ 0 <= s < Csr.c_nodes (graph p) ->
  Reset s kind q p = (InvalidSource, p).
Proof.
  intros Hp Hf Hs. unfold Reset. rewrite Hf.
  assert (in_range (graph p) s = false) as ->.
  { apply not_true_is_false. by rewrite bfs_facts.in_range_spec. }
  by destruct (phase p).
Qed.

Lemma bfs_Reset_failure s kind q p :
  fst (Reset s kind q p) <> cudaSuccess -> snd (Reset s kind q p) = p.
Proof.
  unfold Reset.
  destruct (phase p); try done;
    destruct (MARK_PREDECESSORS p && ENABLE_IDEMPOTENCE p); try done;
    destruct (negb (in_range (graph p) s)); done.
Qed.

Lemma bfs_Enact_not_seeded ctx src mgs e p :
  phase p <> Seeded ->
  fst (Enact ctx src mgs e p) = NotReady /\ snd (snd (Enact ctx src mgs e p)) = p.
Proof. unfold Enact. by destruct (phase p). Qed.

Lemma bfs_Reset_success_phase s kind q p p' :
  Reset s kind q p = (cudaSuccess, p') -> phase p <> Created /\ phase p' = Seeded.
Proof.
  unfold Reset.
  destruct (phase p); try discriminate;
    destruct (MARK_PREDECESSORS p && ENABLE_IDEMPOTENCE p); try discriminate;
    destruct (negb (in_range (graph p) s)); try discriminate;
    by intros [= <-].
Qed.

(** A run whose [Extract] succeeds went through a successful [Init] and
    [Reset], and its labels are those of the traversal. *)
Lemma completed_run mp idem g src mgs n q ctx hl :
  let c := bfs_calls (engine := engine devs mem) mp idem g src mgs n q ctx hl NULL in
  fst (extracted c) = cudaSuccess ->
  length (fst (snd (extracted c))) = Z.to_nat (Csr.c_nodes g) /\
  forall v, 0 <= v < Csr.c_nodes g -> ~ reach g src v ->
            idx (fst (snd (extracted c))) v = sentinel.
Proof.
  intros c. subst c. unfold bfs_calls.
  cbn [extracted bfs_Extract bfs_Enact bfs_Reset bfs_Init bfs_new_problem
       bfs_new_enactor bfs_GetFrontierType engine].
  set (e0 := new_enactor false false).
  set (k := GetFrontierType e0).
  set (p0 := new_problem mp idem (mp && idem)).
  set (r1 := Init devs mem false g n p0).
  set (r2 := Reset src k q (snd r1)).
  set (r3 := Enact ctx src mgs e0 (snd r2)).
  intros Hx.
  assert (Hc : phase (snd (snd r3)) = Completed).
  { destruct (decide (phase (snd (snd r3)) = Completed)) as [|Hn]; [done|].
    rewrite bfs_Extract_not_ready in Hx by done. discriminate. }
  rewrite bfs_Extract_completed by done. cbn [fst snd].
  assert (Hseeded : phase (snd r2) = Seeded).
  { destruct (decide (phase (snd r2) = Seeded)) as [|Hn]; [done|].
    destruct (bfs_Enact_not_seeded ctx src mgs e0 (snd r2) Hn) as [_ Heq].
    fold r3 in Heq. rewrite Heq in Hc. apply bfs_Reset_phase, bfs_Init_phase in Hc. discriminate. }
  assert (Hreset : fst r2 = cudaSuccess).
  { destruct (decide (fst r2 = cudaSuccess)) as [|Hn]; [done|].
    exfalso. pose proof (bfs_Reset_failure src k q (snd r1) Hn) as Hp. fold r2 in Hp.
    rewrite Hp in Hseeded.
    destruct (decide (fst r1 = cudaSuccess)) as [Hi|Hi].
    - destruct r1 as [e1 p1] eqn:Er1. cbn [fst snd] in *. subst e1.
      apply bfs_Init_success in Er1 as (_ & Hph & _). congruence.
    - pose proof (bfs_Init_failure false g n p0 (fst r1) eq_refl Hi) as Hp1.
      change (snd r1 = p0) in Hp1. rewrite Hp1 in Hseeded. discriminate. }
  assert (HR : Reset src k q (snd r1) = (cudaSuccess, snd r2)).
  { fold r2. destruct r2 as [e p']. cbn [fst snd] in *. by subst e. }
  assert (Hg : graph (snd r1) = g).
  { apply bfs_Reset_success_phase in HR as [Hcreated _].
    destruct (decide (fst r1 = cudaSuccess)) as [Hi|Hi].
    - destruct r1 as [e1 p1] eqn:Er1. cbn [fst snd] in *. subst e1.
      by apply bfs_Init_success in Er1 as (? & _).
    - exfalso. apply Hcreated.
      pose proof (bfs_Init_failure false g n p0 (fst r1) eq_refl Hi) as Hp1.
      change (snd r1 = p0) in Hp1. by rewrite Hp1. }
  pose proof (bfs_facts.unreached_sentinel src k q ctx src mgs e0 (snd r1) (snd r2) HR) as Hu.
  cbv zeta in Hu. fold r3 in Hu. by rewrite Hg in Hu.
Qed.

(** In a run, [Extract] succeeds when [Enact] did, and produces
    [NotReady] without copying anything when [Enact] did not. *)
Lemma bfs_run_extract mp idem g src mgs n q ctx hl hp :
  let c := bfs_calls (engine := engine devs mem) mp idem g src mgs n q ctx hl hp in
  (fst (after_enact c) = cudaSuccess -> fst (extracted c) = cudaSuccess) /\
  (fst (after_enact c) <> cudaSuccess -> extracted c = (NotReady, ([], []))).
Proof.
  intros c. subst c. unfold bfs_calls.
  cbn [extracted after_enact bfs_Extract bfs_Enact bfs_Reset bfs_Init bfs_new_problem
       bfs_new_enactor bfs_GetFrontierType engine].
  set (e0 := new_enactor false false).
  set (p2 := snd (Reset src (GetFrontierType e0) q
                    (snd (Init devs mem false g n (new_problem mp idem (mp && idem)))))).
  assert (Hp2 : phase p2 <> Completed).
  { intros E. apply bfs_Reset_phase, bfs_Init_phase in E. discriminate. }
  unfold Enact.
  destruct (phase p2) eqn:Hph; try (split; [discriminate|intros _; cbn [snd];
    apply bfs_Extract_not_ready; congruence]).
  destruct (iterate _ 0 0 p2) as [[o [queued depth]] p'].
  destruct o; cbn [fst snd]; split; try done; try (intros _; reflexivity).
Qed.

End Machine.
End bfs_contract.

Module pr_contract.
Import reference reference.pr.

Section Machine.
Variables (devs mem : Z).

Lemma pr_Extract_not_ready page_rank node_ids p :
  phase p <> Completed -> Extract page_rank node_ids p = (NotReady, ([], [])).
Proof. unfold Extract. by destruct (phase p). Qed.

Lemma pr_Init_phase b g n p :
  phase (snd (Init devs mem b g n p)) = Completed -> phase p = Completed.
Proof.
  unfold Init. destruct (n >? devs); [done|].
  destruct (_ >? mem); [done|]. discriminate.
Qed.

Lemma pr_Reset_phase s delta error kind p :
  phase (snd (Reset s delta error kind p)) = Completed -> phase p = Completed.
Proof.
  unfold Reset.
  destruct (phase p) eqn:Hp; try done;
    destruct (negb (in_range (graph p) s || (s =? -1))); cbn [snd phase]; congruence.
Qed.

Lemma pr_Reset_invalid_source s delta error kind p :
  phase p <> Created -> ~ 0 <= s < Csr.c_nodes (graph p) -> s <> -1 ->
  Reset s delta error kind p = (InvalidSource, p).
Proof.
  intros Hp Hs Hm. unfold Reset.
  assert (in_range (graph p) s = false) as ->.
  { apply not_true_is_false. by rewrite bfs_facts.in_range_spec. }
  assert ((s =? -1) = false) as -> by by apply Z.eqb_neq.
  by destruct (phase p).
Qed.

(** In a run, [Extract] succeeds when [Enact] did, and produces
    [NotReady] without copying anything when [Enact] did not. *)
Lemma pr_run_extract g source delta error max_iter mgs n ctx page_rank node_ids :
  let c := pr_calls (engine := engine devs mem) g source delta error max_iter mgs n ctx
             page_rank node_ids in
  (fst (pr_after_enact c) = cudaSuccess -> fst (pr_extracted c) = cudaSuccess) /\
  (fst (pr_after_enact c) <> cudaSuccess -> pr_extracted c = (NotReady, ([], []))).
Proof.
  intros c. subst c. unfold pr_calls.
  cbn [pr_extracted pr_after_enact pr_Extract pr_Enact pr_Reset pr_Init pr_new_problem
       pr_new_enactor pr_GetFrontierType engine].
  set (e0 := new_enactor false false).
  set (p2 := snd (Reset source delta error (GetFrontierType e0)
                    (snd (Init devs mem false g n new_problem)))).
  assert (Hp2 : phase p2 <> Completed).
  { intros E. apply pr_Reset_phase, pr_Init_phase in E. discriminate. }
  unfold Enact.
  destruct (phase p2) eqn:Hph; try (split; [discriminate|intros _; cbn [snd];
    apply pr_Extract_not_ready; congruence]).
  destruct (iterate _ 0 0 p2) as [[o [queued iter]] p'].
  cbn [fst snd]. split; [intros _; reflexivity|done].
Qed.

End Machine.
End pr_contract.

(** * The claims *)

(** ** C1: duplicate suppression together with predecessor tracking *)

(** C1, refuted as stated: on the example graph, with both [mark_pred] and
    [idempotence] set, the entry point instantiates the problem with both
    flags and goes through every call of the run; the reference engine's
    refusal at Reset is reported and dropped. *)
Lemma C1_both_flags_not_rejected :
  let cfg := example.config 0 0 true true in
  mark_pred cfg = true /\ idempotence cfg = true /\
  engine_calls
    (new_events
       (bfs_app.gunrock_bfs_func (enums := example.enumerators) (engine := example.bfs)
          example.graph example.graph cfg example.int_types)
       example.world) =
  [EvProblem true true true; EvInit 1 cudaSuccess; EvReset 0 IncompatibleFeatures;
   EvEnact 0 NotReady; EvGetStatistics; EvExtract 401 NULL NotReady; EvDeleteProblem].
Proof.
  cbv zeta. split; [reflexivity|split; [reflexivity|]].
  vm_compute. reflexivity.
Qed.

(** C1, as the code has it: for the supported data types, a configuration
    that sets both [mark_pred] and [idempotence] is not rejected by the
    entry point.  [gunrock_bfs_func] starts
    [run_bfs<int, int, int, true, true>] from the selected source; the
    problem is instantiated with the two flags and their conjunction, and
    Init, Reset, Enact, GetStatistics and Extract are called in turn,
    whatever status the engine returns. *)
Theorem C1_both_flags_run {enums : GunrockEnums} {Problem Enactor : Type}
    {engine : BFSEngine Problem Enactor}
    (out gin : GunrockGraph) (cfg : GunrockConfig) (dt : GunrockDataType) (w : World) :
  bfs_supported dt -> mark_pred cfg = true -> idempotence cfg = true ->
  let source := bfs_app.bfs_source (csr_of gin) cfg w in
  let c := bfs_dispatch_calls gin cfg (CreateCudaDevice (device cfg)) w in
  bfs_app.gunrock_bfs_func out gin cfg dt w =
    bfs_app.run_bfs true true out (csr_of gin) (fst source) 0 1 (queue_size cfg)
      (CreateCudaDevice (device cfg)) (snd source)
  /\ engine_calls (new_events (bfs_app.gunrock_bfs_func out gin cfg dt) w) =
     [EvProblem true true true; EvInit 1 (fst (after_init c));
      EvReset (fst source) (fst (after_reset c));
      EvEnact (fst source) (fst (after_enact c));
      EvGetStatistics; EvExtract (label_block w (num_nodes gin)) NULL (fst (extracted c));
      EvDeleteProblem].
Proof.
  intros Hs Hm Hi source c. unfold bfs_app.gunrock_bfs_func. split.
  - rewrite dispatch_bfs_supported by done. by rewrite Hm, Hi.
  - rewrite dispatch_bfs_new_events, engine_calls_bfs_run_events by done.
    by rewrite Hm, Hi.
Qed.

Lemma C1_both_flags_run_witness :
  let cfg := example.config 0 0 true true in
  bfs_supported (enums := example.enumerators) example.int_types /\
  mark_pred cfg = true /\ idempotence cfg = true /\
  bfs_app.gunrock_bfs_func (enums := example.enumerators) (engine := example.bfs)
    example.graph example.graph cfg example.int_types example.world =
  bfs_app.run_bfs (engine := example.bfs) true true example.graph (csr_of example.graph)
    0 0 1 1%float 0 example.world.
Proof.
  cbv zeta.
  assert (Hs : bfs_supported (enums := example.enumerators) example.int_types)
    by (repeat split).
  split; [exact Hs|split; [reflexivity|split; [reflexivity|]]].
  exact (proj1 (C1_both_flags_run (enums := example.enumerators) (engine := example.bfs)
                  example.graph example.graph (example.config 0 0 true true)
                  example.int_types example.world Hs eq_refl eq_refl)).
Defined.

(** ** C3: unsupported data types *)

(** C3: for every combination of the named data types other than the
    supported one, an entry point prints "Not Yet Support This DataType
    Combination." and does nothing else: it makes no call on the engine,
    returns its output argument as it was and leaves the world, host
    memory included, as it was apart from the message. *)
Theorem C3_unsupported_types {enums : GunrockEnums} {BP BE PP PE : Type}
    {bfs : BFSEngine BP BE} {pr : PREngine PP PE}
    (out gin : GunrockGraph) (cfg : GunrockConfig) (dt : GunrockDataType)
    (node_ids page_rank : Z) (w : World) :
  named_types dt ->
  (~ bfs_supported dt ->
   bfs_app.gunrock_bfs_func out gin cfg dt w = (out, add_events [unsupported_signal] w) /\
   new_events (bfs_app.gunrock_bfs_func out gin cfg dt) w = [unsupported_signal] /\
   engine_calls (new_events (bfs_app.gunrock_bfs_func out gin cfg dt) w) = [])
  /\
  (~ pr_supported dt ->
   pr_app.gunrock_pr_func out node_ids page_rank gin cfg dt w =
     (tt, add_events [unsupported_signal] w) /\
   new_events (pr_app.gunrock_pr_func out node_ids page_rank gin cfg dt) w =
     [unsupported_signal] /\
   engine_calls (new_events (pr_app.gunrock_pr_func out node_ids page_rank gin cfg dt) w)
     = []).
Proof.
  intros (Hv & Hz & Hval).
  destruct ValueType_ne as (Hiu & Hif & Huf).
  split; intros Hn.
  - assert (Hsig : bfs_signalled dt = true).
    { unfold bfs_signalled. rewrite Hv, Hz, !Z.eqb_refl.
      destruct Hval as [Hval|[Hval|Hval]].
      - exfalso. by apply Hn.
      - by rewrite Hval, Z.eqb_refl.
      - rewrite Hval, Z.eqb_refl. by rewrite orb_true_r. }
    unfold bfs_app.gunrock_bfs_func, new_events.
    rewrite dispatch_bfs_unsupported by done. rewrite Hsig. cbn [snd].
    by rewrite trace_add_events, drop_app_length.
  - assert (Hsig : pr_signalled dt = true).
    { unfold pr_signalled. rewrite Hv, Hz, !Z.eqb_refl.
      destruct Hval as [Hval|[Hval|Hval]].
      - by rewrite Hval, Z.eqb_refl.
      - rewrite Hval, Z.eqb_refl. by rewrite orb_true_r.
      - exfalso. by apply Hn. }
    unfold pr_app.gunrock_pr_func, new_events.
    rewrite dispatch_page_rank_unsupported by done. rewrite Hsig. cbn [snd].
    by rewrite trace_add_events, drop_app_length.
Qed.

Lemma C3_unsupported_types_witness :
  let dt := example.float_types in
  let cfg := example.config 0 0 false false in
  named_types (enums := example.enumerators) dt /\
  ~ bfs_supported (enums := example.enumerators) dt /\
  new_events
    (bfs_app.gunrock_bfs_func (enums := example.enumerators) (engine := example.bfs)
       example.graph example.graph cfg dt) example.world = [unsupported_signal].
Proof.
  cbv zeta.
  assert (Ht : named_types (enums := example.enumerators) example.float_types).
  { split; [reflexivity|split; [reflexivity|]]. right. right. reflexivity. }
  assert (Hn : ~ bfs_supported (enums := example.enumerators) example.float_types).
  { intros (_ & _ & H). discriminate H. }
  split; [exact Ht|split; [exact Hn|]].
  exact (proj1 (proj2
           (proj1 (C3_unsupported_types (enums := example.enumerators)
                     (bfs := example.bfs) (pr := example.pr)
                     example.graph example.graph (example.config 0 0 false false)
                     example.float_types 400 300 example.world Ht) Hn))).
Defined.

(** ** C9: a source mode that is none of the three *)

(** C9: when [src_mode] is none of [randomize], [largest_degree] and
    [manually], the entry points (for their supported data types) report
    nothing and run from a default source: [gunrock_bfs_func] is
    [run_bfs] from vertex 0, [gunrock_pr_func] is [run_page_rank] with
    source -1, and Reset is called with that source. *)
Theorem C9_default_source {enums : GunrockEnums} {BP BE PP PE : Type}
    {bfs : BFSEngine BP BE} {pr : PREngine PP PE}
    (out gin : GunrockGraph) (cfg : GunrockConfig) (dt : GunrockDataType)
    (node_ids page_rank : Z) (w : World) :
  ~ recognized (src_mode cfg) ->
  (bfs_supported dt ->
   bfs_app.gunrock_bfs_func out gin cfg dt w =
     bfs_app.run_bfs (mark_pred cfg) (idempotence cfg) out (csr_of gin) 0 0 1
       (queue_size cfg) (CreateCudaDevice (device cfg)) w
   /\ exists r, In (EvReset 0 r) (new_events (bfs_app.gunrock_bfs_func out gin cfg dt) w))
  /\
  (pr_supported dt ->
   pr_app.gunrock_pr_func out node_ids page_rank gin cfg dt w =
     pr_app.run_page_rank out node_ids page_rank (csr_of gin) (-1) (delta cfg) (error cfg)
       (max_iter cfg) 0 1 (CreateCudaDevice (device cfg)) w
   /\ exists r,
        In (EvReset (-1) r)
           (new_events (pr_app.gunrock_pr_func out node_ids page_rank gin cfg dt) w)).
Proof.
  intros Hmode.
  assert (Hr : (src_mode cfg =? randomize) = false)
    by (apply Z.eqb_neq; intros E; apply Hmode; by left).
  assert (Hl : (src_mode cfg =? largest_degree) = false)
    by (apply Z.eqb_neq; intros E; apply Hmode; right; by left).
  assert (Hm : (src_mode cfg =? manually) = false)
    by (apply Z.eqb_neq; intros E; apply Hmode; right; by right).
  split; intros Hs.
  - assert (Hsrc : bfs_app.bfs_source (csr_of gin) cfg w = (0, w))
      by (by rewrite bfs_source_cases, Hr, Hl, Hm).
    unfold bfs_app.gunrock_bfs_func. split.
    + rewrite dispatch_bfs_supported by done. by rewrite Hsrc.
    + rewrite dispatch_bfs_new_events by done. rewrite Hsrc. cbn [fst].
      eexists. unfold bfs_run_events.
      apply in_or_app; right. apply in_or_app; right. apply in_or_app; left.
      left. reflexivity.
  - assert (Hsrc : pr_app.pr_source (csr_of gin) cfg w = (-1, w))
      by (by rewrite pr_source_cases, Hr, Hl, Hm).
    unfold pr_app.gunrock_pr_func. split.
    + rewrite dispatch_page_rank_supported by done. by rewrite Hsrc.
    + rewrite dispatch_page_rank_new_events by done. rewrite Hsrc. cbn [fst].
      eexists. unfold pr_run_events.
      apply in_or_app; right. apply in_or_app; right. apply in_or_app; left.
      left. reflexivity.
Qed.

Lemma C9_default_source_witness :
  let cfg := example.config 7 3 false false in
  ~ recognized (enums := example.enumerators) (src_mode cfg) /\
  bfs_supported (enums := example.enumerators) example.int_types /\
  bfs_app.gunrock_bfs_func (enums := example.enumerators) (engine := example.bfs)
    example.graph example.graph cfg example.int_types example.world =
  bfs_app.run_bfs (engine := example.bfs) false false example.graph
    (csr_of example.graph) 0 0 1 1%float 0 example.world.
Proof.
  cbv zeta.
  assert (Hn : ~ recognized (enums := example.enumerators)
                 (src_mode (example.config 7 3 false false))).
  { intros [H|[H|H]]; discriminate H. }
  assert (Hs : bfs_supported (enums := example.enumerators) example.int_types)
    by (repeat split).
  split; [exact Hn|split; [exact Hs|]].
  exact (proj1 (proj1 (C9_default_source (enums := example.enumerators)
                         (bfs := example.bfs) (pr := example.pr)
                         example.graph example.graph (example.config 7 3 false false)
                         example.int_types 400 300 example.world Hn) Hs)).
Defined.

(** ** C6: selection of the source *)

Lemma RandomNode_next_random (n r : Z) (w : World) :
  fst (RandomNode n (next_random r w)) = r mod n.
Proof.
  unfold RandomNode, next_random. cbn [fst random_source random_drawn].
  by rewrite Nat.eqb_refl.
Qed.

(** C6: for the supported data types, each entry point runs from the
    source its [src_mode] selects: that vertex, and no other, is the
    source Reset is called with (and, for BFS, Enact).  Under [manually]
    it is exactly the configured [src_node].  Under [randomize] it is
    what [RandomNode] makes of the next value of the random source: on a
    graph with a vertex, a vertex of the graph, and [RandomNode] takes
    the values of every window of [num_nodes] consecutive values of the
    random source to the vertices one to one, so that a uniform random
    source gives a uniform vertex; the source of the run is what it
    makes of the actual next value.  Under [largest_degree] it is, on a
    graph with a vertex and monotonic row offsets, a vertex whose
    out-degree no vertex exceeds. *)
Theorem C6_source_selection {enums : GunrockEnums} {BP BE PP PE : Type}
    {bfs : BFSEngine BP BE} {pr : PREngine PP PE}
    (out gin : GunrockGraph) (cfg : GunrockConfig) (dt : GunrockDataType)
    (node_ids page_rank : Z) (w : World) :
  let g := Csr.load (csr_of gin) (heap w) in
  let bfs_run := bfs_app.gunrock_bfs_func out gin cfg dt in
  let pr_run := pr_app.gunrock_pr_func out node_ids page_rank gin cfg dt in
  let runs_from (s : Z) (w' : World) :=
    (bfs_supported dt ->
     bfs_run w =
       bfs_app.run_bfs (mark_pred cfg) (idempotence cfg) out (csr_of gin) s 0 1
         (queue_size cfg) (CreateCudaDevice (device cfg)) w' /\
     (exists st, In (EvReset s st) (new_events bfs_run w)) /\
     (exists st, In (EvEnact s st) (new_events bfs_run w)) /\
     (forall s' st, In (EvReset s' st) (new_events bfs_run w) \/
                    In (EvEnact s' st) (new_events bfs_run w) -> s' = s)) /\
    (pr_supported dt ->
     pr_run w =
       pr_app.run_page_rank out node_ids page_rank (csr_of gin) s (delta cfg) (error cfg)
         (max_iter cfg) 0 1 (CreateCudaDevice (device cfg)) w' /\
     (exists st, In (EvReset s st) (new_events pr_run w)) /\
     (forall s' st, In (EvReset s' st) (new_events pr_run w) -> s' = s)) in
  (src_mode cfg = manually -> runs_from (src_node cfg) w) /\
  (src_mode cfg = randomize ->
   let s := fst (RandomNode (num_nodes gin) w) in
   runs_from s (snd (RandomNode (num_nodes gin) w)) /\
   s = fst (RandomNode (num_nodes gin)
              (next_random (random_source w (random_drawn w)) w)) /\
   (0 < num_nodes gin ->
    0 <= s < num_nodes gin /\
    forall v k, 0 <= v < num_nodes gin ->
      exists! r, k * num_nodes gin <= r < (k + 1) * num_nodes gin /\
                 fst (RandomNode (num_nodes gin) (next_random r w)) = v)) /\
  (src_mode cfg = largest_degree ->
   let s := fst (Csr.GetNodeWithHighestDegree g) in
   runs_from s w /\
   (0 < num_nodes gin -> monotonic_offsets (num_nodes gin) (Csr.c_row_offsets g) ->
    0 <= s < num_nodes gin /\
    forall u, 0 <= u < num_nodes gin -> Csr.out_degree g u <= Csr.out_degree g s)).
Proof.
  intros g bfs_run pr_run runs_from. subst bfs_run pr_run.
  destruct SrcMode_ne as (Hrl & Hrm & Hlm).
  assert (Hruns : forall s w',
             bfs_app.bfs_source (csr_of gin) cfg w = (s, w') ->
             pr_app.pr_source (csr_of gin) cfg w = (s, w') -> runs_from s w').
  { intros s w' Hb Hp. split; intros Hs.
    - unfold bfs_app.gunrock_bfs_func.
      rewrite dispatch_bfs_new_events, dispatch_bfs_supported by done.
      rewrite Hb. cbn [fst snd].
      split; [done|split; [|split]].
      + eexists. by apply In_bfs_run_events_Reset.
      + eexists. by apply In_bfs_run_events_Enact.
      + intros s' st [H|H].
        * by apply In_bfs_run_events_Reset in H as [-> _].
        * by apply In_bfs_run_events_Enact in H as [-> _].
    - unfold pr_app.gunrock_pr_func.
      rewrite dispatch_page_rank_new_events, dispatch_page_rank_supported by done.
      rewrite Hp. cbn [fst snd].
      split; [done|split].
      + eexists. by apply In_pr_run_events_Reset.
      + intros s' st H. by apply In_pr_run_events_Reset in H as [-> _]. }
  split; [|split].
  - intros Em. apply Hruns.
    + rewrite bfs_source_cases, Em, Z.eqb_refl.
      by rewrite (proj2 (Z.eqb_neq _ _)), (proj2 (Z.eqb_neq _ _)) by congruence.
    + rewrite pr_source_cases, Em, Z.eqb_refl.
      by rewrite (proj2 (Z.eqb_neq _ _)), (proj2 (Z.eqb_neq _ _)) by congruence.
  - intros Er. cbv zeta. split; [|split].
    + apply Hruns.
      * by rewrite bfs_source_cases, Er, Z.eqb_refl.
      * by rewrite pr_source_cases, Er, Z.eqb_refl.
    + by rewrite RandomNode_next_random.
    + intros Hn. split; [by apply RandomNode_in_range|].
      intros v k Hv.
      destruct (RandomNode_equidistributed (num_nodes gin) v k Hn Hv)
        as [r [[Hr Hm] Hu]].
      exists r. split.
      * split; [exact Hr|]. by rewrite RandomNode_next_random.
      * intros r' [Hr' Hm']. apply Hu. split; [exact Hr'|].
        by rewrite RandomNode_next_random in Hm'.
  - intros El. cbv zeta. split.
    + apply Hruns.
      * rewrite bfs_source_cases, El, Z.eqb_refl.
        by rewrite (proj2 (Z.eqb_neq _ _)) by congruence.
      * rewrite pr_source_cases, El, Z.eqb_refl.
        by rewrite (proj2 (Z.eqb_neq _ _)) by congruence.
    + intros Hn Hmono. exact (GetNodeWithHighestDegree_highest g Hn Hmono).
Qed.

Lemma C6_source_selection_witness :
  let cfg := example.config 2 0 false false in
  src_mode cfg = largest_degree (GunrockEnums := example.enumerators) /\
  0 < num_nodes example.graph /\
  monotonic_offsets (num_nodes example.graph) example.offsets /\
  forall u, 0 <= u < 6 ->
    Csr.out_degree (Csr.load (csr_of example.graph) example.memory) u <=
    Csr.out_degree (Csr.load (csr_of example.graph) example.memory) 0.
Proof.
  cbv zeta.
  assert (Hn : 0 < num_nodes example.graph) by reflexivity.
  assert (Hm : monotonic_offsets (num_nodes example.graph) example.offsets).
  { split; [reflexivity|split; [by vm_compute|]].
    intros i Hi. change (num_nodes example.graph) with 6 in Hi.
    assert (Hc : i = 0 \/ i = 1 \/ i = 2 \/ i = 3 \/ i = 4 \/ i = 5) by lia.
    destruct Hc as [Hc|[Hc|[Hc|[Hc|[Hc|Hc]]]]]; subst i; by vm_compute. }
  split; [reflexivity|split; [exact Hn|split; [exact Hm|]]].
  exact (proj2 (proj2 (proj2 (proj2
           (C6_source_selection (enums := example.enumerators)
              (bfs := example.bfs) (pr := example.pr)
              example.graph example.graph (example.config 2 0 false false)
              example.int_types 400 300 example.world)) eq_refl) Hn Hm)).
Defined.

(** ** C7: the order of the life cycle *)

(** C7, refuted as stated: on the example graph with a queue sizing
    factor of 0, Enact overflows its queue and fails with [Overflowed];
    Extract is called all the same, on the problem the failed Enact
    left, and produces [NotReady]. *)
Lemma C7_extract_after_failed_enact :
  let cfg := mkConfig 0 0 0 false false 0%float 0x1.b333333333333p-1%float
               0x1.47ae147ae147bp-7%float 20 in
  engine_calls
    (new_events
       (bfs_app.gunrock_bfs_func (enums := example.enumerators) (engine := example.bfs)
          example.graph example.graph cfg example.int_types)
       example.world) =
  [EvProblem false false false; EvInit 1 cudaSuccess; EvReset 0 cudaSuccess;
   EvEnact 0 Overflowed; EvGetStatistics; EvExtract 401 NULL NotReady; EvDeleteProblem].
Proof.
  cbv zeta. vm_compute. reflexivity.
Qed.

(** C7, as the code has it.  Every run of either driver calls Init,
    Reset, Enact and Extract once each, in this order, each on the state
    the call before it left and whatever status that call returned: the
    status of Enact is not tested, and Extract is called on the problem
    Enact left also when Enact failed.  On the reference engine, Extract
    in a run succeeds when Enact succeeded and produces [NotReady],
    copying nothing, when Enact did not; and Extract on a problem that
    has not been through Enact (fresh, after Init, after Reset) produces
    [NotReady]. *)
Theorem C7_lifecycle_order :
  (forall (BP BE : Type) (bfs : BFSEngine BP BE) mp idem out g src mgs n q ctx w,
     let hl := label_block w (Csr.nodes g) in
     let e0 := bfs_new_enactor false false in
     let r1 := bfs_Init false (Csr.load g (label_memory w (Csr.nodes g))) n
                 (bfs_new_problem mp idem (mp && idem)) in
     let r2 := bfs_Reset src (bfs_GetFrontierType e0) q (snd r1) in
     let r3 := bfs_Enact ctx src mgs e0 (snd r2) in
     let r4 := bfs_Extract hl NULL (snd (snd r3)) in
     engine_calls (new_events (bfs_app.run_bfs mp idem out g src mgs n q ctx) w) =
       [EvProblem mp idem (mp && idem); EvInit n (fst r1); EvReset src (fst r2);
        EvEnact src (fst r3); EvGetStatistics; EvExtract hl NULL (fst r4);
        EvDeleteProblem] /\
     lifecycle (new_events (bfs_app.run_bfs mp idem out g src mgs n q ctx) w) =
       [OpInit; OpReset; OpEnact; OpExtract])
  /\
  (forall (PP PE : Type) (pr : PREngine PP PE)
          out node_ids page_rank g source delta error max_iter mgs n ctx w,
     let e0 := pr_new_enactor false false in
     let r1 := pr_Init false (Csr.load g (heap w)) n pr_new_problem in
     let r2 := pr_Reset source delta error (pr_GetFrontierType e0) (snd r1) in
     let r3 := pr_Enact ctx max_iter mgs e0 (snd r2) in
     let r4 := pr_Extract page_rank node_ids (snd (snd r3)) in
     let evs := new_events
                  (pr_app.run_page_rank out node_ids page_rank g source delta error
                     max_iter mgs n ctx) w in
     engine_calls evs =
       [EvInit n (fst r1); EvReset source (fst r2); EvEnact max_iter (fst r3);
        EvGetStatistics; EvExtract page_rank node_ids (fst r4); EvDeleteProblem] /\
     lifecycle evs = [OpInit; OpReset; OpEnact; OpExtract])
  /\
  (forall devs mem mp idem g src mgs n q ctx hl hp,
     let c := bfs_calls (engine := reference.bfs.engine devs mem) mp idem g src mgs n q
                ctx hl hp in
     (fst (after_enact c) = cudaSuccess -> fst (extracted c) = cudaSuccess) /\
     (fst (after_enact c) <> cudaSuccess -> extracted c = (NotReady, ([], []))))
  /\
  (forall devs mem g source delta error max_iter mgs n ctx page_rank node_ids,
     let c := pr_calls (engine := reference.pr.engine devs mem) g source delta error
                max_iter mgs n ctx page_rank node_ids in
     (fst (pr_after_enact c) = cudaSuccess -> fst (pr_extracted c) = cudaSuccess) /\
     (fst (pr_after_enact c) <> cudaSuccess -> pr_extracted c = (NotReady, ([], []))))
  /\
  (forall devs mem mp idem dbl b g n s kind q hl hp,
     let p0 := reference.bfs.new_problem mp idem dbl in
     let p1 := snd (reference.bfs.Init devs mem b g n p0) in
     let p2 := snd (reference.bfs.Reset s kind q p1) in
     reference.bfs.Extract hl hp p0 = (NotReady, ([], [])) /\
     reference.bfs.Extract hl hp p1 = (NotReady, ([], [])) /\
     reference.bfs.Extract hl hp p2 = (NotReady, ([], [])))
  /\
  (forall devs mem b g n s delta error kind page_rank node_ids,
     let p0 := reference.pr.new_problem in
     let p1 := snd (reference.pr.Init devs mem b g n p0) in
     let p2 := snd (reference.pr.Reset s delta error kind p1) in
     reference.pr.Extract page_rank node_ids p0 = (NotReady, ([], [])) /\
     reference.pr.Extract page_rank node_ids p1 = (NotReady, ([], [])) /\
     reference.pr.Extract page_rank node_ids p2 = (NotReady, ([], []))).
Proof.
  split; [|split; [|split; [|split; [|split]]]].
  - intros BP BE bfs mp idem out g src mgs n q ctx w hl e0 r1 r2 r3 r4.
    rewrite run_bfs_new_events. split.
    + by rewrite engine_calls_bfs_run_events.
    + apply lifecycle_bfs_run_events.
  - intros PP PE pr out node_ids page_rank g source delta error max_iter mgs n ctx w
           e0 r1 r2 r3 r4 evs. subst evs.
    rewrite run_page_rank_new_events. split.
    + by rewrite engine_calls_pr_run_events.
    + apply lifecycle_pr_run_events.
  - intros. apply bfs_contract.bfs_run_extract.
  - intros. apply pr_contract.pr_run_extract.
  - intros devs mem mp idem dbl b g n s kind q hl hp p0 p1 p2.
    assert (H0 : reference.bfs.phase p0 <> reference.Completed) by discriminate.
    assert (H1 : reference.bfs.phase p1 <> reference.Completed)
      by (intros E; by apply bfs_contract.bfs_Init_phase in E).
    assert (H2 : reference.bfs.phase p2 <> reference.Completed)
      by (intros E; by apply bfs_contract.bfs_Reset_phase in E).
    by rewrite !bfs_contract.bfs_Extract_not_ready.
  - intros devs mem b g n s delta error kind page_rank node_ids p0 p1 p2.
    assert (H0 : reference.pr.phase p0 <> reference.Completed) by discriminate.
    assert (H1 : reference.pr.phase p1 <> reference.Completed)
      by (intros E; by apply pr_contract.pr_Init_phase in E).
    assert (H2 : reference.pr.phase p2 <> reference.Completed)
      by (intros E; by apply pr_contract.pr_Reset_phase in E).
    by rewrite !pr_contract.pr_Extract_not_ready.
Qed.

(** ** C4: a source out of range *)

(** C4, refuted as stated: on the example graph of six vertices, with the
    source set by hand to 6, Reset fails with [InvalidSource], and Enact is
    called with source 6 all the same, then Extract. *)
Lemma C4_run_proceeds_after_invalid_source :
  let cfg := example.config 0 6 false false in
  ~ 0 <= src_node cfg < num_nodes example.graph /\
  engine_calls
    (new_events
       (bfs_app.gunrock_bfs_func (enums := example.enumerators) (engine := example.bfs)
          example.graph example.graph cfg example.int_types)
       example.world) =
  [EvProblem false false false; EvInit 1 cudaSuccess; EvReset 6 InvalidSource;
   EvEnact 6 NotReady; EvGetStatistics; EvExtract 401 NULL NotReady; EvDeleteProblem].
Proof.
  cbv zeta. split.
  - change (src_node (example.config 0 6 false false)) with 6.
    change (num_nodes example.graph) with 6. lia.
  - vm_compute. reflexivity.
Qed.

(** C4, as the code has it: on an initialised reference problem with
    compatible flags, Reset with a source outside [0, nodeCount) fails with
    [InvalidSource] and leaves the problem as it was (for PageRank the
    source -1, "no source", is not out of range).  The drivers do not act
    on the status: whatever Reset returns, [run_bfs] calls Enact with the
    same source next, then GetStatistics and Extract, and [run_page_rank]
    calls Enact, GetStatistics and Extract; a failed status is written out
    by [util::GRError] first. *)
Theorem C4_invalid_source :
  (forall devs mem s kind q (p : reference.bfs.Problem),
     reference.bfs.phase p <> reference.Created ->
     reference.bfs.MARK_PREDECESSORS p && reference.bfs.ENABLE_IDEMPOTENCE p = false ->
     ~ 0 <= s < Csr.c_nodes (reference.bfs.graph p) ->
     bfs_Reset (BFSEngine := reference.bfs.engine devs mem) s kind q p = (InvalidSource, p))
  /\
  (forall devs mem s delta error kind (p : reference.pr.Problem),
     reference.pr.phase p <> reference.Created ->
     ~ 0 <= s < Csr.c_nodes (reference.pr.graph p) -> s <> -1 ->
     pr_Reset (PREngine := reference.pr.engine devs mem) s delta error kind p
     = (InvalidSource, p))
  /\
  (forall (BP BE : Type) (bfs : BFSEngine BP BE) mp idem out g src mgs n q ctx w,
     let evs := new_events (bfs_app.run_bfs mp idem out g src mgs n q ctx) w in
     let c := bfs_calls mp idem
                (Csr.load g (label_memory w (Csr.nodes g)))
                src mgs n q ctx (label_block w (Csr.nodes g)) NULL in
     engine_calls evs =
       [EvProblem mp idem (mp && idem); EvInit n (fst (after_init c));
        EvReset src (fst (after_reset c)); EvEnact src (fst (after_enact c));
        EvGetStatistics; EvExtract (label_block w (Csr.nodes g)) NULL (fst (extracted c));
        EvDeleteProblem] /\
     (failed (fst (after_reset c)) = true ->
      In (EvGRError "BFS Problem Data Reset Failed" (fst (after_reset c))) evs))
  /\
  (forall (PP PE : Type) (pr : PREngine PP PE)
          out node_ids page_rank g source delta error max_iter mgs n ctx w,
     let evs := new_events
                  (pr_app.run_page_rank out node_ids page_rank g source delta error
                     max_iter mgs n ctx) w in
     let c := pr_calls (Csr.load g (heap w)) source delta error max_iter mgs n ctx
                page_rank node_ids in
     engine_calls evs =
       [EvInit n (fst (pr_after_init c)); EvReset source (fst (pr_after_reset c));
        EvEnact max_iter (fst (pr_after_enact c)); EvGetStatistics;
        EvExtract page_rank node_ids (fst (pr_extracted c)); EvDeleteProblem] /\
     (failed (fst (pr_after_reset c)) = true ->
      In (EvGRError "Page Rank Problem Data Reset Failed" (fst (pr_after_reset c))) evs)).
Proof.
  split; [|split; [|split]].
  - intros. by apply bfs_contract.bfs_Reset_invalid_source.
  - intros. by apply pr_contract.pr_Reset_invalid_source.
  - intros BP BE bfs mp idem out g src mgs n q ctx w evs c. subst evs.
    rewrite run_bfs_new_events. fold c. split.
    + apply engine_calls_bfs_run_events.
    + intros Hf. unfold bfs_run_events, gr_report. rewrite Hf.
      apply in_or_app; right. apply in_or_app; right. apply in_or_app; right.
      apply in_or_app; left. by left.
  - intros PP PE pr out node_ids page_rank g source delta error max_iter mgs n ctx w evs c.
    subst evs. rewrite run_page_rank_new_events. fold c. split.
    + apply engine_calls_pr_run_events.
    + intros Hf. unfold pr_run_events, gr_report. rewrite Hf.
      apply in_or_app; right. apply in_or_app; right. apply in_or_app; right.
      apply in_or_app; left. by left.
Qed.

Lemma C4_invalid_source_witness :
  let p := snd (reference.bfs.Init 1 1000 false
                  (Csr.load (csr_of example.graph) example.memory) 1
                  (reference.bfs.new_problem false false false)) in
  reference.bfs.phase p <> reference.Created /\
  ~ 0 <= 6 < Csr.c_nodes (reference.bfs.graph p) /\
  bfs_Reset (BFSEngine := example.bfs) 6 VertexFrontier 1%float p = (InvalidSource, p).
Proof.
  cbv zeta.
  set (p := snd (reference.bfs.Init 1 1000 false
                   (Csr.load (csr_of example.graph) example.memory) 1
                   (reference.bfs.new_problem false false false))).
  assert (Hp : reference.bfs.phase p <> reference.Created) by (vm_compute; discriminate).
  assert (Hs : ~ 0 <= 6 < Csr.c_nodes (reference.bfs.graph p)).
  { change (Csr.c_nodes (reference.bfs.graph p)) with 6. lia. }
  split; [exact Hp|split; [exact Hs|]].
  exact (proj1 C4_invalid_source 1 1000 6 VertexFrontier 1%float p Hp eq_refl Hs).
Defined.

(** ** C8: the caller's arrays *)

Lemma bfs_supported_dec {enums : GunrockEnums} (dt : GunrockDataType) :
  {bfs_supported dt} + {~ bfs_supported dt}.
Proof. unfold bfs_supported. exact (decide _). Qed.

Lemma pr_supported_dec {enums : GunrockEnums} (dt : GunrockDataType) :
  {pr_supported dt} + {~ pr_supported dt}.
Proof. unfold pr_supported. exact (decide _). Qed.

Lemma Csr_destroy_cleared nodes edges w :
  Csr.destroy (Csr.mk nodes edges NULL NULL) w = (tt, w).
Proof. reflexivity. Qed.

Lemma Csr_destroy_aliasing g w :
  Csr.row_offsets g <> NULL -> Csr.column_indices g <> NULL ->
  heap (snd (Csr.destroy g w)) !! Csr.row_offsets g = None /\
  heap (snd (Csr.destroy g w)) !! Csr.column_indices g = None.
Proof.
  intros Hr Hc. unfold Csr.destroy, free, bind.
  apply Z.eqb_neq in Hr, Hc. rewrite Hr, Hc. rewrite !emit_run.
  cbv beta iota. unfold set_heap. rewrite !emit_run. cbv beta iota.
  cbn [snd]. autorewrite with world.
  split.
  - destruct (decide (Csr.column_indices g = Csr.row_offsets g)) as [->|Hne].
    + apply lookup_delete_eq.
    + rewrite lookup_delete_ne by done. apply lookup_delete_eq.
  - apply lookup_delete_eq.
Qed.

(** C8: whatever the data types and the engine, every block of host
    memory that is live when [gunrock_bfs_func] is called is live with the
    same contents when it returns, the caller's row-offset and column-index
    arrays among them; [gunrock_pr_func] changes no block but the two
    output buffers it is given; and neither frees anything: the wrapper
    is destroyed with both pointers cleared, which frees nothing, whereas
    a wrapper still holding the caller's two pointers would free both
    arrays. *)
Theorem C8_caller_arrays_intact {enums : GunrockEnums} {BP BE PP PE : Type}
    {bfs : BFSEngine BP BE} {pr : PREngine PP PE}
    (out gin : GunrockGraph) (cfg : GunrockConfig) (dt : GunrockDataType)
    (node_ids page_rank : Z) (w : World) :
  let bfs_run := bfs_app.gunrock_bfs_func out gin cfg dt in
  let pr_run := pr_app.gunrock_pr_func out node_ids page_rank gin cfg dt in
  (forall p b, heap w !! p = Some b -> heap (snd (bfs_run w)) !! p = Some b) /\
  (forall p, p <> page_rank -> p <> node_ids -> heap (snd (pr_run w)) !! p = heap w !! p) /\
  forallb (fun e => negb (is_free e)) (new_events bfs_run w) = true /\
  forallb (fun e => negb (is_free e)) (new_events pr_run w) = true /\
  Csr.destroy (Csr.mk (num_nodes gin) (num_edges gin) NULL NULL) w = (tt, w) /\
  (row_offsets gin <> NULL -> col_indices gin <> NULL ->
   heap (snd (Csr.destroy (csr_of gin) w)) !! row_offsets gin = None /\
   heap (snd (Csr.destroy (csr_of gin) w)) !! col_indices gin = None).
Proof.
  intros bfs_run pr_run. subst bfs_run pr_run.
  unfold bfs_app.gunrock_bfs_func, pr_app.gunrock_pr_func.
  split; [|split; [|split; [|split; [|split]]]].
  - intros p b Hp. destruct (bfs_supported_dec dt) as [Hs|Hn].
    + rewrite dispatch_bfs_heap by done.
      destruct (served w (num_nodes gin)) eqn:Hsv.
      * rewrite bfs_final_heap_served by done.
        destruct (fresh_block_spec w) as [_ Hfree].
        rewrite lookup_insert_ne; [done|]. intros E. subst p. congruence.
      * by rewrite bfs_final_heap_refused.
    + rewrite dispatch_bfs_unsupported by done. cbn [snd]. by rewrite heap_add_events.
  - intros p Hp Hn'. destruct (pr_supported_dec dt) as [Hs|Hn].
    + rewrite dispatch_page_rank_heap by done. unfold pr_final_heap.
      by rewrite put_ints_lookup_ne, put_floats_lookup_ne.
    + rewrite dispatch_page_rank_unsupported by done. cbn [snd]. by rewrite heap_add_events.
  - destruct (bfs_supported_dec dt) as [Hs|Hn].
    + rewrite dispatch_bfs_new_events by done. apply no_free_bfs_run_events.
    + unfold new_events. rewrite dispatch_bfs_unsupported by done. cbn [snd].
      rewrite trace_add_events, drop_app_length. by destruct (bfs_signalled dt).
  - destruct (pr_supported_dec dt) as [Hs|Hn].
    + rewrite dispatch_page_rank_new_events by done. apply no_free_pr_run_events.
    + unfold new_events. rewrite dispatch_page_rank_unsupported by done. cbn [snd].
      rewrite trace_add_events, drop_app_length. by destruct (pr_signalled dt).
  - apply Csr_destroy_cleared.
  - intros Hr Hc. by apply (Csr_destroy_aliasing (csr_of gin) w).
Qed.

Lemma C8_caller_arrays_intact_witness :
  let cfg := example.config 0 0 false false in
  heap example.world !! 100 = Some (IntBuf example.offsets) /\
  heap (snd (bfs_app.gunrock_bfs_func (enums := example.enumerators)
               (engine := example.bfs) example.graph example.graph cfg
               example.int_types example.world)) !! 100
  = Some (IntBuf example.offsets).
Proof.
  cbv zeta.
  assert (H : heap example.world !! 100 = Some (IntBuf example.offsets)) by reflexivity.
  split; [exact H|].
  exact (proj1 (C8_caller_arrays_intact (enums := example.enumerators)
                  (bfs := example.bfs) (pr := example.pr)
                  example.graph example.graph (example.config 0 0 false false)
                  example.int_types 400 300 example.world)
           100 (IntBuf example.offsets) H).
Defined.

(** ** C2: what the output buffers receive *)

(** C2, refuted as stated: on the example graph, with predecessor
    tracking on, the run completes; the labels go to a block that
    [run_bfs] allocates itself, not to a buffer of the caller; Extract is
    handed a null predecessor buffer, and the predecessors the engine has
    computed reach no block of host memory: the label block is all that
    has changed. *)
Lemma C2_predecessors_not_delivered :
  let cfg := example.config 0 0 true false in
  let run := bfs_app.gunrock_bfs_func (enums := example.enumerators)
               (engine := example.bfs) example.graph example.graph cfg
               example.int_types in
  let c := bfs_dispatch_calls (enums := example.enumerators) (engine := example.bfs)
             example.graph cfg 0 example.world in
  mark_pred cfg = true /\
  engine_calls (new_events run example.world) =
    [EvProblem true false false; EvInit 1 cudaSuccess; EvReset 0 cudaSuccess;
     EvEnact 0 cudaSuccess; EvGetStatistics; EvExtract 401 NULL cudaSuccess;
     EvDeleteProblem] /\
  reference.bfs.predecessor (snd (snd (after_enact c))) = [-1; 0; 0; 2; 3; -1] /\
  node_values (fst (run example.world)) = 401 /\
  heap example.world !! 401 = None /\
  heap (snd (run example.world)) = <[401 := IntBuf [0; 1; 1; 2; 3; -1]]> example.memory.
Proof.
  cbv zeta. repeat split; vm_compute; reflexivity.
Qed.

Lemma length_junk_block w n : length (junk_block w n) = Z.to_nat n.
Proof. unfold junk_block. by rewrite length_fmap, length_seqZ. Qed.

(** C2, as the code has it.  [run_bfs] requests the label buffer from
    [malloc] itself, one entry per vertex, hands the pointer it gets to
    Extract together with a null predecessor buffer (also when
    predecessors are tracked), and publishes it as [node_values].  When
    [malloc] serves the request, the block is a new one, and after the run
    it holds what Extract copied, no other block having changed; when it
    does not, the pointer is null and memory is as it was.
    [run_page_rank] hands the caller's [page_rank] and [node_ids] buffers
    to Extract, and they hold what it copied.  On the reference engine,
    when the request is served and Extract succeeds, the label block
    holds one label per vertex, and every vertex that cannot be reached
    from the source carries the sentinel -1. *)
Theorem C2_outputs :
  (forall (BP BE : Type) (bfs : BFSEngine BP BE) mp idem out g src mgs n q ctx w,
     let r := bfs_app.run_bfs mp idem out g src mgs n q ctx w in
     let hl := fst (malloc_ints (Csr.nodes g) w) in
     let c := bfs_calls mp idem
                (Csr.load g (heap (snd (malloc_ints (Csr.nodes g) w))))
                src mgs n q ctx hl NULL in
     node_values (fst r) = hl /\
     In (EvExtract hl NULL (fst (extracted c)))
        (new_events (bfs_app.run_bfs mp idem out g src mgs n q ctx) w) /\
     (served w (Csr.nodes g) = true ->
      hl <> NULL /\ heap w !! hl = None /\
      heap (snd r) =
        <[hl := IntBuf (overwrite (fst (snd (extracted c)))
                          (junk_block w (Csr.nodes g)))]> (heap w)) /\
     (served w (Csr.nodes g) = false -> hl = NULL /\ heap (snd r) = heap w))
  /\
  (forall (PP PE : Type) (pr : PREngine PP PE)
          out node_ids page_rank g source delta error max_iter mgs n ctx w,
     let r := pr_app.run_page_rank out node_ids page_rank g source delta error max_iter
                mgs n ctx w in
     let c := pr_calls (Csr.load g (heap w)) source delta error max_iter mgs n ctx
                page_rank node_ids in
     heap (snd r) =
       put_ints node_ids (snd (snd (pr_extracted c)))
         (put_floats page_rank (fst (snd (pr_extracted c))) (heap w)))
  /\
  (forall devs mem mp idem out g src mgs n q ctx w,
     let seen := Csr.load g (label_memory w (Csr.nodes g)) in
     let r := bfs_app.run_bfs (engine := reference.bfs.engine devs mem)
                mp idem out g src mgs n q ctx w in
     let c := bfs_calls (engine := reference.bfs.engine devs mem) mp idem seen
                src mgs n q ctx (label_block w (Csr.nodes g)) NULL in
     served w (Csr.nodes g) = true ->
     fst (extracted c) = cudaSuccess ->
     exists labels,
       heap (snd r) !! node_values (fst r) = Some (IntBuf labels) /\
       length labels = Z.to_nat (Csr.nodes g) /\
       forall v, 0 <= v < Csr.nodes g -> ~ traversal.reach seen src v ->
                 idx labels v = reference.sentinel).
Proof.
  split; [|split].
  - intros BP BE bfs mp idem out g src mgs n q ctx w r hl c. subst r hl c.
    rewrite malloc_ints_run. cbn [fst snd]. rewrite heap_with_heap.
    rewrite run_bfs_new_events, run_bfs_run. cbn [fst snd].
    rewrite heap_with_heap.
    split; [reflexivity|split; [|split]].
    + unfold bfs_run_events.
      do 6 (apply in_or_app; right). apply in_or_app; left.
      apply in_cons, in_eq.
    + intros Hsv. rewrite bfs_final_heap_served by done.
      destruct (label_block_served w (Csr.nodes g) Hsv) as [-> _].
      destruct (fresh_block_spec w) as [Hnull Hfree]. by repeat split.
    + intros Hsv. rewrite bfs_final_heap_refused by done.
      by destruct (label_block_refused w (Csr.nodes g) Hsv) as [-> _].
  - intros PP PE pr out node_ids page_rank g source delta error max_iter mgs n ctx w r c.
    subst r. rewrite run_page_rank_run. reflexivity.
  - intros devs mem mp idem out g src mgs n q ctx w seen r c Hsv Hx. subst r.
    rewrite run_bfs_run. fold seen. fold c. cbn [fst snd].
    rewrite heap_with_heap, bfs_final_heap_served by done.
    unfold set_node_values. cbn [node_values].
    destruct (label_block_served w (Csr.nodes g) Hsv) as [Hb _].
    rewrite Hb, lookup_insert_eq.
    destruct (bfs_contract.completed_run devs mem mp idem seen src mgs n q ctx
                (label_block w (Csr.nodes g)) Hx) as [Hlen Hsent].
    fold c in Hlen, Hsent.
    change (Csr.c_nodes seen) with (Csr.nodes g) in Hlen, Hsent.
    rewrite overwrite_same_length by (by rewrite length_junk_block).
    eexists. split; [reflexivity|]. split; [exact Hlen|exact Hsent].
Qed.

Lemma C2_outputs_witness :
  let seen := Csr.load (csr_of example.graph) (label_memory example.world 6) in
  let c := bfs_calls (engine := reference.bfs.engine 1 1000) true false seen
             0 0 1 1%float 0 (label_block example.world 6) NULL in
  served example.world 6 = true /\
  fst (extracted c) = cudaSuccess /\
  exists labels,
    heap (snd (bfs_app.run_bfs (engine := reference.bfs.engine 1 1000) true false
                 example.graph (csr_of example.graph) 0 0 1 1%float 0 example.world))
      !! node_values
           (fst (bfs_app.run_bfs (engine := reference.bfs.engine 1 1000) true false
                   example.graph (csr_of example.graph) 0 0 1 1%float 0 example.world))
    = Some (IntBuf labels) /\
    length labels = Z.to_nat 6 /\
    forall v, 0 <= v < 6 -> ~ traversal.reach seen 0 v -> idx labels v = reference.sentinel.
Proof.
  cbv zeta.
  assert (Hsv : served example.world (Csr.nodes (csr_of example.graph)) = true)
    by reflexivity.
  assert (Hx : fst (extracted
                      (bfs_calls (engine := reference.bfs.engine 1 1000) true false
                         (Csr.load (csr_of example.graph)
                            (label_memory example.world
                               (Csr.nodes (csr_of example.graph))))
                         0 0 1 1%float 0
                         (label_block example.world (Csr.nodes (csr_of example.graph)))
                         NULL))
               = cudaSuccess) by (vm_compute; reflexivity).
  split; [exact Hsv|split; [exact Hx|]].
  exact (proj2 (proj2 C2_outputs) 1 1000 true false example.graph (csr_of example.graph)
           0 0 1 1%float 0 example.world Hsv Hx).
Defined.

(** ** C5 and C10: the redundant-work figure *)

Lemma In_singleton_if {A} (b : bool) (x y : A) :
  In x (if b then [y] else []) <-> b = true /\ y = x.
Proof. destruct b; simpl; intuition congruence. Qed.

(** C5, refuted as stated: with 12 work items queued and the labels of
    the example (5 vertices visited, 6 edges leaving them) the figure
    reported is 100, where the ratio of items queued to vertices
    finalized is 2.4, or 240 per cent. *)
Lemma C5_not_the_ratio_to_vertices :
  let labels := [0; 1; 1; 2; 3; -1] in
  let w := with_heap (<[500 := IntBuf labels]> example.memory) example.world in
  bfs_app.count_visited 6 labels example.offsets = (5, 6) /\
  In (redundant_work_line 100)
     (new_events
        (bfs_app.DisplayStats false (bfs_app.mkStats "GPU Breadth-first search") 0 500
           (csr_of example.graph) (elapsed_millis w) 4 12 0) w) /\
  claimed_redundant_work 12 5 = 0x1.3333333333333p+1%float /\
  PrimFloat.eqb 100 (claimed_redundant_work 12 5) = false /\
  PrimFloat.eqb 100 (claimed_redundant_work 12 5 * 100) = false.
Proof.
  cbv zeta. split; [by vm_compute|split; [|by vm_compute]].
  rewrite (new_events_add _ _ tt _ _ _ _ (bfs_DisplayStats_run _ _ _ _ _ _ _ _ _ _)).
  vm_compute. repeat ((left; reflexivity) || right).
Qed.

(** C5, as the code has it: on a graph with monotonic row offsets the
    figure [DisplayStats] reports is 100 times (items queued minus edges
    visited) over edges visited, where the edges visited are the edges
    leaving the vertices whose label exceeds -1; it is 0 when nothing was
    queued.  The line is printed exactly when at least 5 vertices were
    visited and the figure is positive.  (Edges visited are not zero when
    items were queued.) *)
Theorem C5_redundant_work_reported (mp : bool) (stats : bfs_app.Stats)
    (src h_labels : Z) (graph : Csr.t) (elapsed : float) (search_depth total_queued : Z)
    (avg_duty : float) (w : World) (x : float) :
  let row_offsets := ints_at (heap w) (Csr.row_offsets graph) in
  let visited := visited_vertices (Csr.nodes graph) (ints_at (heap w) h_labels) in
  let edges_visited := degree_sum row_offsets visited in
  monotonic_offsets (Csr.nodes graph) row_offsets -> Csr.nodes graph <= INT_MAX ->
  (0 < total_queued -> edges_visited <> 0) ->
  In (redundant_work_line x)
     (new_events
        (bfs_app.DisplayStats mp stats src h_labels graph elapsed search_depth
           total_queued avg_duty) w)
  <->
  x = redundant_work_percentage total_queued edges_visited /\
  5 <= Z.of_nat (length visited) /\
  PrimFloat.ltb 0 (redundant_work_percentage total_queued edges_visited) = true.
Proof.
  intros row_offsets visited edges_visited Hmono Hn _.
  rewrite (new_events_add _ _ tt _ _ _ _ (bfs_DisplayStats_run _ _ _ _ _ _ _ _ _ _)).
  unfold bfs_DisplayStats_prints. fold row_offsets.
  rewrite count_visited_exact by done. fold visited. fold edges_visited.
  cbn [fst snd].
  change (bfs_app.redundant_work total_queued edges_visited)
    with (redundant_work_percentage total_queued edges_visited).
  generalize (redundant_work_percentage total_queued edges_visited). intros pct.
  unfold redundant_work_line.
  destruct (Z.ltb_spec (Z.of_nat (length visited)) 5) as [Hlt|Hge].
  - split.
    + intros [E|[E|[]]]; discriminate E.
    + intros (_ & Hge & _). lia.
  - split.
    + intros [E|H]; [discriminate E|].
      rewrite !in_app_iff, !In_singleton_if in H.
      destruct H as [[E|[]]|[[_ E]|[[_ E]|[[E|[]]|[[_ E]|[[Hpos E]|[E|[]]]]]]]];
        try discriminate E.
      injection E as <-. by repeat split.
    + intros (-> & _ & Hpos). right.
      rewrite !in_app_iff, !In_singleton_if. do 5 right. left. by split.
Qed.

Lemma C5_redundant_work_reported_witness :
  let labels := [0; 1; 1; 2; 3; -1] in
  let w := with_heap (<[500 := IntBuf labels]> example.memory) example.world in
  monotonic_offsets 6 example.offsets /\ 6 <= INT_MAX /\
  In (redundant_work_line 100)
     (new_events
        (bfs_app.DisplayStats false (bfs_app.mkStats "GPU Breadth-first search") 0 500
           (csr_of example.graph) (elapsed_millis w) 4 12 0) w).
Proof.
  cbv zeta.
  assert (Hm : monotonic_offsets 6 example.offsets).
  { split; [reflexivity|split; [by vm_compute|]].
    intros i Hi.
    assert (Hc : i = 0 \/ i = 1 \/ i = 2 \/ i = 3 \/ i = 4 \/ i = 5) by lia.
    destruct Hc as [Hc|[Hc|[Hc|[Hc|[Hc|Hc]]]]]; subst i; by vm_compute. }
  assert (Hn : 6 <= INT_MAX) by (by vm_compute).
  split; [exact Hm|split; [exact Hn|]].
  set (w := with_heap (<[500 := IntBuf [0; 1; 1; 2; 3; -1]]> example.memory) example.world).
  assert (E : ints_at (heap w) (Csr.row_offsets (csr_of example.graph)) = example.offsets)
    by (by vm_compute).
  assert (Hm' : monotonic_offsets (Csr.nodes (csr_of example.graph))
                  (ints_at (heap w) (Csr.row_offsets (csr_of example.graph))))
    by (rewrite E; exact Hm).
  apply (proj2 (C5_redundant_work_reported false
                  (bfs_app.mkStats "GPU Breadth-first search") 0 500
                  (csr_of example.graph) (elapsed_millis w) 4 12 0 w
                  100 Hm' Hn ltac:(intros _; by vm_compute))).
  split; [by vm_compute|split; [by vm_compute|by vm_compute]].
Defined.

(** C10, the code at a failing input: a single vertex without edges,
    labelled 0, with one item queued.  One vertex and no edge are counted
    as visited, and the figure is (1 - 0) / 0 * 100, the division by zero
    that yields infinity.  The reference engine hands [DisplayStats] these
    very values when run on that graph. *)
Theorem C10_division_by_zero :
  bfs_app.count_visited 1 [0] [0; 0] = (1, 0) /\
  bfs_app.redundant_work 1 0 = infinity /\
  (Z2double 1 - Z2double 0)%float = 1%float /\ Z2double 0 = 0%float /\
  let c := bfs_dispatch_calls (enums := example.enumerators) (engine := example.bfs)
             example.lone_graph (example.config 0 0 false false) 0 example.lone_world in
  fst (fst (statistics c)) = 1 /\ extracted c = (cudaSuccess, ([0], [])).
Proof. cbv zeta. repeat split; by vm_compute. Qed.

(** * Further properties of the two drivers *)

(** ** The statistics of [bfs_app.DisplayStats] *)

Lemma count_visited_nodes nodes h_labels row_offsets :
  nodes <= INT_MAX ->
  fst (bfs_app.count_visited nodes h_labels row_offsets) =
  Z.of_nat (length (visited_vertices nodes h_labels)).
Proof.
  intros Hn.
  destruct (Z.le_gt_cases nodes 0) as [Hle|Hpos].
  { unfold bfs_app.count_visited, visited_vertices. by rewrite seqZ_nil. }
  replace nodes with (Z.of_nat (Z.to_nat nodes)) in * by lia.
  generalize dependent (Z.to_nat nodes). clear nodes. intros k Hn _.
  unfold bfs_app.count_visited, visited_vertices.
  induction k as [|k IH]; [reflexivity|].
  rewrite seqZ_S, fold_left_app, List.filter_app, length_app.
  specialize (IH ltac:(lia)).
  pose proof (List.filter_length_le (fun i => idx h_labels i >? -1)
                (seqZ 0 (Z.of_nat k))) as Hlen.
  rewrite length_seqZ in Hlen.
  rewrite Z.add_0_l. cbn [fold_left List.filter].
  unfold bfs_app.visit at 1.
  destruct (idx h_labels (Z.of_nat k) >? -1); cbn [fst length].
  - rewrite IH, wrap32_small by (unfold is_int, INT_MIN, INT_MAX in *; lia). lia.
  - rewrite IH. cbn [length]. lia.
Qed.

(** X1: on a graph with monotonic row offsets, the loop of [DisplayStats]
    counts exactly the vertices whose label exceeds -1 and the edges
    leaving them, and neither count exceeds the graph: at most [nodes]
    vertices and at most [row_offsets[nodes]] edges. *)
Theorem X1_visited_counts (nodes : Z) (h_labels row_offsets : list Z) :
  monotonic_offsets nodes row_offsets -> nodes <= INT_MAX ->
  let visited := visited_vertices nodes h_labels in
  let counts := bfs_app.count_visited nodes h_labels row_offsets in
  fst counts = Z.of_nat (length visited) /\
  snd counts = degree_sum row_offsets visited /\
  0 <= fst counts <= Z.max 0 nodes /\
  0 <= snd counts <= idx row_offsets (Z.max 0 nodes).
Proof.
  intros Hmono Hn visited counts. subst counts.
  rewrite count_visited_exact by done. fold visited. cbn [fst snd].
  split; [done|split; [done|]].
  assert (Hlen : Z.of_nat (length visited) <= Z.max 0 nodes).
  { pose proof (List.filter_length_le (fun i => idx h_labels i >? -1) (seqZ 0 nodes)) as H.
    rewrite length_seqZ in H. unfold visited, visited_vertices. lia. }
  split; [lia|].
  destruct (Z.le_gt_cases nodes 0) as [Hle|Hpos].
  - unfold visited, visited_vertices. rewrite seqZ_nil by lia.
    rewrite Z.max_l by lia. destruct Hmono as (-> & _). cbn. lia.
  - rewrite Z.max_r by lia.
    pose proof (degree_sum_visited_bound nodes row_offsets h_labels (Z.to_nat nodes)
                  Hmono ltac:(lia)) as Hb.
    rewrite Z2Nat.id in Hb by lia. exact Hb.
Qed.

Lemma X1_visited_counts_witness :
  monotonic_offsets 6 example.offsets /\ 6 <= INT_MAX /\
  fst (bfs_app.count_visited 6 [0; 1; 1; 2; 3; -1] example.offsets) = 5 /\
  snd (bfs_app.count_visited 6 [0; 1; 1; 2; 3; -1] example.offsets) = 6.
Proof.
  assert (Hm : monotonic_offsets 6 example.offsets).
  { split; [reflexivity|split; [by vm_compute|]].
    intros i Hi.
    assert (Hc : i = 0 \/ i = 1 \/ i = 2 \/ i = 3 \/ i = 4 \/ i = 5) by lia.
    destruct Hc as [Hc|[Hc|[Hc|[Hc|[Hc|Hc]]]]]; subst i; by vm_compute. }
  assert (Hn : 6 <= INT_MAX) by (by vm_compute).
  split; [exact Hm|split; [exact Hn|]].
  destruct (X1_visited_counts 6 [0; 1; 1; 2; 3; -1] example.offsets Hm Hn)
    as (H1 & H2 & _).
  split; [exact H1|exact H2].
Defined.

(** X2: the loop of [DisplayStats] reads the labels of the vertices
    [0 .. nodes - 1] and the row offsets [0 .. nodes], and nothing else:
    arrays that agree there give the same counts. *)
Theorem X2_counts_read_within_bounds (nodes : Z) (h_labels h_labels' row_offsets row_offsets' : list Z) :
  (forall i, 0 <= i < nodes -> idx h_labels i = idx h_labels' i) ->
  (forall i, 0 <= i <= nodes -> idx row_offsets i = idx row_offsets' i) ->
  bfs_app.count_visited nodes h_labels row_offsets =
  bfs_app.count_visited nodes h_labels' row_offsets'.
Proof.
  intros Hl Hr. unfold bfs_app.count_visited.
  generalize (0, 0).
  assert (Hin : forall i, In i (seqZ 0 nodes) -> 0 <= i < nodes).
  { intros i Hi. apply list_elem_of_In, elem_of_seqZ in Hi. lia. }
  induction (seqZ 0 nodes) as [|i l IH]; intros acc; [reflexivity|].
  cbn [fold_left].
  assert (Hi : 0 <= i < nodes) by (apply Hin; by left).
  replace (bfs_app.visit h_labels' row_offsets' acc i)
    with (bfs_app.visit h_labels row_offsets acc i).
  - apply IH. intros j Hj. apply Hin. by right.
  - unfold bfs_app.visit. by rewrite (Hl i), (Hr i), (Hr (i + 1)) by lia.
Qed.

Lemma X2_counts_read_within_bounds_witness :
  bfs_app.count_visited 2 [0; -1] [0; 1; 1] =
  bfs_app.count_visited 2 [0; -1; 4; 4] [0; 1; 1; 9].
Proof.
  apply (X2_counts_read_within_bounds 2 [0; -1] [0; -1; 4; 4] [0; 1; 1] [0; 1; 1; 9]).
  - intros i Hi. assert (Hc : i = 0 \/ i = 1) by lia.
    destruct Hc as [->| ->]; reflexivity.
  - intros i Hi. assert (Hc : i = 0 \/ i = 1 \/ i = 2) by lia.
    destruct Hc as [->|[->| ->]]; reflexivity.
Defined.
(** X3: a report on fewer than five visited vertices consists of the
    name line and the message [Fewer than 5 vertices visited.] alone,
    whatever the timing and the queue statistics are.  With five or more,
    the message is absent: the report starts with the name line, holds
    the line with the source and the two counts, and ends with a line
    break. *)
Theorem X3_fewer_than_five (mp : bool) (stats : bfs_app.Stats) (src h_labels : Z)
    (graph : Csr.t) (elapsed : float) (search_depth total_queued : Z)
    (avg_duty : float) (w : World) :
  Csr.nodes graph <= INT_MAX ->
  let visited := visited_vertices (Csr.nodes graph) (ints_at (heap w) h_labels) in
  let evs := new_events
               (bfs_app.DisplayStats mp stats src h_labels graph elapsed search_depth
                  total_queued avg_duty) w in
  (Z.of_nat (length visited) < 5 ->
   evs = [finished_line (bfs_app.name stats); fewer_line]) /\
  (5 <= Z.of_nat (length visited) ->
   ~ In fewer_line evs /\
   head evs = Some (finished_line (bfs_app.name stats)) /\
   last evs = Some (EvPrintf "\n" []) /\
   exists edges_visited,
     In (source_line src (Z.of_nat (length visited)) edges_visited) evs).
Proof.
  intros Hn visited evs. subst evs.
  rewrite (new_events_add _ _ tt _ _ _ _ (bfs_DisplayStats_run _ _ _ _ _ _ _ _ _ _)).
  unfold bfs_DisplayStats_prints.
  rewrite count_visited_nodes by done. fold visited.
  generalize (snd (bfs_app.count_visited (Csr.nodes graph) (ints_at (heap w) h_labels)
                     (ints_at (heap w) (Csr.row_offsets graph)))).
  intros edges.
  generalize (bfs_app.redundant_work total_queued edges). intros pct.
  unfold fewer_line, finished_line, source_line.
  destruct (Z.ltb_spec (Z.of_nat (length visited)) 5) as [Hlt|Hge].
  - split; [done|lia].
  - split; [lia|]. intros _. split; [|split; [done|split]].
    + intros [E|H]; [discriminate E|].
      rewrite !in_app_iff, !In_singleton_if in H.
      destruct H as [[E|[]]|[[_ E]|[[_ E]|[[E|[]]|[[_ E]|[[_ E]|[E|[]]]]]]]];
        discriminate E.
    + rewrite !app_assoc, app_comm_cons, last_snoc. done.
    + exists edges. right.
      rewrite !in_app_iff. do 3 right. left. by left.
Qed.

Lemma X3_fewer_than_five_witness :
  let w := with_heap (<[500 := IntBuf [0]]> example.lone_memory) example.lone_world in
  Csr.nodes (csr_of example.lone_graph) <= INT_MAX /\
  new_events
    (bfs_app.DisplayStats false (bfs_app.mkStats "GPU Breadth-first search") 0 500
       (csr_of example.lone_graph) (elapsed_millis w) 0 1 0) w =
  [finished_line "GPU Breadth-first search"; fewer_line].
Proof.
  cbv zeta.
  assert (Hn : Csr.nodes (csr_of example.lone_graph) <= INT_MAX) by (by vm_compute).
  split; [exact Hn|].
  apply (proj1 (X3_fewer_than_five false (bfs_app.mkStats "GPU Breadth-first search")
                  0 500 (csr_of example.lone_graph) _ 0 1 0 _ Hn)).
  by vm_compute.
Defined.

(** X4: the optional parts of the report.  When at least five vertices
    were visited, the search depth is printed exactly when it is not 0,
    the total queued exactly when it is positive, and the average duty
    (as a percentage) exactly when it does not compare equal to 0; with
    fewer than five visited none of them is printed. *)
Theorem X4_optional_lines (mp : bool) (stats : bfs_app.Stats) (src h_labels : Z)
    (graph : Csr.t) (elapsed : float) (search_depth total_queued : Z)
    (avg_duty : float) (w : World) :
  Csr.nodes graph <= INT_MAX ->
  let visited := visited_vertices (Csr.nodes graph) (ints_at (heap w) h_labels) in
  let evs := new_events
               (bfs_app.DisplayStats mp stats src h_labels graph elapsed search_depth
                  total_queued avg_duty) w in
  (forall d, In (search_depth_line d) evs <->
             d = search_depth /\ search_depth <> 0 /\ 5 <= Z.of_nat (length visited)) /\
  (forall q, In (total_queued_line q) evs <->
             q = total_queued /\ 0 < total_queued /\ 5 <= Z.of_nat (length visited)) /\
  (forall x, In (duty_line x) evs <->
             x = (avg_duty * 100)%float /\ PrimFloat.eqb avg_duty 0 = false /\
             5 <= Z.of_nat (length visited)).
Proof.
  intros Hn visited evs. subst evs.
  rewrite (new_events_add _ _ tt _ _ _ _ (bfs_DisplayStats_run _ _ _ _ _ _ _ _ _ _)).
  unfold bfs_DisplayStats_prints.
  rewrite count_visited_nodes by done. fold visited.
  generalize (snd (bfs_app.count_visited (Csr.nodes graph) (ints_at (heap w) h_labels)
                     (ints_at (heap w) (Csr.row_offsets graph)))).
  intros edges.
  generalize (bfs_app.redundant_work total_queued edges). intros pct.
  unfold search_depth_line, total_queued_line, duty_line.
  destruct (Z.ltb_spec (Z.of_nat (length visited)) 5) as [Hlt|Hge].
  - split; [|split]; intros v;
      (split; [intros [E|[E|[]]]; discriminate E|intros (_ & _ & ?); lia]).
  - split; [|split].
    + intros d. split.
      * intros [E|H]; [discriminate E|].
        rewrite !in_app_iff, !In_singleton_if in H.
        destruct H as [[E|[]]|[[Hb E]|[[_ E]|[[E|[]]|[[_ E]|[[_ E]|[E|[]]]]]]]];
          try discriminate E.
        injection E as <-. apply negb_true_iff, Z.eqb_neq in Hb. by repeat split.
      * intros (-> & Hne & _). right.
        rewrite !in_app_iff, !In_singleton_if. right. left.
        split; [|done]. by apply negb_true_iff, Z.eqb_neq.
    + intros q. split.
      * intros [E|H]; [discriminate E|].
        rewrite !in_app_iff, !In_singleton_if in H.
        destruct H as [[E|[]]|[[_ E]|[[_ E]|[[E|[]]|[[Hb E]|[[_ E]|[E|[]]]]]]]];
          try discriminate E.
        injection E as <-. apply Z.gtb_lt in Hb. by repeat split.
      * intros (-> & Hpos & _). right.
        rewrite !in_app_iff, !In_singleton_if. do 4 right. left.
        split; [|done]. by apply Z.gtb_lt.
    + intros x. split.
      * intros [E|H]; [discriminate E|].
        rewrite !in_app_iff, !In_singleton_if in H.
        destruct H as [[E|[]]|[[_ E]|[[Hb E]|[[E|[]]|[[_ E]|[[_ E]|[E|[]]]]]]]];
          try discriminate E.
        injection E as <-. apply negb_true_iff in Hb. by repeat split.
      * intros (-> & Hne & _). right.
        rewrite !in_app_iff, !In_singleton_if. do 2 right. left.
        split; [|done]. by apply negb_true_iff.
Qed.

Lemma X4_optional_lines_witness :
  let labels := [0; 1; 1; 2; 3; -1] in
  let w := with_heap (<[500 := IntBuf labels]> example.memory) example.world in
  Csr.nodes (csr_of example.graph) <= INT_MAX /\
  In (search_depth_line 4)
     (new_events
        (bfs_app.DisplayStats false (bfs_app.mkStats "GPU Breadth-first search") 0 500
           (csr_of example.graph) (elapsed_millis w) 4 0 0) w) /\
  ~ In (total_queued_line 0)
     (new_events
        (bfs_app.DisplayStats false (bfs_app.mkStats "GPU Breadth-first search") 0 500
           (csr_of example.graph) (elapsed_millis w) 4 0 0) w).
Proof.
  cbv zeta.
  assert (Hn : Csr.nodes (csr_of example.graph) <= INT_MAX) by (by vm_compute).
  split; [exact Hn|].
  set (w := with_heap (<[500 := IntBuf [0; 1; 1; 2; 3; -1]]> example.memory)
              example.world).
  pose proof (X4_optional_lines false (bfs_app.mkStats "GPU Breadth-first search") 0 500
                (csr_of example.graph) (elapsed_millis w) 4 0 0 w Hn) as (Hd & Hq & _).
  split.
  - apply Hd. split; [done|split; [lia|by vm_compute]].
  - intros H. apply Hq in H as (_ & H & _). lia.
Defined.

(** ** What a run of breadth-first search leaves behind *)

Lemma ints_at_bfs_final_heap {Problem Enactor : Type} (w : World) (nodes : Z)
    (c : BfsCalls Problem Enactor) :
  ints_at (bfs_final_heap w nodes c) (label_block w nodes) =
  if served w nodes then overwrite (fst (snd (extracted c))) (junk_block w nodes) else [].
Proof.
  destruct (served w nodes) eqn:Hsv.
  - rewrite bfs_final_heap_served by done.
    destruct (label_block_served w nodes Hsv) as [-> _].
    destruct (fresh_block_spec w) as [Hnull _].
    unfold ints_at.
    rewrite (proj2 (Z.eqb_neq _ _) Hnull). by rewrite lookup_insert_eq.
  - by destruct (label_block_refused w nodes Hsv) as [-> _].
Qed.


Lemma dom_put_ints (p : Z) (xs : list Z) (h : gmap Z Buffer) :
  dom (put_ints p xs h) = dom h.
Proof.
  unfold put_ints. destruct (p =? NULL); [done|].
  destruct (h !! p) as [[old|old]|] eqn:E; [|done|done].
  by apply dom_insert_lookup_L.
Qed.

Lemma dom_put_floats (p : Z) (xs : list float) (h : gmap Z Buffer) :
  dom (put_floats p xs h) = dom h.
Proof.
  unfold put_floats. destruct (p =? NULL); [done|].
  destruct (h !! p) as [[old|old]|] eqn:E; [done| |done].
  by apply dom_insert_lookup_L.
Qed.

Lemma gunrock_bfs_func_supported {enums : GunrockEnums} {Problem Enactor : Type}
    {engine : BFSEngine Problem Enactor}
    (out gin : GunrockGraph) (cfg : GunrockConfig) (dt : GunrockDataType) (w : World) :
  bfs_supported dt ->
  let c := bfs_dispatch_calls gin cfg (CreateCudaDevice (device cfg)) w in
  fst (bfs_app.gunrock_bfs_func out gin cfg dt w) =
    set_node_values out (label_block w (num_nodes gin)) /\
  heap (snd (bfs_app.gunrock_bfs_func out gin cfg dt w)) =
    bfs_final_heap w (num_nodes gin) c.
Proof.
  intros Hs c. unfold bfs_app.gunrock_bfs_func.
  destruct (dispatch_bfs_run out gin cfg dt (CreateCudaDevice (device cfg)) w Hs)
    as [n ->].
  cbn [fst snd]. by autorewrite with world.
Qed.

(** X6: two runs of the BFS entry point one after the other, on any
    graphs and configurations, each of whose label arrays [malloc]
    serves, return label blocks that are distinct and not null; the
    labels of the first run, one per vertex of its graph, are still in
    place after the second. *)
Theorem X6_successive_runs {enums : GunrockEnums} {Problem Enactor : Type}
    {engine : BFSEngine Problem Enactor}
    (out1 out2 gin1 gin2 : GunrockGraph) (cfg1 cfg2 : GunrockConfig)
    (dt : GunrockDataType) (w : World) :
  bfs_supported dt ->
  let r1 := bfs_app.gunrock_bfs_func out1 gin1 cfg1 dt w in
  let r2 := bfs_app.gunrock_bfs_func out2 gin2 cfg2 dt (snd r1) in
  served w (num_nodes gin1) = true ->
  served (snd r1) (num_nodes gin2) = true ->
  node_values (fst r1) <> NULL /\
  node_values (fst r2) <> NULL /\
  node_values (fst r1) <> node_values (fst r2) /\
  exists labels,
    length labels = Z.to_nat (num_nodes gin1) /\
    heap (snd r1) !! node_values (fst r1) = Some (IntBuf labels) /\
    heap (snd r2) !! node_values (fst r1) = Some (IntBuf labels).
Proof.
  intros Hs r1 r2 Hsv1 Hsv2.
  destruct (gunrock_bfs_func_supported out1 gin1 cfg1 dt w Hs) as [E1 H1].
  destruct (gunrock_bfs_func_supported out2 gin2 cfg2 dt (snd r1) Hs) as [E2 H2].
  fold r1 in E1, H1. fold r2 in E2, H2.
  rewrite bfs_final_heap_served in H1, H2 by done.
  rewrite E1, E2. cbn [node_values set_node_values].
  destruct (label_block_served w (num_nodes gin1) Hsv1) as [-> _].
  destruct (label_block_served (snd r1) (num_nodes gin2) Hsv2) as [-> _].
  destruct (fresh_block_spec w) as [Hn1 Hf1].
  destruct (fresh_block_spec (snd r1)) as [Hn2 Hf2].
  assert (Hl1 : heap (snd r1) !! fresh_block w =
                Some (IntBuf (overwrite
                        (fst (snd (extracted
                           (bfs_dispatch_calls gin1 cfg1 (CreateCudaDevice (device cfg1)) w))))
                        (junk_block w (num_nodes gin1)))))
    by (by rewrite H1, lookup_insert_eq).
  assert (Hne : fresh_block w <> fresh_block (snd r1)) by congruence.
  split; [done|split; [done|split; [done|]]].
  eexists. split; [|split; [exact Hl1|]].
  - by rewrite length_overwrite, length_junk_block.
  - rewrite H2, lookup_insert_ne by done. exact Hl1.
Qed.

Lemma X6_successive_runs_witness :
  let cfg := example.config 0 0 false false in
  let r1 := bfs_app.gunrock_bfs_func (enums := example.enumerators) (engine := example.bfs)
              example.graph example.graph cfg example.int_types example.world in
  let r2 := bfs_app.gunrock_bfs_func (enums := example.enumerators) (engine := example.bfs)
              example.graph example.graph cfg example.int_types (snd r1) in
  bfs_supported (enums := example.enumerators) example.int_types /\
  served example.world 6 = true /\ served (snd r1) 6 = true /\
  node_values (fst r1) <> node_values (fst r2).
Proof.
  cbv zeta.
  assert (Hs : bfs_supported (enums := example.enumerators) example.int_types)
    by (by repeat split).
  assert (Hsv1 : served example.world (num_nodes example.graph) = true) by reflexivity.
  assert (Hsv2 : served
                   (snd (bfs_app.gunrock_bfs_func (enums := example.enumerators)
                           (engine := example.bfs) example.graph example.graph
                           (example.config 0 0 false false) example.int_types
                           example.world))
                   (num_nodes example.graph) = true) by (by vm_compute).
  split; [exact Hs|split; [exact Hsv1|split; [exact Hsv2|]]].
  exact (proj1 (proj2 (proj2
           (X6_successive_runs (enums := example.enumerators) (engine := example.bfs)
              example.graph example.graph example.graph example.graph
              (example.config 0 0 false false) (example.config 0 0 false false)
              example.int_types example.world Hs Hsv1 Hsv2)))).
Defined.

(** X7: the host blocks an entry point leaves.  A BFS run whose label
    array [malloc] serves adds exactly one block, the one it publishes as
    [node_values], at an address that was free, and releases none; a BFS
    run whose request is not served, and the BFS entry point for other
    data types, leave memory as it was.  The PageRank entry point neither
    adds nor releases a block, whatever the data types. *)
Theorem X7_allocation_footprint {enums : GunrockEnums} {BP BE PP PE : Type}
    {bfs : BFSEngine BP BE} {pr : PREngine PP PE}
    (out gin : GunrockGraph) (cfg : GunrockConfig) (dt : GunrockDataType)
    (node_ids page_rank : Z) (w : World) :
  let rb := bfs_app.gunrock_bfs_func out gin cfg dt w in
  let hb := heap (snd rb) in
  let hp := heap (snd (pr_app.gunrock_pr_func out node_ids page_rank gin cfg dt w)) in
  (bfs_supported dt -> served w (num_nodes gin) = true ->
   (node_values (fst rb) ∉ dom (heap w)) /\
   dom hb = {[node_values (fst rb)]} ∪ dom (heap w)) /\
  (bfs_supported dt -> served w (num_nodes gin) = false -> hb = heap w) /\
  (~ bfs_supported dt -> hb = heap w) /\
  dom hp = dom (heap w).
Proof.
  intros rb hb hp. subst rb hb hp. split; [|split; [|split]].
  - intros Hs Hsv.
    destruct (gunrock_bfs_func_supported out gin cfg dt w Hs) as [-> ->].
    rewrite bfs_final_heap_served by done. cbn [node_values set_node_values].
    destruct (label_block_served w (num_nodes gin) Hsv) as [-> _].
    destruct (fresh_block_spec w) as [_ Hf].
    split; [by apply not_elem_of_dom|]. by rewrite dom_insert_L.
  - intros Hs Hsv.
    destruct (gunrock_bfs_func_supported out gin cfg dt w Hs) as [_ ->].
    by rewrite bfs_final_heap_refused.
  - intros Hs. unfold bfs_app.gunrock_bfs_func.
    rewrite dispatch_bfs_unsupported by done. cbn [snd]. by autorewrite with world.
  - unfold pr_app.gunrock_pr_func.
    destruct (pr_supported_dec dt) as [Hs|Hs].
    + rewrite dispatch_page_rank_heap by done. unfold pr_final_heap.
      by rewrite dom_put_ints, dom_put_floats.
    + rewrite dispatch_page_rank_unsupported by done. cbn [snd].
      by autorewrite with world.
Qed.

Lemma X7_allocation_footprint_witness :
  let rb := bfs_app.gunrock_bfs_func (enums := example.enumerators)
              (engine := example.bfs) example.graph example.graph
              (example.config 0 0 false false) example.int_types example.world in
  bfs_supported (enums := example.enumerators) example.int_types /\
  served example.world 6 = true /\
  dom (heap (snd rb)) = {[node_values (fst rb)]} ∪ dom (heap example.world).
Proof.
  cbv zeta.
  assert (Hs : bfs_supported (enums := example.enumerators) example.int_types)
    by (by repeat split).
  assert (Hsv : served example.world (num_nodes example.graph) = true) by reflexivity.
  split; [exact Hs|split; [exact Hsv|]].
  exact (proj2 (proj1 (X7_allocation_footprint (enums := example.enumerators)
                         (bfs := example.bfs) (pr := example.pr)
                         example.graph example.graph (example.config 0 0 false false)
                         example.int_types 400 300 example.world) Hs Hsv)).
Defined.


Lemma put_floats_at p xs old h :
  p <> NULL -> h !! p = Some (FloatBuf old) ->
  put_floats p xs h = <[p := FloatBuf (overwrite xs old)]> h.
Proof.
  intros Hp Hl. unfold put_floats. by rewrite (proj2 (Z.eqb_neq _ _) Hp), Hl.
Qed.

(** X19: what [Extract] copies out is what the caller reads.  When
    [malloc] served the label array and [Extract] delivers one label per
    vertex, the array published as [node_values] holds exactly these
    labels.  When the caller's rank and
    vertex-id buffers are live blocks of the sizes [Extract] fills, they
    hold exactly the ranks and the vertex ids it delivered. *)
Theorem X19_extracted_values_delivered :
  (forall (BP BE : Type) (bfs : BFSEngine BP BE) mp idem out g src mgs n q ctx w,
     let c := bfs_calls mp idem
                (Csr.load g (label_memory w (Csr.nodes g)))
                src mgs n q ctx (label_block w (Csr.nodes g)) NULL in
     let r := bfs_app.run_bfs mp idem out g src mgs n q ctx w in
     served w (Csr.nodes g) = true ->
     length (fst (snd (extracted c))) = Z.to_nat (Csr.nodes g) ->
     ints_at (heap (snd r)) (node_values (fst r)) = fst (snd (extracted c)))
  /\
  (forall (PP PE : Type) (pr : PREngine PP PE)
          out node_ids page_rank g source delta error max_iter mgs n ctx w
          (old_ranks : list float) (old_ids : list Z),
     let c := pr_calls (Csr.load g (heap w)) source delta error max_iter mgs n ctx
                page_rank node_ids in
     let r := pr_app.run_page_rank out node_ids page_rank g source delta error max_iter
                mgs n ctx w in
     page_rank <> NULL -> node_ids <> NULL ->
     heap w !! page_rank = Some (FloatBuf old_ranks) ->
     heap w !! node_ids = Some (IntBuf old_ids) ->
     length (fst (snd (pr_extracted c))) = length old_ranks ->
     length (snd (snd (pr_extracted c))) = length old_ids ->
     floats_at (heap (snd r)) page_rank = fst (snd (pr_extracted c)) /\
     ints_at (heap (snd r)) node_ids = snd (snd (pr_extracted c))).
Proof.
  split.
  - intros BP BE bfs mp idem out g src mgs n q ctx w c r Hsv Hlen. subst r.
    pose proof (run_bfs_run mp idem out g src mgs n q ctx w) as Hrun. cbv zeta in Hrun.
    rewrite Hrun. clear Hrun. cbn [fst snd node_values set_node_values].
    autorewrite with world. fold c.
    rewrite ints_at_bfs_final_heap, Hsv.
    apply overwrite_same_length. by rewrite length_junk_block.
  - intros PP PE pr out node_ids page_rank g source delta error max_iter mgs n ctx w
           old_ranks old_ids c r Hp Hi Hlp Hli Hlenp Hleni. subst r.
    pose proof (run_page_rank_run out node_ids page_rank g source delta error max_iter
                  mgs n ctx w) as Hrun. cbv zeta in Hrun.
    rewrite Hrun. clear Hrun. cbn [snd]. autorewrite with world. fold c.
    unfold pr_final_heap.
    assert (Hne : page_rank <> node_ids) by congruence.
    rewrite (put_floats_at _ _ _ _ Hp Hlp).
    rewrite (put_ints_at node_ids _ old_ids) by (by rewrite ?lookup_insert_ne).
    unfold floats_at, ints_at.
    rewrite (proj2 (Z.eqb_neq _ _) Hp), (proj2 (Z.eqb_neq _ _) Hi).
    rewrite lookup_insert_ne, !lookup_insert_eq by done.
    by rewrite !overwrite_same_length.
Qed.

Lemma X19_extracted_values_delivered_witness :
  let r := bfs_app.run_bfs (engine := example.bfs) false false example.graph
             (csr_of example.graph) 0 0 1 1%float 0 example.world in
  served example.world 6 = true /\
  ints_at (heap (snd r)) (node_values (fst r)) = [0; 1; 1; 2; 3; -1].
Proof.
  cbv zeta.
  assert (Hsv : served example.world (Csr.nodes (csr_of example.graph)) = true)
    by reflexivity.
  assert (Hlen : length (fst (snd (extracted
                   (bfs_calls (engine := example.bfs) false false
                      (Csr.load (csr_of example.graph)
                         (label_memory example.world (Csr.nodes (csr_of example.graph))))
                      0 0 1 1%float 0
                      (label_block example.world (Csr.nodes (csr_of example.graph)))
                      NULL)))) =
                 Z.to_nat (Csr.nodes (csr_of example.graph)))
    by (by vm_compute).
  split; [exact Hsv|].
  rewrite (proj1 X19_extracted_values_delivered _ _ example.bfs false false
             example.graph (csr_of example.graph) 0 0 1 1%float 0 example.world
             Hsv Hlen).
  by vm_compute.
Defined.

(** ** What the entry points read and what they leave alone *)

(** X9: the BFS entry point reads the device, the source mode, the
    source vertex, the two flags and the queue sizing factor of its
    configuration, and the sizes and the two array pointers of its input
    graph.  The damping factor, the error threshold, the iteration bound
    and the input graph's [node_values] have no effect on the run. *)
Theorem X9_bfs_configuration_read {enums : GunrockEnums} {Problem Enactor : Type}
    {engine : BFSEngine Problem Enactor}
    (out gin gin' : GunrockGraph) (cfg cfg' : GunrockConfig) (dt : GunrockDataType)
    (w : World) :
  device cfg = device cfg' -> src_mode cfg = src_mode cfg' ->
  src_node cfg = src_node cfg' -> mark_pred cfg = mark_pred cfg' ->
  idempotence cfg = idempotence cfg' -> queue_size cfg = queue_size cfg' ->
  num_nodes gin = num_nodes gin' -> num_edges gin = num_edges gin' ->
  row_offsets gin = row_offsets gin' -> col_indices gin = col_indices gin' ->
  bfs_app.gunrock_bfs_func out gin cfg dt w = bfs_app.gunrock_bfs_func out gin' cfg' dt w.
Proof.
  intros Hd Hm Hs Hp Hi Hq Hn He Hr Hc.
  unfold bfs_app.gunrock_bfs_func, bfs_app.dispatch_bfs, bfs_app.bfs_source.
  by rewrite Hd, Hm, Hs, Hp, Hi, Hq, Hn, He, Hr, Hc.
Qed.

Lemma X9_bfs_configuration_read_witness :
  let cfg := example.config 0 0 false false in
  let cfg' := mkConfig 0 0 0 false false 1%float 0x1p-1%float 0x1p-10%float 3 in
  bfs_app.gunrock_bfs_func (enums := example.enumerators) (engine := example.bfs)
    example.graph example.graph cfg example.int_types example.world =
  bfs_app.gunrock_bfs_func (enums := example.enumerators) (engine := example.bfs)
    example.graph (mkGraph 6 6 100 200 400) cfg' example.int_types example.world.
Proof.
  cbv zeta.
  apply (X9_bfs_configuration_read (enums := example.enumerators) (engine := example.bfs)
           example.graph example.graph (mkGraph 6 6 100 200 400)
           (example.config 0 0 false false)
           (mkConfig 0 0 0 false false 1%float 0x1p-1%float 0x1p-10%float 3)
           example.int_types example.world); reflexivity.
Defined.

(** X10: the PageRank entry point reads the device, the source mode, the
    source vertex, the damping factor, the error threshold and the
    iteration bound of its configuration, and the sizes and the two
    array pointers of its input graph.  The two BFS flags, the queue
    sizing factor, the input graph's [node_values] and the output graph
    have no effect on the run. *)
Theorem X10_pr_configuration_read {enums : GunrockEnums} {Problem Enactor : Type}
    {engine : PREngine Problem Enactor}
    (out out' gin gin' : GunrockGraph) (node_ids page_rank : Z)
    (cfg cfg' : GunrockConfig) (dt : GunrockDataType) (w : World) :
  device cfg = device cfg' -> src_mode cfg = src_mode cfg' ->
  src_node cfg = src_node cfg' -> delta cfg = delta cfg' ->
  error cfg = error cfg' -> max_iter cfg = max_iter cfg' ->
  num_nodes gin = num_nodes gin' -> num_edges gin = num_edges gin' ->
  row_offsets gin = row_offsets gin' -> col_indices gin = col_indices gin' ->
  pr_app.gunrock_pr_func out node_ids page_rank gin cfg dt w =
  pr_app.gunrock_pr_func out' node_ids page_rank gin' cfg' dt w.
Proof.
  intros Hd Hm Hs Hp Hi Hq Hn He Hr Hc.
  unfold pr_app.gunrock_pr_func, pr_app.dispatch_page_rank, pr_app.pr_source.
  by rewrite Hd, Hm, Hs, Hp, Hi, Hq, Hn, He, Hr, Hc.
Qed.

Lemma X10_pr_configuration_read_witness :
  let cfg := example.config 0 0 false false in
  let cfg' := mkConfig 0 0 0 true true 0x1p+1%float 0x1.b333333333333p-1%float
                0x1.47ae147ae147bp-7%float 20 in
  pr_app.gunrock_pr_func (enums := example.enumerators) (engine := example.pr)
    example.graph 400 300 example.graph cfg example.float_types example.world =
  pr_app.gunrock_pr_func (enums := example.enumerators) (engine := example.pr)
    example.lone_graph 400 300 (mkGraph 6 6 100 200 400) cfg' example.float_types
    example.world.
Proof.
  cbv zeta.
  apply (X10_pr_configuration_read (enums := example.enumerators) (engine := example.pr)
           example.graph example.lone_graph example.graph (mkGraph 6 6 100 200 400)
           400 300 (example.config 0 0 false false)
           (mkConfig 0 0 0 true true 0x1p+1%float 0x1.b333333333333p-1%float
              0x1.47ae147ae147bp-7%float 20)
           example.float_types example.world); reflexivity.
Defined.

(** X11: no data-type descriptor serves both entry points.  A descriptor
    for which BFS runs makes the PageRank entry point print its message
    and nothing more; a descriptor for which PageRank runs makes the BFS
    entry point print its message and return its output graph as it
    was. *)
Theorem X11_no_shared_descriptor {enums : GunrockEnums} {BP BE PP PE : Type}
    {bfs : BFSEngine BP BE} {pr : PREngine PP PE}
    (out gin : GunrockGraph) (cfg : GunrockConfig) (dt : GunrockDataType)
    (node_ids page_rank : Z) (w : World) :
  (bfs_supported dt ->
   ~ pr_supported dt /\
   new_events (pr_app.gunrock_pr_func out node_ids page_rank gin cfg dt) w =
     [unsupported_signal]) /\
  (pr_supported dt ->
   ~ bfs_supported dt /\
   bfs_app.gunrock_bfs_func out gin cfg dt w = (out, add_events [unsupported_signal] w)).
Proof.
  destruct ValueType_ne as (Hiu & Hif & Huf).
  split.
  - intros (Hv & Hz & Hval).
    assert (Hns : ~ pr_supported dt) by (intros (_ & _ & H); congruence).
    split; [exact Hns|].
    unfold pr_app.gunrock_pr_func.
    assert (Hsig : pr_signalled dt = true).
    { unfold pr_signalled. by rewrite Hv, Hz, Hval, !Z.eqb_refl. }
    apply (new_events_add _ _ tt (heap w) _ (random_source w) (random_drawn w)).
    rewrite dispatch_page_rank_unsupported by done. by rewrite Hsig.
  - intros (Hv & Hz & Hval).
    assert (Hns : ~ bfs_supported dt) by (intros (_ & _ & H); congruence).
    split; [exact Hns|].
    unfold bfs_app.gunrock_bfs_func.
    assert (Hsig : bfs_signalled dt = true).
    { unfold bfs_signalled. rewrite Hv, Hz, Hval, !Z.eqb_refl. by rewrite orb_true_r. }
    rewrite dispatch_bfs_unsupported by done. by rewrite Hsig.
Qed.

Lemma random_drawn_add_events evs w : random_drawn (add_events evs w) = random_drawn w.
Proof. reflexivity. Qed.

Lemma random_drawn_with_heap h w : random_drawn (with_heap h w) = random_drawn w.
Proof. reflexivity. Qed.

(** X12: an entry point calls [RandomNode] once when it runs in source
    mode [randomize], and never otherwise: not in another mode, and not
    when the data types are not the supported ones. *)
Theorem X12_random_draws {enums : GunrockEnums} {BP BE PP PE : Type}
    {bfs : BFSEngine BP BE} {pr : PREngine PP PE}
    (out gin : GunrockGraph) (cfg : GunrockConfig) (dt : GunrockDataType)
    (node_ids page_rank : Z) (w : World) :
  let wb := snd (bfs_app.gunrock_bfs_func out gin cfg dt w) in
  let wp := snd (pr_app.gunrock_pr_func out node_ids page_rank gin cfg dt w) in
  (bfs_supported dt -> src_mode cfg = randomize -> random_drawn wb = S (random_drawn w)) /\
  (~ (bfs_supported dt /\ src_mode cfg = randomize) -> random_drawn wb = random_drawn w) /\
  (pr_supported dt -> src_mode cfg = randomize -> random_drawn wp = S (random_drawn w)) /\
  (~ (pr_supported dt /\ src_mode cfg = randomize) -> random_drawn wp = random_drawn w).
Proof.
  intros wb wp. subst wb wp.
  unfold bfs_app.gunrock_bfs_func, pr_app.gunrock_pr_func.
  assert (Hb : bfs_supported dt ->
               random_drawn (snd (bfs_app.dispatch_bfs out gin cfg dt
                                    (CreateCudaDevice (device cfg)) w)) =
               random_drawn (snd (bfs_app.bfs_source (csr_of gin) cfg w))).
  { intros Hs. rewrite dispatch_bfs_supported by done.
    pose proof (run_bfs_run (mark_pred cfg) (idempotence cfg) out (csr_of gin)
                  (fst (bfs_app.bfs_source (csr_of gin) cfg w)) 0 1 (queue_size cfg)
                  (CreateCudaDevice (device cfg))
                  (snd (bfs_app.bfs_source (csr_of gin) cfg w))) as Hrun.
    cbv zeta in Hrun. rewrite Hrun. cbn [snd].
    by rewrite random_drawn_with_heap, random_drawn_add_events. }
  assert (Hp : pr_supported dt ->
               random_drawn (snd (pr_app.dispatch_page_rank out node_ids page_rank gin cfg dt
                                    (CreateCudaDevice (device cfg)) w)) =
               random_drawn (snd (pr_app.pr_source (csr_of gin) cfg w))).
  { intros Hs. rewrite dispatch_page_rank_supported by done.
    pose proof (run_page_rank_run out node_ids page_rank (csr_of gin)
                  (fst (pr_app.pr_source (csr_of gin) cfg w)) (delta cfg) (error cfg)
                  (max_iter cfg) 0 1 (CreateCudaDevice (device cfg))
                  (snd (pr_app.pr_source (csr_of gin) cfg w))) as Hrun.
    cbv zeta in Hrun. rewrite Hrun. cbn [snd].
    by rewrite random_drawn_with_heap, random_drawn_add_events. }
  assert (Hsb : forall w', random_drawn (snd (bfs_app.bfs_source (csr_of gin) cfg w')) =
                  if src_mode cfg =? randomize then S (random_drawn w') else random_drawn w').
  { intros w'. rewrite bfs_source_cases.
    destruct (src_mode cfg =? randomize); [done|].
    destruct (src_mode cfg =? largest_degree); [done|].
    by destruct (src_mode cfg =? manually). }
  assert (Hsp : forall w', random_drawn (snd (pr_app.pr_source (csr_of gin) cfg w')) =
                  if src_mode cfg =? randomize then S (random_drawn w') else random_drawn w').
  { intros w'. rewrite pr_source_cases.
    destruct (src_mode cfg =? randomize); [done|].
    destruct (src_mode cfg =? largest_degree); [done|].
    by destruct (src_mode cfg =? manually). }
  split; [|split; [|split]].
  - intros Hs Hm. by rewrite Hb, Hsb, Hm, Z.eqb_refl.
  - intros Hno. destruct (bfs_supported_dec dt) as [Hs|Hs].
    + rewrite Hb, Hsb by done.
      destruct (Z.eqb_spec (src_mode cfg) randomize) as [Hm|Hm]; [|done].
      exfalso. by apply Hno.
    + by rewrite dispatch_bfs_unsupported.
  - intros Hs Hm. by rewrite Hp, Hsp, Hm, Z.eqb_refl.
  - intros Hno. destruct (pr_supported_dec dt) as [Hs|Hs].
    + rewrite Hp, Hsp by done.
      destruct (Z.eqb_spec (src_mode cfg) randomize) as [Hm|Hm]; [|done].
      exfalso. by apply Hno.
    + by rewrite dispatch_page_rank_unsupported.
Qed.

(** X13: of the output graph, the BFS entry point sets [node_values]
    and nothing else: the sizes and the two array pointers are returned
    as they were passed in, not copied from the input graph.
    [node_values] becomes the pointer [malloc] returned: a new block
    when the request was served, the null pointer when it was not; for
    other data types it is left as it was. *)
Theorem X13_output_graph_fields {enums : GunrockEnums} {Problem Enactor : Type}
    {engine : BFSEngine Problem Enactor}
    (out gin : GunrockGraph) (cfg : GunrockConfig) (dt : GunrockDataType) (w : World) :
  let r := fst (bfs_app.gunrock_bfs_func out gin cfg dt w) in
  num_nodes r = num_nodes out /\ num_edges r = num_edges out /\
  row_offsets r = row_offsets out /\ col_indices r = col_indices out /\
  (bfs_supported dt -> node_values r = fst (malloc_ints (num_nodes gin) w)) /\
  (bfs_supported dt -> served w (num_nodes gin) = true ->
   node_values r <> NULL /\ heap w !! node_values r = None) /\
  (bfs_supported dt -> served w (num_nodes gin) = false -> node_values r = NULL) /\
  (~ bfs_supported dt -> node_values r = node_values out).
Proof.
  intros r. subst r.
  destruct (bfs_supported_dec dt) as [Hs|Hs].
  - destruct (gunrock_bfs_func_supported out gin cfg dt w Hs) as [-> _].
    rewrite malloc_ints_run.
    cbn [fst node_values set_node_values num_nodes num_edges row_offsets col_indices].
    split; [done|split; [done|split; [done|split; [done|]]]].
    split; [done|split; [|split; [|done]]].
    + intros _ Hsv. destruct (label_block_served w (num_nodes gin) Hsv) as [-> _].
      apply fresh_block_spec.
    + intros _ Hsv. by destruct (label_block_refused w (num_nodes gin) Hsv) as [-> _].
  - unfold bfs_app.gunrock_bfs_func. rewrite dispatch_bfs_unsupported by done.
    by repeat split.
Qed.

Lemma X13_output_graph_fields_witness :
  let gin := mkGraph (-1) 0 100 200 NULL in
  bfs_supported (enums := example.enumerators) example.int_types /\
  served example.world (num_nodes gin) = false /\
  node_values
    (fst (bfs_app.gunrock_bfs_func (enums := example.enumerators) (engine := example.bfs)
            example.graph gin (example.config 0 0 false false) example.int_types
            example.world)) = NULL.
Proof.
  cbv zeta.
  assert (Hs : bfs_supported (enums := example.enumerators) example.int_types)
    by (by repeat split).
  assert (Hsv : served example.world (num_nodes (mkGraph (-1) 0 100 200 NULL)) = false)
    by reflexivity.
  split; [exact Hs|split; [exact Hsv|]].
  exact (proj1 (proj2 (proj2 (proj2 (proj2 (proj2 (proj2
           (X13_output_graph_fields (enums := example.enumerators)
              (engine := example.bfs) example.graph (mkGraph (-1) 0 100 200 NULL)
              (example.config 0 0 false false) example.int_types example.world)))))))
           Hs Hsv).
Defined.

(** A run in a world whose allocator serves nothing: the entry point
    publishes the null pointer and leaves memory as it was. *)
Lemma run_without_memory :
  let r := bfs_app.gunrock_bfs_func (enums := example.enumerators) (engine := example.bfs)
             example.graph example.graph (example.config 0 0 false false)
             example.int_types example.full_world in
  served example.full_world 6 = false /\
  node_values (fst r) = NULL /\
  heap (snd r) = example.memory.
Proof.
  cbv zeta. repeat split; vm_compute; reflexivity.
Qed.

(** ** The comparison of rank pairs *)

Ltac fold_pos_compare :=
  repeat match goal with
  | |- context [Pos.compare_cont Eq ?a ?b] =>
      change (Pos.compare_cont Eq a b) with (Pos.compare a b)
  | H : context [Pos.compare_cont Eq ?a ?b] |- _ =>
      change (Pos.compare_cont Eq a b) with (Pos.compare a b) in H
  end.

Lemma SFcompare_Lt_trans (x y z : SpecFloat.spec_float) :
  SpecFloat.SFcompare x y = Some Lt -> SpecFloat.SFcompare y z = Some Lt ->
  SpecFloat.SFcompare x z = Some Lt.
Proof.
  destruct x as [sx|sx| |sx mx ex], y as [sy|sy| |sy my ey], z as [sz|sz| |sz mz ez];
    cbn [SpecFloat.SFcompare];
    try destruct sx; try destruct sy; try destruct sz;
    try congruence.
  all: fold_pos_compare.
  all: destruct (Z.compare_spec ex ey), (Z.compare_spec ey ez), (Z.compare_spec ex ez);
      try congruence; try lia; subst.
  all: destruct (Pos.compare_spec mx my), (Pos.compare_spec my mz), (Pos.compare_spec mx mz);
      cbn [CompOpp]; try congruence; try lia.
Qed.

Lemma SFcompare_antisym (x y : SpecFloat.spec_float) :
  SpecFloat.SFcompare y x = option_map CompOpp (SpecFloat.SFcompare x y).
Proof.
  destruct x as [sx|sx| |sx mx ex], y as [sy|sy| |sy my ey];
    cbn [SpecFloat.SFcompare option_map CompOpp];
    try destruct sx; try destruct sy; cbn [CompOpp]; try reflexivity.
  all: fold_pos_compare.
  all: rewrite (Z.compare_antisym ey ex);
    destruct (Z.compare_spec ey ex); cbn [CompOpp]; try reflexivity; subst.
  all: rewrite (Pos.compare_antisym my mx); by destruct (Pos.compare my mx).
Qed.

Lemma SFcompare_Eq_trans (x y z : SpecFloat.spec_float) :
  SpecFloat.SFcompare x y = Some Eq -> SpecFloat.SFcompare y z = Some Eq ->
  SpecFloat.SFcompare x z = Some Eq.
Proof.
  destruct x as [sx|sx| |sx mx ex], y as [sy|sy| |sy my ey], z as [sz|sz| |sz mz ez];
    cbn [SpecFloat.SFcompare];
    try destruct sx; try destruct sy; try destruct sz;
    try congruence.
  all: fold_pos_compare.
  all: destruct (Z.compare_spec ex ey), (Z.compare_spec ey ez), (Z.compare_spec ex ez);
      try congruence; try lia; subst.
  all: destruct (Pos.compare_spec mx my), (Pos.compare_spec my mz), (Pos.compare_spec mx mz);
      cbn [CompOpp]; try congruence; try lia.
Qed.

Lemma SFcompare_nan_iff (x y : SpecFloat.spec_float) :
  SpecFloat.SFcompare x y = None <->
  SpecFloat.SFcompare x x = None \/ SpecFloat.SFcompare y y = None.
Proof.
  destruct x as [sx|sx| |sx mx ex], y as [sy|sy| |sy my ey];
    cbn [SpecFloat.SFcompare]; try destruct sx; try destruct sy;
    split; try tauto; try congruence; intros [H|H]; congruence.
Qed.

(** X14: [PRCompare] is a strict order on rank pairs, whatever the
    ranks are (infinities and NaN included): no pair comes before
    itself, two pairs never come before each other both ways, and the
    relation is transitive. *)
Theorem X14_PRCompare_strict_order (a b c : pr_app.RankPair) :
  pr_app.PRCompare a a = false /\
  (pr_app.PRCompare a b = true -> pr_app.PRCompare b a = false) /\
  (pr_app.PRCompare a b = true -> pr_app.PRCompare b c = true -> pr_app.PRCompare a c = true).
Proof.
  unfold pr_app.PRCompare. rewrite !FloatAxioms.ltb_spec. unfold SpecFloat.SFltb.
  generalize (Prim2SF (pr_app.page_rank a)) (Prim2SF (pr_app.page_rank b)) (Prim2SF (pr_app.page_rank c)).
  intros x y z. split; [|split].
  - pose proof (SFcompare_antisym x x) as H.
    destruct (SpecFloat.SFcompare x x) as [[]|]; cbn in H; congruence.
  - rewrite (SFcompare_antisym y x).
    by destruct (SpecFloat.SFcompare y x) as [[]|].
  - intros H1 H2.
    destruct (SpecFloat.SFcompare y x) as [[]|] eqn:Eyx; try discriminate.
    destruct (SpecFloat.SFcompare z y) as [[]|] eqn:Ezy; try discriminate.
    by rewrite (SFcompare_Lt_trans _ _ _ Ezy Eyx).
Qed.

(** X15: what [PRCompare] leaves unordered.  A pair whose rank is NaN is
    ordered with no pair at all.  Pairs whose ranks are numbers are
    unordered exactly when the ranks compare equal, whatever their vertex
    ids are, and being unordered is transitive among them: on ranks that
    are numbers, [PRCompare] is a strict weak ordering by descending
    rank. *)
Theorem X15_PRCompare_unordered (a b c : pr_app.RankPair) :
  let unordered (x y : pr_app.RankPair) :=
    pr_app.PRCompare x y = false /\ pr_app.PRCompare y x = false in
  (PrimFloat.is_nan (pr_app.page_rank a) = true -> unordered a b) /\
  (PrimFloat.is_nan (pr_app.page_rank a) = false -> PrimFloat.is_nan (pr_app.page_rank b) = false ->
   (unordered a b <-> PrimFloat.eqb (pr_app.page_rank a) (pr_app.page_rank b) = true)) /\
  (PrimFloat.is_nan (pr_app.page_rank a) = false -> PrimFloat.is_nan (pr_app.page_rank b) = false ->
   PrimFloat.is_nan (pr_app.page_rank c) = false ->
   unordered a b -> unordered b c -> unordered a c).
Proof.
  cbv zeta. unfold pr_app.PRCompare, PrimFloat.is_nan. rewrite !FloatAxioms.ltb_spec, !FloatAxioms.eqb_spec.
  unfold SpecFloat.SFltb, SpecFloat.SFeqb.
  generalize (Prim2SF (pr_app.page_rank a)) (Prim2SF (pr_app.page_rank b)) (Prim2SF (pr_app.page_rank c)).
  intros x y z.
  assert (Hcases : forall u v,
    (match SpecFloat.SFcompare u u with Some Eq => true | _ => false end) = true ->
    (match SpecFloat.SFcompare v v with Some Eq => true | _ => false end) = true ->
    (match SpecFloat.SFcompare v u with Some Lt => true | _ => false end = false /\
     match SpecFloat.SFcompare u v with Some Lt => true | _ => false end = false) <->
    SpecFloat.SFcompare u v = Some Eq).
  { intros u v Hu Hv. rewrite (SFcompare_antisym u v).
    destruct (SpecFloat.SFcompare u v) as [[]|] eqn:E; cbn [option_map CompOpp];
      try (split; [intros [? ?]|]; congruence).
    - split; [done|]. done.
    - exfalso. apply SFcompare_nan_iff in E as [E|E]; rewrite E in *; discriminate. }
  split; [|split].
  - intros Hn. apply negb_true_iff in Hn.
    assert (Hx : SpecFloat.SFcompare x x = None).
    { destruct x as [[]|[]| |[] ? ?]; cbn [SpecFloat.SFcompare] in *; fold_pos_compare;
        rewrite ?Z.compare_refl, ?Pos.compare_refl in Hn; cbn in Hn; congruence. }
    rewrite (proj2 (SFcompare_nan_iff y x) (or_intror Hx)).
    by rewrite (proj2 (SFcompare_nan_iff x y) (or_introl Hx)).
  - intros Hx Hy. apply negb_false_iff in Hx, Hy.
    rewrite (Hcases x y Hx Hy).
    by destruct (SpecFloat.SFcompare x y) as [[]|].
  - intros Hx Hy Hz Hab Hbc. apply negb_false_iff in Hx, Hy, Hz.
    apply (Hcases x y Hx Hy) in Hab. apply (Hcases y z Hy Hz) in Hbc.
    apply (Hcases x z Hx Hz). by apply SFcompare_Eq_trans with y.
Qed.
(** ** What a run prints and reports *)

Lemma printfs_app a b :
  List.filter is_printf (a ++ b) = List.filter is_printf a ++ List.filter is_printf b.
Proof. apply List.filter_app. Qed.

Lemma printfs_gr_report e message : List.filter is_printf (gr_report e message) = [].
Proof. unfold gr_report. by destruct (failed e). Qed.

Lemma printfs_all evs : forallb is_printf evs = true -> List.filter is_printf evs = evs.
Proof.
  induction evs as [|e evs IH]; [done|]. cbn [forallb List.filter].
  intros [He Hrest]%andb_true_iff. rewrite He. f_equal. by apply IH.
Qed.

Lemma reports_app a b :
  List.filter is_report (a ++ b) = List.filter is_report a ++ List.filter is_report b.
Proof. apply List.filter_app. Qed.

Lemma reports_gr_report e message :
  List.filter is_report (gr_report e message) = gr_report e message.
Proof. unfold gr_report. by destruct (failed e). Qed.

Lemma reports_printfs evs : forallb is_printf evs = true -> List.filter is_report evs = [].
Proof.
  induction evs as [|e evs IH]; [done|]. cbn [forallb List.filter].
  intros [He Hrest]%andb_true_iff. destruct e; try discriminate He. by apply IH.
Qed.

Lemma gr_report_nil e message : gr_report e message = [] <-> e = cudaSuccess.
Proof. unfold gr_report. destruct e; cbn [failed]; split; congruence. Qed.

(** X16: the report of a PageRank run holds the name of the primitive
    and the elapsed time, and nothing else: whatever the engine computes
    and whatever statistics its enactor gives, these three pieces of
    text are all that is printed. *)
Theorem X16_pr_report {enums : GunrockEnums} {Problem Enactor : Type}
    {engine : PREngine Problem Enactor}
    (out gin : GunrockGraph) (node_ids page_rank : Z) (cfg : GunrockConfig)
    (dt : GunrockDataType) (w : World) :
  pr_supported dt ->
  List.filter is_printf
    (new_events (pr_app.gunrock_pr_func out node_ids page_rank gin cfg dt) w) =
  [EvPrintf "[%s] finished. " [ArgStr "GPU PageRank"];
   EvPrintf " elapsed: %.3f ms" [ArgDouble (elapsed_millis w)];
   EvPrintf "\n" []].
Proof.
  intros Hs. unfold pr_app.gunrock_pr_func.
  rewrite dispatch_page_rank_new_events by done.
  unfold pr_run_events. rewrite !printfs_app, !printfs_gr_report.
  cbn [List.filter is_printf app].
  rewrite printfs_all by reflexivity. by rewrite app_nil_r.
Qed.

Lemma X16_pr_report_witness :
  pr_supported (enums := example.enumerators) example.float_types /\
  List.filter is_printf
    (new_events
       (pr_app.gunrock_pr_func (enums := example.enumerators) (engine := example.pr)
          example.graph 400 300 example.graph (example.config 0 0 false false)
          example.float_types) example.world) =
  [EvPrintf "[%s] finished. " [ArgStr "GPU PageRank"];
   EvPrintf " elapsed: %.3f ms" [ArgDouble 0x1.8p+0%float];
   EvPrintf "\n" []].
Proof.
  assert (Hs : pr_supported (enums := example.enumerators) example.float_types)
    by (by repeat split).
  split; [exact Hs|].
  exact (X16_pr_report (enums := example.enumerators) (engine := example.pr)
           example.graph example.graph 400 300 (example.config 0 0 false false)
           example.float_types example.world Hs).
Defined.

(** X17: [run_bfs] on a graph without vertices.  The label array it
    returns holds no label, and the report is the name line followed by
    the message about fewer than five vertices, whatever statuses the
    engine returns. *)
Theorem X17_empty_graph {Problem Enactor : Type}
    {engine : BFSEngine Problem Enactor} (mp idem : bool) (out : GunrockGraph)
    (g : Csr.t) (src mgs n : Z) (q : float) (ctx : CudaContext) (w : World) :
  Csr.nodes g <= 0 ->
  let run := bfs_app.run_bfs mp idem out g src mgs n q ctx in
  ints_at (heap (snd (run w))) (node_values (fst (run w))) = [] /\
  List.filter is_printf (new_events run w) =
    [finished_line "GPU Breadth-first search"; fewer_line].
Proof.
  intros Hn run. subst run.
  rewrite run_bfs_new_events.
  pose proof (run_bfs_run mp idem out g src mgs n q ctx w) as Hrun. cbv zeta in Hrun.
  rewrite Hrun. clear Hrun. cbn [fst snd node_values set_node_values].
  autorewrite with world.
  set (c := bfs_calls mp idem _ src mgs n q ctx (label_block w (Csr.nodes g)) NULL).
  rewrite ints_at_bfs_final_heap.
  assert (Hl : (if served w (Csr.nodes g)
                then overwrite (fst (snd (extracted c))) (junk_block w (Csr.nodes g))
                else []) = []).
  { destruct (served w (Csr.nodes g)); [|done].
    unfold overwrite, junk_block. by rewrite seqZ_nil by done. }
  split; [exact Hl|].
  unfold bfs_run_events. rewrite ints_at_bfs_final_heap, Hl.
  rewrite !printfs_app, !printfs_gr_report.
  cbn [List.filter is_printf app]. rewrite app_nil_r.
  rewrite printfs_all by apply bfs_DisplayStats_prints_printf.
  unfold bfs_DisplayStats_prints, bfs_app.count_visited.
  by rewrite seqZ_nil by done.
Qed.

Lemma X17_empty_graph_witness :
  let g := Csr.mk 0 0 100 200 in
  let run := bfs_app.run_bfs (engine := example.bfs) false false example.graph g
               0 0 1 1%float 0 in
  Csr.nodes g <= 0 /\
  List.filter is_printf (new_events run example.world) =
    [finished_line "GPU Breadth-first search"; fewer_line].
Proof.
  cbv zeta.
  assert (Hn : Csr.nodes (Csr.mk 0 0 100 200) <= 0) by (by vm_compute).
  split; [exact Hn|].
  exact (proj2 (X17_empty_graph (engine := example.bfs) false false example.graph
                  (Csr.mk 0 0 100 200) 0 0 1 1%float 0 example.world Hn)).
Defined.

(** X18: what a run reports.  Each of the four calls whose status is
    not success is reported once, with the message of its call, in the
    order of the calls; a run reports nothing exactly when all four
    calls succeed. *)
Theorem X18_error_reports :
  (forall (BP BE : Type) (bfs : BFSEngine BP BE) mp idem out g src mgs n q ctx w,
     let c := bfs_calls mp idem
                (Csr.load g (label_memory w (Csr.nodes g)))
                src mgs n q ctx (label_block w (Csr.nodes g)) NULL in
     let reports :=
       List.filter is_report (new_events (bfs_app.run_bfs mp idem out g src mgs n q ctx) w) in
     reports =
       gr_report (fst (after_init c)) "Problem BFS Initialization Failed"
       ++ gr_report (fst (after_reset c)) "BFS Problem Data Reset Failed"
       ++ gr_report (fst (after_enact c)) "BFS Problem Enact Failed"
       ++ gr_report (fst (extracted c)) "BFS Problem Data Extraction Failed" /\
     (reports = [] <->
      fst (after_init c) = cudaSuccess /\ fst (after_reset c) = cudaSuccess /\
      fst (after_enact c) = cudaSuccess /\ fst (extracted c) = cudaSuccess))
  /\
  (forall (PP PE : Type) (pr : PREngine PP PE)
          out node_ids page_rank g source delta error max_iter mgs n ctx w,
     let c := pr_calls (Csr.load g (heap w)) source delta error max_iter mgs n ctx
                page_rank node_ids in
     let reports :=
       List.filter is_report
         (new_events
            (pr_app.run_page_rank out node_ids page_rank g source delta error max_iter
               mgs n ctx) w) in
     reports =
       gr_report (fst (pr_after_init c)) "Page Rank Problem Initialization Failed"
       ++ gr_report (fst (pr_after_reset c)) "Page Rank Problem Data Reset Failed"
       ++ gr_report (fst (pr_after_enact c)) "Page Rank Problem Enact Failed"
       ++ gr_report (fst (pr_extracted c)) "Page Rank Problem Data Extraction Failed" /\
     (reports = [] <->
      fst (pr_after_init c) = cudaSuccess /\ fst (pr_after_reset c) = cudaSuccess /\
      fst (pr_after_enact c) = cudaSuccess /\ fst (pr_extracted c) = cudaSuccess)).
Proof.
  split.
  - intros BP BE bfs mp idem out g src mgs n q ctx w c reports. subst reports.
    rewrite run_bfs_new_events. fold c.
    assert (E : List.filter is_report (bfs_run_events mp idem g src n w c) =
                gr_report (fst (after_init c)) "Problem BFS Initialization Failed"
                ++ gr_report (fst (after_reset c)) "BFS Problem Data Reset Failed"
                ++ gr_report (fst (after_enact c)) "BFS Problem Enact Failed"
                ++ gr_report (fst (extracted c)) "BFS Problem Data Extraction Failed").
    { unfold bfs_run_events. rewrite !reports_app, !reports_gr_report.
      rewrite (reports_printfs (bfs_DisplayStats_prints _ _ _ _ _ _ _ _ _))
        by apply bfs_DisplayStats_prints_printf.
      cbn [List.filter is_report app]. by rewrite app_nil_r. }
    rewrite E. split; [done|].
    rewrite !app_nil, !gr_report_nil. tauto.
  - intros PP PE pr out node_ids page_rank g source delta error max_iter mgs n ctx w
           c reports. subst reports.
    rewrite run_page_rank_new_events. fold c.
    assert (E : List.filter is_report
                  (pr_run_events source max_iter n page_rank node_ids w c) =
                gr_report (fst (pr_after_init c)) "Page Rank Problem Initialization Failed"
                ++ gr_report (fst (pr_after_reset c)) "Page Rank Problem Data Reset Failed"
                ++ gr_report (fst (pr_after_enact c)) "Page Rank Problem Enact Failed"
                ++ gr_report (fst (pr_extracted c))
                     "Page Rank Problem Data Extraction Failed").
    { unfold pr_run_events. rewrite !reports_app, !reports_gr_report.
      rewrite (reports_printfs (pr_DisplayStats_prints (pr_app.mkStats "GPU PageRank")
                                  (elapsed_millis w))) by reflexivity.
      cbn [List.filter is_report app]. by rewrite app_nil_r. }
    rewrite E. split; [done|].
    rewrite !app_nil, !gr_report_nil. tauto.
Qed.
